(** * EmoConnect: the emotion decision engine, the sample window and the
    process supervisor, as a shallow embedding of

      - src/main_integrated.py  (ElderCompanionBot.detect_emotion and
                                 ElderCompanionBot.llm_emotion_fallback)
      - src/emotion_webcam.py   (emotion_window, webcam_loop)
      - src/controller.py       (PROCS, is_running, start_process,
                                 stop_process, wait_for_emotion_api,
                                 status_payload and the /start, /stop routes)

    Modelling choices.
    - Python exceptions are values of [py_exn]; a Python call either returns
      ([Ret]) or raises ([Raise]).
    - Confidences (Python floats) are rationals [Q]; NaN and infinities are
      not represented.
    - [str.lower] and [str.strip] are modelled on ASCII.
    - JSON as [json.loads] returns it: objects ([JObj]) are dicts, so their
      keys are looked up by the first (only) entry.
    - Time is in integer milliseconds ([Z]).
    - The supervisor runs over an abstract operating system (the class
      [Controller.OS]); [Popen.poll()] reads the world without changing
      it, and the calls with an outside effect are logged in a trace.
    - The [while] loop of wait_for_emotion_api runs on fuel; running out
      of fuel is the non-Python outcome [OutOfFuel], which the probe's
      theorem shows unreachable when sleeps take their time.  *)

From Stdlib Require Import QArith String Ascii ZArith Lqa.
From stdpp Require Import base gmap strings list.
Close Scope Q_scope.
Open Scope string_scope.
Set Warnings "-register-all".

(* ================================================================== *)
(** ** Python values shared by all three programs *)

Inductive py_exn :=
| KeyError
| TypeError
| AttributeError
| ValueError
| StopIteration
| JSONDecodeError
| RequestException  (* requests.ConnectionError, requests.Timeout, ... *)
| OSError (msg : string)
| OutOfFuel.  (* not a Python exception: the model's marker for a loop
                 whose fuel ran out, see [Controller.wait_loop] *)

Inductive pyres (A : Type) :=
| Ret (a : A)
| Raise (e : py_exn).
Arguments Ret {A} a.
Arguments Raise {A} e.

Definition pbind {A B} (m : pyres A) (k : A -> pyres B) : pyres B :=
  match m with Ret a => k a | Raise e => Raise e end.

Notation "x <-? m ;; k" := (pbind m (fun x => k))
  (at level 100, m at next level, right associativity).

(** *** ASCII models of [str.lower] and [str.strip] *)

Definition lower_ascii (c : ascii) : ascii :=
  let n := nat_of_ascii c in
  if (65 <=? n)%nat && (n <=? 90)%nat then ascii_of_nat (n + 32) else c.

Fixpoint lower (s : string) : string :=
  match s with
  | EmptyString => EmptyString
  | String c s' => String (lower_ascii c) (lower s')
  end.

(** [str.isspace] on ASCII: \t \n \v \f \r, \x1c-\x1f and the space. *)
Definition is_space (c : ascii) : bool :=
  let n := nat_of_ascii c in
  ((9 <=? n)%nat && (n <=? 13)%nat) || ((28 <=? n)%nat && (n <=? 32)%nat).

Fixpoint drop_spaces (l : list ascii) : list ascii :=
  match l with
  | [] => []
  | c :: l' => if is_space c then drop_spaces l' else l
  end.

Definition strip (s : string) : string :=
  string_of_list_ascii
    (rev (drop_spaces (rev (drop_spaces (list_ascii_of_string s))))).

(** *** JSON values as [response.json()] returns them *)

Inductive json :=
| JNull
| JBool (b : bool)
| JNum (q : Q)
| JStr (s : string)
| JArr (l : list json)
| JObj (kvs : list (string * json)).

Fixpoint assoc {A} (k : string) (kvs : list (string * A)) : option A :=
  match kvs with
  | [] => None
  | (k', v) :: r => if String.eqb k k' then Some v else assoc k r
  end.

(** Python truthiness ([not frames]). *)
Definition truthy (j : json) : bool :=
  match j with
  | JNull => false
  | JBool b => b
  | JNum q => negb (Qeq_bool q 0)
  | JStr s => negb (String.eqb s "")
  | JArr l => match l with [] => false | _ => true end
  | JObj kvs => match kvs with [] => false | _ => true end
  end.

(** [payload.get(key, default)]: only dicts have [.get]. *)
Definition dict_get (j : json) (k : string) (default : json) : pyres json :=
  match j with
  | JObj kvs => match assoc k kvs with Some v => Ret v | None => Ret default end
  | _ => Raise AttributeError
  end.

(** [for f in frames]: lists give their items, strings their characters,
    dicts their keys; numbers, booleans and None are not iterable. *)
Definition py_iter (j : json) : pyres (list json) :=
  match j with
  | JArr l => Ret l
  | JStr s => Ret (map (fun c => JStr (String c EmptyString)) (list_ascii_of_string s))
  | JObj kvs => Ret (map (fun kv => JStr (fst kv)) kvs)
  | _ => Raise TypeError
  end.

(** [f[key]] with a string key: a dict lookup; any other value raises. *)
Definition subscript (j : json) (k : string) : pyres json :=
  match j with
  | JObj kvs => match assoc k kvs with Some v => Ret v | None => Raise KeyError end
  | _ => Raise TypeError
  end.

(** [x.lower()]: only strings have it. *)
Definition py_lower (j : json) : pyres string :=
  match j with
  | JStr s => Ret (lower s)
  | _ => Raise AttributeError
  end.

(** [float(x)]; [float_of_str] is Python's conversion of a string
    (None when it raises ValueError). *)
Definition py_float (float_of_str : string -> option Q) (j : json) : pyres Q :=
  match j with
  | JNum q => Ret q
  | JBool b => Ret (if b then 1%Q else 0%Q)
  | JStr s => match float_of_str s with Some q => Ret q | None => Raise ValueError end
  | _ => Raise TypeError
  end.

(** [max(xs)] on floats: the first element, replaced by each later one
    that is strictly greater; the empty list raises ValueError. *)
Definition Qgtb (x y : Q) : bool := negb (Qle_bool x y).

Definition py_max (xs : list Q) : pyres Q :=
  match xs with
  | [] => Raise ValueError
  | x :: xs' => Ret (fold_left (fun m y => if Qgtb y m then y else m) xs' x)
  end.

(** [max(items, key=key)]: keeps the first item of greatest key. *)
Fixpoint max_by_go {A} (key : A -> pyres Q) (best : A) (kb : Q) (l : list A) : pyres A :=
  match l with
  | [] => Ret best
  | y :: l' => ky <-? key y ;;
               if Qgtb ky kb then max_by_go key y ky l' else max_by_go key best kb l'
  end.

Definition py_max_by {A} (key : A -> pyres Q) (items : list A) : pyres A :=
  match items with
  | [] => Raise ValueError
  | x :: xs => kx <-? key x ;; max_by_go key x kx xs
  end.

(* ================================================================== *)
(** ** main_integrated.py: ElderCompanionBot.detect_emotion *)

Module Bot.

Definition neutral : string := "neutral".

(** The labels the LLM fallback accepts (line 139). *)
Definition LLM_LABELS : list string :=
  ["happy"; "sad"; "angry"; "fear"; "disgust"; "surprise"].

(** CLASSES of emotion_webcam.py: the fixed label set. *)
Definition CLASSES : list string :=
  ["angry"; "disgust"; "fear"; "happy"; "neutral"; "sad"; "surprise"].

(** The grouping dict [counts]: emotion -> confidences, insertion order. *)
Definition counts_t := list (string * list Q).

(** [counts.setdefault(emo, []).append(conf)] *)
Fixpoint setdefault_append (emo : string) (conf : Q) (c : counts_t) : counts_t :=
  match c with
  | [] => [(emo, [conf])]
  | (k, v) :: r =>
      if String.eqb emo k then (k, (v ++ [conf])%list) :: r
      else (k, v) :: setdefault_append emo conf r
  end.

Section Decide.

Variable float_of_str : string -> option Q.

(** The loop of lines 100-103. *)
Fixpoint group (frames : list json) (c : counts_t) : pyres counts_t :=
  match frames with
  | [] => Ret c
  | f :: fs =>
      emo <-? (e <-? subscript f "emotion" ;; py_lower e) ;;
      conf <-? (x <-? subscript f "confidence" ;; py_float float_of_str x) ;;
      group fs (setdefault_append emo conf c)
  end.

(** Lines 93-103: [None] when [not frames] (the early "neutral"). *)
Definition parse_frames (payload : json) : pyres (option counts_t) :=
  frames <-? dict_get payload "data" (JArr []) ;;
  if negb (truthy frames) then Ret None
  else fs <-? py_iter frames ;;
       c <-? group fs [] ;;
       Ret (Some c).

End Decide.

(** The reply of [self.chat.send_message(prompt)]: it raises, or it
    returns a response whose [.text] may be None. *)
Inductive oracle_reply :=
| OracleRaises (e : py_exn)
| OracleText (text : option string).

Definition nl : string := String (ascii_of_nat 10) EmptyString.

(** f-string rendering of [user_input] (None renders as "None"). *)
Definition py_str_opt (s : option string) : string :=
  match s with Some s => s | None => "None" end.

Definition fallback_prompt (user_input : option string) : string :=
  "Based on the user's message, choose the ONE most likely emotion." ++ nl ++
  "Only return ONE word from this list:" ++ nl ++
  "happy, sad, angry, fear, disgust, surprise" ++ nl ++ nl ++
  "User message: '" ++ py_str_opt user_input ++ "'".

(** ElderCompanionBot.llm_emotion_fallback (lines 128-144). *)
Definition llm_emotion_fallback (oracle : string -> oracle_reply)
    (user_input : option string) : string :=
  match oracle (fallback_prompt user_input) with
  | OracleRaises _ => neutral
  | OracleText None => neutral  (* None.strip() raises AttributeError *)
  | OracleText (Some t) =>
      let emotion := lower (strip t) in
      if existsb (String.eqb emotion) LLM_LABELS then emotion else neutral
  end.

(** Lines 105-122. *)
Definition decide (oracle : string -> oracle_reply) (user_input : option string)
    (counts : counts_t) : pyres string :=
  if bool_decide (map fst counts = [neutral]) then
    Ret (llm_emotion_fallback oracle user_input)
  else
    let non_neutral := List.filter (fun kv => negb (String.eqb (fst kv) neutral)) counts in
    if (length non_neutral =? 1)%nat then
      match non_neutral with
      | (k, _) :: _ => Ret k
      | [] => Raise StopIteration
      end
    else
      best <-? py_max_by (fun item => py_max (snd item)) non_neutral ;;
      Ret (fst best).

(** The outcome of [requests.get(".../emotion", timeout=1.0)]: it raises,
    or it returns a status and a body that [.json()] decodes (None when
    decoding raises). *)
Inductive http_reply :=
| HttpRaises (e : py_exn)
| HttpResponse (status : Z) (body : option json).

Definition detect_try (float_of_str : string -> option Q) (fetch : http_reply)
    (oracle : string -> oracle_reply) (user_input : option string) : pyres string :=
  match fetch with
  | HttpRaises e => Raise e
  | HttpResponse status body =>
      if negb (status =? 200)%Z then Ret neutral
      else
        payload <-? (match body with Some j => Ret j | None => Raise JSONDecodeError end) ;;
        oc <-? parse_frames float_of_str payload ;;
        match oc with
        | None => Ret neutral
        | Some counts => decide oracle user_input counts
        end
  end.

(** ElderCompanionBot.detect_emotion (lines 79-126): the body inside
    [try ... except Exception: return "neutral"]. *)
Definition detect_emotion (float_of_str : string -> option Q) (fetch : http_reply)
    (oracle : string -> oracle_reply) (user_input : option string) : pyres string :=
  match detect_try float_of_str fetch oracle user_input with
  | Ret r => Ret r
  | Raise _ => Ret neutral
  end.

(** A window sample as the producer serialises it. *)
Record sample := { s_timestamp : Q; s_emotion : string; s_confidence : Q }.

Definition sample_json (s : sample) : json :=
  JObj [("timestamp", JNum (s_timestamp s)); ("emotion", JStr (s_emotion s));
        ("confidence", JNum (s_confidence s))].

(** The body of GET /emotion for a window. *)
Definition window_payload (w : list sample) : json :=
  JObj [("window_size", JNum (inject_Z (Z.of_nat (length w))));
        ("data", JArr (map sample_json w))].

Definition fetch_ok (w : list sample) : http_reply :=
  HttpResponse 200 (Some (window_payload w)).

(** Spec-level views of a window, used to state the decision policy. *)

(** The label a sample is grouped under ([f["emotion"].lower()]). *)
Definition lbl (s : sample) : string := lower (s_emotion s).

(** The confidences of the samples labelled [k], in window order. *)
Definition confs_of (w : list sample) (k : string) : list Q :=
  map s_confidence (List.filter (fun s => String.eqb (lbl s) k) w).

(** [m] is the maximum of [l]: one of its values and above all of them. *)
Definition is_max (l : list Q) (m : Q) : Prop :=
  In m l /\ forall x, In x l -> (x <= m)%Q.

(** The distinct labels of a window, in order of first occurrence. *)
Definition uniq (w : list sample) : list string :=
  fold_left (fun acc s => if existsb (String.eqb (lbl s)) acc then acc
                          else (acc ++ [lbl s])%list) w [].

(** The dict [counts] the loop builds from a well-formed window. *)
Definition counts_of (w : list sample) : counts_t :=
  fold_left (fun c s => setdefault_append (lbl s) (s_confidence s) c) w [].

(** The keys of the dict [non_neutral] (line 110) for a well-formed window. *)
Definition nn_labels (w : list sample) : list string :=
  List.filter (fun k => negb (String.eqb k neutral)) (uniq w).

(** A window with two non-baseline labels, "happy" and "sad". *)
Definition demo_window : list sample :=
  [{| s_timestamp := 1; s_emotion := "happy"; s_confidence := 6 # 10 |};
   {| s_timestamp := 2; s_emotion := "Sad"; s_confidence := 9 # 10 |};
   {| s_timestamp := 3; s_emotion := "neutral"; s_confidence := 95 # 100 |}].

(** A window of baseline samples only. *)
Definition calm_window : list sample :=
  [{| s_timestamp := 1; s_emotion := "neutral"; s_confidence := 8 # 10 |};
   {| s_timestamp := 2; s_emotion := "Neutral"; s_confidence := 7 # 10 |}].

End Bot.

(* ================================================================== *)
(** ** emotion_webcam.py: the rolling window and the sampling loop *)

Module Webcam.
Import Bot.

(** [collections.deque(maxlen=n).append(x)]: append on the right, then
    trim one item from the left when the length exceeds [maxlen]. *)
Definition deque_append {A} (maxlen : nat) (d : list A) (x : A) : list A :=
  let d' := (d ++ [x])%list in
  if (maxlen <? length d')%nat then tl d' else d'.

(** [emotion_window = deque(maxlen=5)] (line 97). *)
Definition WINDOW_MAXLEN : nat := 5.

(** One iteration of [webcam_loop] (lines 125-164), as far as the window
    is concerned: a failed read, or a classified frame at time [now]. *)
Inductive tick :=
| ReadFailed
| Frame (emotion : string) (confidence : Q) (now : Q).

Record cam_state := {
  emotion_window : list sample;
  last_sample_time : Q;
  latest : sample
}.

Definition loop_step (st : cam_state) (t : tick) : cam_state :=
  match t with
  | ReadFailed => st  (* time.sleep(0.05); continue *)
  | Frame e c now =>
      let latest' := {| s_timestamp := now; s_emotion := e; s_confidence := c |} in
      if Qle_bool 1 (now - last_sample_time st) then
        {| emotion_window := deque_append WINDOW_MAXLEN (emotion_window st) latest';
           last_sample_time := now;
           latest := latest' |}
      else
        {| emotion_window := emotion_window st;
           last_sample_time := last_sample_time st;
           latest := latest' |}
  end.

Definition run_loop (st : cam_state) (ticks : list tick) : cam_state :=
  fold_left loop_step ticks st.

End Webcam.

(* ================================================================== *)
(** ** controller.py: the process supervisor *)

Module Controller.

(** A [subprocess.Popen] handle; its identity is the pid. *)
Record Popen := mk_Popen { pid : Z }.

(** The operating-system calls the supervisor makes, over an abstract
    world. [os_poll] is [Popen.poll()]: None while the child runs, its
    return code once it has exited. Time is in milliseconds. *)
Class OS (World : Type) := {
  os_clock : World -> Z;                                 (* time.time() *)
  os_path_exists : World -> string -> bool;              (* os.path.exists *)
  os_popen : World -> list string -> Z -> World * pyres Popen;  (* subprocess.Popen(args, creationflags=...) *)
  os_poll : World -> Popen -> option Z;                  (* p.poll() *)
  os_send_signal : World -> Popen -> Z -> World * pyres unit;   (* p.send_signal(sig) *)
  os_terminate : World -> Popen -> World * pyres unit;   (* p.terminate() *)
  os_kill : World -> Popen -> World * pyres unit;        (* p.kill() *)
  os_sleep : World -> Z -> World;                        (* time.sleep *)
  os_http_get : World -> string -> Z -> World * pyres Z; (* requests.get(url, timeout).status_code *)
  os_nt : bool;                                          (* os.name == "nt" *)
  os_pyexe : string                                      (* sys.executable *)
}.

(** [subprocess.CREATE_NEW_PROCESS_GROUP] and [signal.CTRL_BREAK_EVENT]. *)
Definition CREATE_NEW_PROCESS_GROUP : Z := 512.
Definition CTRL_BREAK_EVENT : Z := 1.

(** The calls with an effect outside the process, in the order made. *)
Inductive event :=
| EvPopen (args : list string) (creationflags : Z) (outcome : pyres Popen)
| EvSendSignal (pid : Z) (sig : Z) (outcome : pyres unit)
| EvTerminate (pid : Z) (outcome : pyres unit)
| EvKill (pid : Z) (outcome : pyres unit)
| EvSleep (ms : Z)
| EvGet (issued : Z) (url : string) (timeout : Z) (outcome : pyres Z).

(** The supervisor's state: the world, the dict [PROCS] and the calls made
    so far. A key of [PROCS] maps to None or to a handle. *)
Record St (World : Type) := mk_St {
  world : World;
  procs : gmap string (option Popen);
  trace : list event
}.
Arguments mk_St {World} _ _ _.
Arguments world {World} _.
Arguments procs {World} _.
Arguments trace {World} _.

(** [PROCS = {"emotion": None, "bot": None}] *)
Definition PROCS0 : gmap string (option Popen) :=
  <["emotion" := None]> (<["bot" := None]> ∅).

(** Python code over the supervisor's state: it returns or raises, and
    its effects up to that point persist. *)
Definition M (World A : Type) : Type := St World -> St World * pyres A.

Definition mret {World A} (a : A) : M World A := fun s => (s, Ret a).

Definition mbind_M {World A B} (m : M World A) (k : A -> M World B) : M World B :=
  fun s => match m s with
           | (s', Ret a) => k a s'
           | (s', Raise e) => (s', Raise e)
           end.

Notation "x <- m ;; k" := (mbind_M m (fun x => k))
  (at level 100, m at next level, right associativity).

(** [try: m  except Exception as e: h(e)] *)
Definition try_except {World A} (m : M World A) (h : py_exn -> M World A) : M World A :=
  fun s => match m s with
           | (s', Ret a) => (s', Ret a)
           | (s', Raise e) => h e s'
           end.

(** [PROCS.get(name)] *)
Definition procs_get {World} (name : string) : M World (option Popen) :=
  fun s => (s, Ret (mjoin (procs s !! name))).

(** [PROCS[name]] *)
Definition procs_sub {World} (name : string) : M World (option Popen) :=
  fun s => match procs s !! name with
           | Some v => (s, Ret v)
           | None => (s, Raise KeyError)
           end.

(** [PROCS[name] = v] *)
Definition procs_set {World} (name : string) (v : option Popen) : M World unit :=
  fun s => (mk_St (world s) (<[name := v]> (procs s)) (trace s), Ret tt).

(** [p.pid] on a value that may be None. *)
Definition attr_pid {World} (p : option Popen) : M World Z :=
  match p with
  | Some p => mret (pid p)
  | None => fun s => (s, Raise AttributeError)
  end.

(** [str(e)] of the exceptions a termination call raises. *)
Definition exn_str (e : py_exn) : string :=
  match e with
  | OSError msg => msg
  | _ => ""
  end.

(** The JSON dicts [{"ok": ..., "message": ..., "pid": ...}]; [rpid] is
    None when the dict has no "pid" key. *)
Record result := mk_result { ok : bool; message : string; rpid : option Z }.

Record status := mk_status {
  emotion_running : bool;
  bot_running : bool;
  emotion_pid : option Z;
  bot_pid : option Z;
  emotion_api_reachable : bool
}.

Record start_resp := mk_start_resp {
  r_emotion : result;
  emotion_api_ready : bool;
  r_bot : result
}.

Record stop_resp := mk_stop_resp { s_bot : result; s_emotion : result }.

Definition EMOTION_URL : string := "http://127.0.0.1:5000/emotion".

Definition BOT_NOT_STARTED : string := "Emotion API did not come up. Bot not started.".

Section Supervisor.

Context {World : Type} `{!OS World}.

(** The primitives, lifted to the state; the calls with an outside effect
    are logged with their outcome. *)
Definition time_time : M World Z := fun s => (s, Ret (os_clock (world s))).

Definition path_exists (path : string) : M World bool :=
  fun s => (s, Ret (os_path_exists (world s) path)).

Definition popen (args : list string) (flags : Z) : M World Popen :=
  fun s => let '(w', r) := os_popen (world s) args flags in
           (mk_St w' (procs s) (trace s ++ [EvPopen args flags r]), r).

Definition poll (p : Popen) : M World (option Z) :=
  fun s => (s, Ret (os_poll (world s) p)).

Definition send_signal (p : Popen) (sig : Z) : M World unit :=
  fun s => let '(w', r) := os_send_signal (world s) p sig in
           (mk_St w' (procs s) (trace s ++ [EvSendSignal (pid p) sig r]), r).

Definition terminate (p : Popen) : M World unit :=
  fun s => let '(w', r) := os_terminate (world s) p in
           (mk_St w' (procs s) (trace s ++ [EvTerminate (pid p) r]), r).

Definition kill (p : Popen) : M World unit :=
  fun s => let '(w', r) := os_kill (world s) p in
           (mk_St w' (procs s) (trace s ++ [EvKill (pid p) r]), r).

Definition sleep (ms : Z) : M World unit :=
  fun s => (mk_St (os_sleep (world s) ms) (procs s) (trace s ++ [EvSleep ms]), Ret tt).

Definition requests_get (url : string) (timeout : Z) : M World Z :=
  fun s => let t := os_clock (world s) in
           let '(w', r) := os_http_get (world s) url timeout in
           (mk_St w' (procs s) (trace s ++ [EvGet t url timeout r]), r).

(** is_running (lines 19-21). *)
Definition is_running (name : string) : M World bool :=
  p <- procs_get name ;;
  match p with
  | None => mret false
  | Some p => rc <- poll p ;; mret (match rc with None => true | Some _ => false end)
  end.

(** start_process (lines 24-43). *)
Definition start_process (name script : string) : M World result :=
  running <- is_running name ;;
  if running then
    p <- procs_sub name ;;
    n <- attr_pid p ;;
    mret (mk_result true (name ++ " already running") (Some n))
  else
    ex <- path_exists script ;;
    if negb ex then mret (mk_result false ("Missing file: " ++ script) None)
    else
      let creationflags := if os_nt then CREATE_NEW_PROCESS_GROUP else 0%Z in
      p <- popen [os_pyexe; script] creationflags ;;
      _ <- procs_set name (Some p) ;;
      mret (mk_result true ("Started " ++ name) (Some (pid p))).

(** stop_process (lines 46-70). *)
Definition stop_process (name : string) : M World result :=
  p <- procs_get name ;;
  match p with
  | None => mret (mk_result true (name ++ " not running") None)
  | Some p =>
      rc <- poll p ;;
      match rc with
      | Some _ =>
          _ <- procs_set name None ;;
          mret (mk_result true (name ++ " already stopped") None)
      | None =>
          try_except
            (_ <- (if os_nt then _ <- send_signal p CTRL_BREAK_EVENT ;; sleep 800
                   else _ <- terminate p ;; sleep 800) ;;
             rc' <- poll p ;;
             _ <- (match rc' with None => kill p | Some _ => mret tt end) ;;
             _ <- procs_set name None ;;
             mret (mk_result true ("Stopped " ++ name) None))
            (fun e => mret (mk_result false ("Stop failed: " ++ exn_str e) None))
      end
  end.

(** The [while] loop of wait_for_emotion_api (lines 75-83), run for at
    most [fuel] iterations. *)
Fixpoint wait_loop (fuel : nat) (start timeout : Z) : M World bool :=
  match fuel with
  | O => fun s => (s, Raise OutOfFuel)
  | S fuel' =>
      t <- time_time ;;
      if (t - start <? timeout)%Z then
        ready <- try_except
                   (code <- requests_get EMOTION_URL 400 ;; mret (code =? 200)%Z)
                   (fun _ => mret false) ;;
        if ready then mret true
        else _ <- sleep 200 ;; wait_loop fuel' start timeout
      else mret false
  end.

(** Enough iterations when every [time.sleep(0.2)] lasts its 200 ms:
    the loop then ends by itself before the fuel runs out. *)
Definition wait_fuel (timeout : Z) : nat := S (S (Z.to_nat (timeout / 200))).

(** wait_for_emotion_api (lines 73-83); [timeout] in ms. *)
Definition wait_for_emotion_api (timeout : Z) : M World bool :=
  start <- time_time ;;
  wait_loop (wait_fuel timeout) start timeout.

(** [PROCS[name].pid if is_running(name) else None] *)
Definition running_pid (name : string) : M World (option Z) :=
  r <- is_running name ;;
  if r then p <- procs_sub name ;; n <- attr_pid p ;; mret (Some n)
  else mret None.

(** status_payload (lines 86-93); the dict is built left to right. *)
Definition status_payload : M World status :=
  er <- is_running "emotion" ;;
  br <- is_running "bot" ;;
  ep <- running_pid "emotion" ;;
  bp <- running_pid "bot" ;;
  reach <- wait_for_emotion_api 100 ;;
  mret (mk_status er br ep bp reach).

(** The /start route (lines 316-335). *)
Definition start : M World start_resp :=
  res_emotion <- start_process "emotion" "emotion_webcam.py" ;;
  ok <- wait_for_emotion_api 30000 ;;
  res_bot <- (if ok then start_process "bot" "main_integrated.py"
              else mret (mk_result false BOT_NOT_STARTED None)) ;;
  mret (mk_start_resp res_emotion ok res_bot).

(** The /stop route (lines 338-343). *)
Definition stop : M World stop_resp :=
  res_bot <- stop_process "bot" ;;
  res_emotion <- stop_process "emotion" ;;
  mret (mk_stop_resp res_bot res_emotion).

End Supervisor.

(** Spec-level views. *)

(** A termination call that raised. *)
Definition stop_call_raised (ev : event) : Prop :=
  match ev with
  | EvSendSignal _ _ (Raise _) | EvTerminate _ (Raise _) | EvKill _ (Raise _) => True
  | _ => False
  end.

(** The pid of the live process recorded for [name], if any. *)
Definition live_pid `{OS World} (s : St World) (name : string) : option Z :=
  match mjoin (procs s !! name) with
  | Some p => match os_poll (world s) p with None => Some (pid p) | Some _ => None end
  | None => None
  end.

(** The calls of a readiness probe started at [start]: a request issued
    while the elapsed time is under [timeout]; on status 200 it answers
    true, on any other status or an exception it sleeps 200 ms and tries
    again; with no request it answers false. *)
Inductive probe_log (start timeout : Z) : list event -> bool -> Prop :=
| probe_ready t :
    (t - start < timeout)%Z ->
    probe_log start timeout [EvGet t EMOTION_URL 400 (Ret 200%Z)] true
| probe_retry t o tr b :
    (t - start < timeout)%Z -> o <> Ret 200%Z ->
    probe_log start timeout tr b ->
    probe_log start timeout (EvGet t EMOTION_URL 400 o :: EvSleep 200 :: tr) b
| probe_expired :
    probe_log start timeout [] false.

(** The calls a readiness probe makes. *)
Definition is_probe_call (ev : event) : Prop :=
  match ev with
  | EvGet _ _ _ _ | EvSleep _ => True
  | _ => False
  end.

(** A launch of [script]. *)
Definition is_launch_of `{OS World} (script : string) (ev : event) : Prop :=
  match ev with
  | EvPopen args _ _ => args = [os_pyexe; script]
  | _ => False
  end.

(** [m] only appends calls satisfying [P] to the trace. *)
Definition logs_only {World A} (P : event -> Prop) (m : M World A) : Prop :=
  forall s s' r, m s = (s', r) -> exists tr, trace s' = (trace s ++ tr)%list /\ Forall P tr.

End Controller.

(* ================================================================== *)
(** ** A simulated operating system, to run the supervisor on *)

Module Sim.
Import Controller.

Record sim := mk_sim {
  sim_clock : Z;
  sim_files : list string;
  sim_alive : list Z;              (* pids of running children *)
  sim_next_pid : Z;
  sim_spawn_error : option string; (* Popen raises OSError *)
  sim_stop_error : option string;  (* terminate / send_signal / kill raise OSError *)
  sim_api : Z -> option Z;         (* status answered to a request issued at t;
                                      None: connection refused *)
  sim_latency : N                  (* duration of a request *)
}.

Definition set_clock (w : sim) (t : Z) : sim :=
  mk_sim t (sim_files w) (sim_alive w) (sim_next_pid w) (sim_spawn_error w)
    (sim_stop_error w) (sim_api w) (sim_latency w).

Definition set_alive (w : sim) (alive : list Z) (next : Z) : sim :=
  mk_sim (sim_clock w) (sim_files w) alive next (sim_spawn_error w)
    (sim_stop_error w) (sim_api w) (sim_latency w).

Definition sim_stop (w : sim) (p : Popen) : sim * pyres unit :=
  match sim_stop_error w with
  | Some msg => (w, Raise (OSError msg))
  | None => (set_alive w (List.filter (fun q => negb (q =? pid p)%Z) (sim_alive w))
               (sim_next_pid w), Ret tt)
  end.

#[export] Instance SimOS : OS sim := {
  os_clock := sim_clock;
  os_path_exists w path := existsb (String.eqb path) (sim_files w);
  os_popen w args flags :=
    match sim_spawn_error w with
    | Some msg => (w, Raise (OSError msg))
    | None => (set_alive w (sim_next_pid w :: sim_alive w) (sim_next_pid w + 1),
               Ret (mk_Popen (sim_next_pid w)))
    end;
  os_poll w p := if existsb (Z.eqb (pid p)) (sim_alive w) then None else Some 0%Z;
  os_send_signal w p sig := sim_stop w p;
  os_terminate := sim_stop;
  os_kill := sim_stop;
  os_sleep w ms := set_clock w (sim_clock w + ms);
  os_http_get w url timeout :=
    (set_clock w (sim_clock w + Z.of_N (sim_latency w)),
     match sim_api w (sim_clock w) with
     | Some code => Ret code
     | None => Raise RequestException
     end);
  os_nt := false;
  os_pyexe := "python"
}.

Definition SCRIPTS : list string := ["emotion_webcam.py"; "main_integrated.py"].

(** A fresh machine at time 0 whose emotion API answers [api]. *)
Definition machine (api : Z -> option Z) (latency : N) : sim :=
  mk_sim 0 SCRIPTS [] 100 None None api latency.

Definition boot (w : sim) : St sim := mk_St w PROCS0 [].

(** The emotion service running as pid 7. *)
Definition running_emotion : St sim :=
  mk_St (set_alive (machine (fun _ => Some 200%Z) 10) [7%Z] 100)
    (<["emotion" := Some (mk_Popen 7)]> PROCS0) [].

(** A machine on which every spawn fails. *)
Definition broken_spawn : sim :=
  mk_sim 0 SCRIPTS [] 100 (Some "Permission denied") None (fun _ => None) 0.

(** The emotion service recorded as pid 7, a process that has exited. *)
Definition dead_emotion : St sim :=
  mk_St (machine (fun _ => Some 200%Z) 10) (<["emotion" := Some (mk_Popen 7)]> PROCS0) [].

(** An emotion API whose 200 answers take 300 ms. *)
Definition slow_api : St sim := boot (machine (fun _ => Some 200%Z) 300).

(** An emotion API that answers 204 No Content. *)
Definition no_content_api : St sim := boot (machine (fun _ => Some 204%Z) 50).

(** An emotion API that refuses connections until 500 ms, then answers 200. *)
Definition late_api : St sim :=
  boot (machine (fun t => if (t <? 500)%Z then None else Some 200%Z) 50).

End Sim.

(* ================================================================== *)
(** ** emotion_webcam.py: face detection and classification *)

Module Vision.
Import Bot.

(** A rectangle [(x, y, w, h)] in pixels, as [detectMultiScale] returns them. *)
Definition rect : Type := (Z * Z * Z * Z)%type.

(** The key of [max(faces, key=lambda r: r[2] * r[3])]. *)
Definition area (r : rect) : pyres Q :=
  let '(_, _, w, h) := r in Ret (inject_Z (w * h)).

(** detect_face (lines 52-72). [shape] is [frame_bgr.shape[:2]], i.e.
    (rows, columns); [faces] is what the cascade detected. The result is
    the rectangle [(x, y, w, h)] of the slice [frame_bgr[y:y + h, x:x + w]].
    [int(0.2 * w)] is [Z.quot w 5]: the float [0.2 * w] has the integer
    part of [w / 5] for every pixel size. *)
Definition detect_face (shape : Z * Z) (faces : list rect) : pyres (option rect) :=
  if (length faces =? 0)%nat then Ret None
  else
    best <-? py_max_by area faces ;;
    let '(x, y, w, h) := best in
    let padding := Z.quot w 5 in
    let x := Z.max 0 (x - padding) in
    let y := Z.max 0 (y - padding) in
    let w := Z.min (snd shape - x) (w + 2 * padding) in
    let h := Z.min (fst shape - y) (h + 2 * padding) in
    Ret (Some (x, y, w, h)).

(** [np.argmax(probs)]: the index of the first greatest value; None when
    [probs] is empty (numpy raises ValueError). *)
Fixpoint argmax_go (l : list Q) (i best_i : nat) (best : Q) : nat :=
  match l with
  | [] => best_i
  | y :: l' => if Qgtb y best then argmax_go l' (S i) i y else argmax_go l' (S i) best_i best
  end.

Definition np_argmax (l : list Q) : option nat :=
  match l with
  | [] => None
  | x :: l' => Some (argmax_go l' 1 0 x)
  end.

(** The outcome of predict_emotion_from_frame: the dict it returns, or
    the exception it raises ([CLASSES[pred_idx]] out of range raises
    IndexError). *)
Inductive prediction :=
| Predicted (emotion : string) (confidence : Q)
| PredictRaises (e : py_exn)
| PredictIndexError.

(** predict_emotion_from_frame (lines 74-91). [probs_of] is the network
    on a face crop: [F.softmax(model(transform(face)))[0]]. *)
Definition predict_emotion_from_frame (shape : Z * Z) (faces : list rect)
    (probs_of : rect -> list Q) : prediction :=
  match detect_face shape faces with
  | Raise e => PredictRaises e
  | Ret None => Predicted neutral 0
  | Ret (Some face) =>
      let probs := probs_of face in
      match np_argmax probs with
      | None => PredictRaises ValueError
      | Some pred_idx =>
          match py_max probs with
          | Raise e => PredictRaises e
          | Ret conf =>
              match nth_error CLASSES pred_idx with
              | Some pred_label => Predicted pred_label conf
              | None => PredictIndexError
              end
          end
      end
  end.

(** Spec-level view: consecutive samples of a window are at least one
    second apart. *)
Fixpoint spaced (w : list sample) : Prop :=
  match w with
  | a :: ((b :: _) as r) => (1 <= s_timestamp b - s_timestamp a)%Q /\ spaced r
  | _ => True
  end.

End Vision.

(* ================================================================== *)
(** ** main_integrated.py: the rest of ElderCompanionBot *)

Module Companion.
Import Bot.

(** *** Text helpers *)

(** [str.split()] with no argument on ASCII: the runs of non-space
    characters. *)
Fixpoint split_go (l : list ascii) (cur : list ascii) : list string :=
  match l with
  | [] => match cur with [] => [] | _ => [string_of_list_ascii (rev cur)] end
  | c :: l' =>
      if is_space c then
        match cur with
        | [] => split_go l' []
        | _ => string_of_list_ascii (rev cur) :: split_go l' []
        end
      else split_go l' (c :: cur)
  end.

Definition py_split (s : string) : list string := split_go (list_ascii_of_string s) [].

Definition upper_ascii (c : ascii) : ascii :=
  let n := nat_of_ascii c in
  if (97 <=? n)%nat && (n <=? 122)%nat then ascii_of_nat (n - 32) else c.

(** [str.capitalize()] on ASCII: the first character upper-cased, the
    rest lower-cased. Only ASCII letters change case here; Python also
    title-cases a non-ASCII first character (e.g. "ß" becomes "Ss"). *)
Definition capitalize (s : string) : string :=
  match s with
  | EmptyString => EmptyString
  | String c r => String (upper_ascii c) (lower r)
  end.

Definition IGNORE : list string := ["my"; "name"; "is"; "i'm"; "im"; "call"; "me"].

(** ElderCompanionBot.extract_name (lines 73-76). *)
Definition extract_name (text : string) : string :=
  let words := List.filter (fun w => negb (existsb (String.eqb w) IGNORE)) (py_split (lower text)) in
  match words with
  | w :: _ => capitalize w
  | [] => "Friend"
  end.

(** [needle in haystack] on strings. *)
Fixpoint py_contains (needle hay : string) : bool :=
  String.prefix needle hay ||
  match hay with
  | EmptyString => false
  | String _ hay' => py_contains needle hay'
  end.

Definition YES_WORDS : list string :=
  ["yes"; "yeah"; "yep"; "sure"; "ok"; "okay"; "please";
   "alright"; "i want"; "i would"; "i'd like"; "lets"; "let's";
   "go ahead"; "1"; "first"].

Definition NO_WORDS : list string :=
  ["no"; "nah"; "nope"; "not"; "don't"; "do not"; "dont";
   "stop"; "2"; "second"].

(** ElderCompanionBot.is_yes and is_no (lines 191-195). *)
Definition is_yes (text : string) : bool :=
  existsb (fun w => py_contains w (lower text)) YES_WORDS.

Definition is_no (text : string) : bool :=
  existsb (fun w => py_contains w (lower text)) NO_WORDS.

(** *** The robot *)

(** The calls the bot makes, over an abstract world. [fh_listen] gives
    None when [furhat.listen()] returns None and the response's message
    otherwise. The chat and the webcam request are read from the world;
    the model keeps no chat history, which the code never reads. *)
Class Furhat (W : Type) := {
  fh_say : W -> string -> W * pyres unit;          (* furhat.say(text=..., blocking=True) *)
  fh_listen : W -> W * pyres (option string);       (* furhat.listen() *)
  fh_gesture : W -> string -> W * pyres unit;       (* furhat.gesture(name=...) *)
  fh_sleep : W -> Z -> W;                           (* time.sleep, in ms *)
  fh_chat : W -> string -> oracle_reply;            (* self.chat.send_message(prompt) *)
  fh_fetch : W -> http_reply;                       (* requests.get(".../emotion", timeout=1.0) *)
  fh_float : string -> option Q                     (* float(s) *)
}.

(** The calls with an outside effect, in the order made. *)
Inductive call :=
| CSay (text : string) (outcome : pyres unit)
| CListen (outcome : pyres (option string))
| CGesture (name : string) (outcome : pyres unit)
| CSleep (ms : Z).

(** The bot's attributes that change ([user_name], [last_emotion]), the
    world and the calls made so far. *)
Record bot_state (W : Type) := mk_bs {
  bw : W;
  user_name : string;
  last_emotion : string;
  calls : list call
}.
Arguments mk_bs {W} _ _ _ _.
Arguments bw {W} _.
Arguments user_name {W} _.
Arguments last_emotion {W} _.
Arguments calls {W} _.

(** [ElderCompanionBot.__init__]: the name "Friend", the emotion "neutral". *)
Definition init_state {W} (w : W) : bot_state W := mk_bs w "Friend" neutral [].

Definition R (W A : Type) : Type := bot_state W -> bot_state W * pyres A.

Definition rret {W A} (a : A) : R W A := fun s => (s, Ret a).

Definition rbind {W A B} (m : R W A) (k : A -> R W B) : R W B :=
  fun s => match m s with
           | (s', Ret a) => k a s'
           | (s', Raise e) => (s', Raise e)
           end.

Notation "x <- m ;; k" := (rbind m (fun x => k))
  (at level 100, m at next level, right associativity).

(** [response and response.message]: the message when it is non-empty. *)
Definition message_of (r : option string) : option string :=
  match r with
  | Some m => if String.eqb m "" then None else Some m
  | None => None
  end.

(** [if choice:] on True, False or None. *)
Definition py_truthy_choice (c : option bool) : bool :=
  match c with Some true => true | _ => false end.

Definition REPROMPT : string := "Sorry, is that a yes or a no?".

Definition emotion_gestures : list (string * list string) :=
  [("happy", ["BigSmile"; "Nod"]);
   ("sad", ["Thoughtful"; "LookDown"]);
   ("angry", ["ShakeHead"]);
   ("fear", ["GazeAway"; "Thoughtful"]);
   ("surprise", ["Surprised"; "RaiseBrows"]);
   ("disgust", ["ShakeHead"; "LookAway"]);
   ("neutral", ["Smile"])].

(** [self.emotion_gestures.get(emotion, [])] *)
Definition gestures_for (emotion : string) : list string :=
  match assoc emotion emotion_gestures with Some gs => gs | None => [] end.

Definition paraphrase_prompt (fixed_reply user_input : string) : string :=
  "User said: '" ++ user_input ++ "'" ++ nl ++
  "Original response: '" ++ fixed_reply ++ "'" ++ nl ++
  "Paraphrase warmly for an elderly listener.".

Definition SAD_FIXED : string :=
  "I’m sorry that you’re feeling sad and it is completely okay to feel this way. Would you like some music recommendations to help you feel a bit better?".
Definition ANGRY_FIXED : string :=
  "It seems you're upset. Would you like a quick reset, like a calming breath?".
Definition FEAR_FIXED : string :=
  "You look worried. Would you like a quick grounding exercise to feel better?".
Definition HAPPY_FIXED : string :=
  "Oh, how wonderful! I am glad that you are happy! Would you like to pen down your thoughts to remember this eventful day?".
Definition SURPRISE_FIXED : string :=
  "Oh my, that is so surprising! I understand you got a shock, would you like to calm down with a slow breath?".
Definition DISGUST_FIXED : string :=
  "That seems really unpleasant, it is fine to feel unsettled. Would you like to take a moment to reset with a calming breath?".

Definition HERE_FOR_YOU : string := "I'm here with you. Tell me what's on your mind.".
Definition CONTINUE_QUESTION : string := "Would you like to continue the chat?".

Section Robot.

Context {W : Type} `{!Furhat W}.

Definition say (text : string) : R W unit :=
  fun s => let '(w', r) := fh_say (bw s) text in
           (mk_bs w' (user_name s) (last_emotion s) (calls s ++ [CSay text r])%list, r).

Definition listen : R W (option string) :=
  fun s => let '(w', r) := fh_listen (bw s) in
           (mk_bs w' (user_name s) (last_emotion s) (calls s ++ [CListen r])%list, r).

Definition gesture (name : string) : R W unit :=
  fun s => let '(w', r) := fh_gesture (bw s) name in
           (mk_bs w' (user_name s) (last_emotion s) (calls s ++ [CGesture name r])%list, r).

Definition sleep (ms : Z) : R W unit :=
  fun s => (mk_bs (fh_sleep (bw s) ms) (user_name s) (last_emotion s) (calls s ++ [CSleep ms])%list,
            Ret tt).

Definition get_user_name : R W string := fun s => (s, Ret (user_name s)).

Definition set_user_name (n : string) : R W unit :=
  fun s => (mk_bs (bw s) n (last_emotion s) (calls s), Ret tt).

Definition set_last_emotion (e : string) : R W unit :=
  fun s => (mk_bs (bw s) (user_name s) e (calls s), Ret tt).

(** [try: m  except Exception: pass] *)
Definition try_pass (m : R W unit) : R W unit :=
  fun s => match m s with
           | (s', Ret a) => (s', Ret a)
           | (s', Raise _) => (s', Ret tt)
           end.

(** [for x in l: body(x)] *)
Fixpoint r_for {A} (l : list A) (body : A -> R W unit) : R W unit :=
  match l with
  | [] => rret tt
  | x :: l' => _ <- body x ;; r_for l' body
  end.

(** safe_gesture (lines 165-171). *)
Definition safe_gesture (name : string) : R W unit :=
  if String.eqb name "" then rret tt else try_pass (gesture name).

(** express_emotion (lines 173-177). *)
Definition express_emotion (emotion : string) : R W unit :=
  r_for (gestures_for emotion) (fun g => _ <- safe_gesture g ;; sleep 200).

(** greet_user (lines 62-71). *)
Definition greet_user : R W unit :=
  _ <- safe_gesture "Smile" ;;
  _ <- say "Hello! I'm your companion Furhat." ;;
  _ <- say "May I know your name?" ;;
  response <- listen ;;
  _ <- (match message_of response with
        | Some m => set_user_name (extract_name m)
        | None => rret tt
        end) ;;
  name <- get_user_name ;;
  say ("Nice to meet you, " ++ name ++ ".").

(** paraphrase (lines 147-158); [response.text] None makes [.strip()]
    raise, which the handler turns into the fixed reply. *)
Definition paraphrase (fixed_reply user_input : string) : R W string :=
  fun s => match fh_chat (bw s) (paraphrase_prompt fixed_reply user_input) with
           | OracleRaises _ => (s, Ret fixed_reply)
           | OracleText None => (s, Ret fixed_reply)
           | OracleText (Some t) => (s, Ret (strip t))
           end.

(** ask_yes_no (lines 197-214): True, False or None. *)
Definition ask_yes_no (question reprompt : string) : R W (option bool) :=
  let second :=
    _ <- say reprompt ;;
    r2 <- listen ;;
    match message_of r2 with
    | Some m => if is_yes m then rret (Some true)
                else if is_no m then rret (Some false)
                else rret None
    | None => rret None
    end in
  _ <- say question ;;
  r1 <- listen ;;
  match message_of r1 with
  | Some m => if is_yes m then rret (Some true)
              else if is_no m then rret (Some false)
              else second
  | None => second
  end.

(** continue_chat_prompt (lines 216-218). *)
Definition continue_chat_prompt : R W bool :=
  _ <- say "I understand. I will be here for you." ;; rret true.

(** The activities (lines 222-247). *)
Definition do_one_breath : R W unit :=
  _ <- say "Okay. Let’s do one slow breath together." ;;
  _ <- say "Breathe in... one... two... three..." ;;
  _ <- sleep 300 ;;
  _ <- say "Hold... one... two..." ;;
  _ <- sleep 300 ;;
  say "Breathe out... one... two... three... four...".

Definition do_grounding_3_things : R W unit :=
  _ <- say "Okay. Let’s do a quick grounding exercise." ;;
  _ <- say "Name one thing you can see, one thing you can hear, and one thing you can feel." ;;
  _ <- listen ;;
  _ <- say "Good job. Let’s take one slow breath together." ;;
  say "Breathe in... and breathe out slowly.".

Definition do_music_reco : R W unit :=
  _ <- say "Okay. Here are a few options: soft piano, calm lo-fi, or peaceful nature sounds." ;;
  _ <- say "Would you like something more relaxing, or something more uplifting?" ;;
  _ <- listen ;;
  say "Alright. Try listening for a minute and notice how your body feels.".

Definition do_journal_prompt : R W unit :=
  _ <- say "Okay. You can start by writing what happened and how you felt." ;;
  _ <- say "What is one detail you want to remember from today?" ;;
  _ <- listen ;;
  say "That sounds meaningful. Writing it down can help you remember this moment.".

(** [self.ask_yes_no(self.paraphrase(fixed, user_input))] *)
Definition ask_paraphrased (fixed user_input : string) : R W (option bool) :=
  q <- paraphrase fixed user_input ;; ask_yes_no q REPROMPT.

(** The emotion flows (lines 250-324). *)
Definition sad_flow (user_input : string) : R W bool :=
  choice <- ask_paraphrased SAD_FIXED user_input ;;
  _ <- safe_gesture "Tilt(direction='left)" ;;
  if py_truthy_choice choice then
    _ <- safe_gesture "Nod" ;; _ <- do_music_reco ;; rret true
  else
    _ <- safe_gesture "Nod" ;; _ <- continue_chat_prompt ;; rret true.

Definition angry_flow (user_input : string) : R W bool :=
  choice <- ask_paraphrased ANGRY_FIXED user_input ;;
  if py_truthy_choice choice then
    _ <- safe_gesture "Nod" ;; _ <- do_one_breath ;; rret true
  else
    _ <- safe_gesture "Nod" ;; _ <- continue_chat_prompt ;; rret true.

Definition fear_flow (user_input : string) : R W bool :=
  _ <- safe_gesture "ExpressSad" ;;
  choice <- ask_paraphrased FEAR_FIXED user_input ;;
  if py_truthy_choice choice then
    _ <- safe_gesture "Nod" ;; _ <- do_grounding_3_things ;; rret true
  else
    _ <- safe_gesture "Nod" ;; _ <- continue_chat_prompt ;; rret true.

Definition happy_flow (user_input : string) : R W bool :=
  choice <- ask_paraphrased HAPPY_FIXED user_input ;;
  if py_truthy_choice choice then
    _ <- safe_gesture "Nod" ;; _ <- safe_gesture "BigSmile" ;; _ <- do_journal_prompt ;; rret true
  else
    _ <- safe_gesture "Nod" ;; _ <- continue_chat_prompt ;; rret true.

Definition surprise_flow (user_input : string) : R W bool :=
  _ <- safe_gesture "Tilt(direction='left')" ;;
  choice <- ask_paraphrased SURPRISE_FIXED user_input ;;
  if py_truthy_choice choice then
    _ <- safe_gesture "Nod" ;; _ <- do_one_breath ;; rret true
  else
    _ <- safe_gesture "Nod" ;; _ <- continue_chat_prompt ;; rret true.

Definition disgust_flow (user_input : string) : R W bool :=
  choice <- ask_paraphrased DISGUST_FIXED user_input ;;
  if py_truthy_choice choice then
    _ <- safe_gesture "Nod" ;; _ <- do_one_breath ;; rret true
  else
    _ <- safe_gesture "Nod" ;; _ <- continue_chat_prompt ;; rret true.

(** [self.detect_emotion(user_input)]: ElderCompanionBot.detect_emotion
    on the world's webcam reply and chat. *)
Definition detect (user_input : string) : R W string :=
  fun s => (s, detect_emotion fh_float (fh_fetch (bw s)) (fh_chat (bw s)) (Some user_input)).

(** respond (lines 327-346). *)
Definition respond (user_input : string) : R W bool :=
  emotion <- detect user_input ;;
  _ <- set_last_emotion emotion ;;
  _ <- express_emotion emotion ;;
  if String.eqb emotion "sad" then sad_flow user_input
  else if String.eqb emotion "angry" then angry_flow user_input
  else if String.eqb emotion "fear" then fear_flow user_input
  else if String.eqb emotion "happy" then happy_flow user_input
  else if String.eqb emotion "surprise" then surprise_flow user_input
  else if String.eqb emotion "disgust" then disgust_flow user_input
  else _ <- say HERE_FOR_YOU ;; rret true.

(** The [while True] loop of run (lines 353-364), for at most [fuel]
    rounds; the model's [OutOfFuel] marks a loop still running. *)
Fixpoint chat_loop (fuel : nat) : R W unit :=
  match fuel with
  | O => fun s => (s, Raise OutOfFuel)
  | S fuel' =>
      _ <- say "How are you feeling today?" ;;
      response <- listen ;;
      brk <- (match message_of response with
              | Some m => should_continue <- respond m ;; rret (negb should_continue)
              | None => rret false
              end) ;;
      if brk then rret tt
      else
        cont <- ask_yes_no CONTINUE_QUESTION REPROMPT ;;
        match cont with
        | Some false => rret tt
        | _ => chat_loop fuel'
        end
  end.

(** run (lines 349-370). *)
Definition run (fuel : nat) : R W unit :=
  _ <- greet_user ;;
  _ <- chat_loop fuel ;;
  name <- get_user_name ;;
  say ("It was nice talking to you, " ++ name ++ ". Take care.").

End Robot.

(** Spec-level views. *)

(** The calls without their outcomes. *)
Inductive act :=
| ASay (text : string)
| AListen
| AGesture (name : string)
| ASleep (ms : Z).

Definition act_of (c : call) : act :=
  match c with
  | CSay t _ => ASay t
  | CListen _ => AListen
  | CGesture n _ => AGesture n
  | CSleep ms => ASleep ms
  end.

(** [m] keeps the bot's attributes and only appends to the calls. *)
Definition keeps_attrs {W A} (m : R W A) : Prop :=
  forall s s' r, m s = (s', r) ->
    user_name s' = user_name s /\ last_emotion s' = last_emotion s /\
    exists tr, calls s' = (calls s ++ tr)%list.

(** [m] answers True whenever it returns. *)
Definition returns_true {W} (m : R W bool) : Prop :=
  forall s s' b, m s = (s', Ret b) -> b = true.

(** [m] leaves [self.user_name] as it is and only appends to the calls. *)
Definition keeps_name {W A} (m : R W A) : Prop :=
  forall s s' r, m s = (s', r) ->
    user_name s' = user_name s /\ exists tr, calls s' = (calls s ++ tr)%list.

(** The yes/no reading of one reply, as ask_yes_no tests it. *)
Definition answer_of (r : option string) : option bool :=
  match message_of r with
  | Some m => if is_yes m then Some true else if is_no m then Some false else None
  | None => None
  end.

End Companion.

(* ================================================================== *)
(** ** A simulated robot, to run the bot on *)

Module RobotSim.
Import Bot Companion.

Record robot := mk_robot {
  rb_heard : list (option string);  (* the next replies of listen; none left: silence *)
  rb_spoken : list string;
  rb_gesture_error : option string; (* furhat.gesture raises *)
  rb_clock : Z;
  rb_chat : string -> oracle_reply;
  rb_webcam : http_reply
}.

#[export] Instance RobotOS : Furhat robot := {
  fh_say w t := (mk_robot (rb_heard w) (rb_spoken w ++ [t])%list (rb_gesture_error w)
                   (rb_clock w) (rb_chat w) (rb_webcam w), Ret tt);
  fh_listen w :=
    match rb_heard w with
    | [] => (w, Ret None)
    | r :: rest => (mk_robot rest (rb_spoken w) (rb_gesture_error w) (rb_clock w)
                      (rb_chat w) (rb_webcam w), Ret r)
    end;
  fh_gesture w name :=
    match rb_gesture_error w with
    | Some msg => (w, Raise (OSError msg))
    | None => (w, Ret tt)
    end;
  fh_sleep w ms := mk_robot (rb_heard w) (rb_spoken w) (rb_gesture_error w)
                     (rb_clock w + ms) (rb_chat w) (rb_webcam w);
  fh_chat := rb_chat;
  fh_fetch := rb_webcam;
  fh_float _ := None
}.

(** A robot that hears [heard], whose chat is down and whose webcam
    service is unreachable. *)
Definition robot_hearing (heard : list (option string)) : robot :=
  mk_robot heard [] None 0 (fun _ => OracleRaises RequestException) (HttpRaises RequestException).

(** A room where the microphone hears nothing: every listen returns None. *)
Record room := mk_room { room_spoken : list string; room_clock : Z }.

#[export] Instance SilentRoomOS : Furhat room := {
  fh_say w t := (mk_room (room_spoken w ++ [t])%list (room_clock w), Ret tt);
  fh_listen w := (w, Ret None);
  fh_gesture w name := (w, Ret tt);
  fh_sleep w ms := mk_room (room_spoken w) (room_clock w + ms);
  fh_chat _ _ := OracleRaises RequestException;
  fh_fetch _ := HttpRaises RequestException;
  fh_float _ := None
}.

End RobotSim.

(* ================================================================== *)
(** ** Proofs about the decision engine *)

Module BotFacts.
Import Bot.

Lemma existsb_eqb_In (k : string) (U : list string) :
  existsb (String.eqb k) U = true <-> In k U.
Proof.
  rewrite existsb_exists. split.
  - intros [x [Hx Heq]]. apply String.eqb_eq in Heq. subst. exact Hx.
  - intros H. exists k. split; [exact H | apply String.eqb_refl].
Qed.

Lemma group_map (fos : string -> option Q) (w : list sample) (c : counts_t) :
  group fos (map sample_json w) c =
  Ret (fold_left (fun c s => setdefault_append (lbl s) (s_confidence s) c) w c).
Proof.
  revert c. induction w as [|s w IH]; intros c; [reflexivity|].
  simpl. apply IH.
Qed.

Lemma parse_frames_window (fos : string -> option Q) (w : list sample) :
  w <> [] -> parse_frames fos (window_payload w) = Ret (Some (counts_of w)).
Proof.
  intros Hw.
  transitivity (c <-? group fos (map sample_json w) [] ;; Ret (Some c)).
  - destruct w as [|s w']; [congruence | reflexivity].
  - rewrite group_map. reflexivity.
Qed.

Lemma uniq_snoc (w : list sample) (s : sample) :
  uniq (w ++ [s]) =
  if existsb (String.eqb (lbl s)) (uniq w) then uniq w else (uniq w ++ [lbl s])%list.
Proof. unfold uniq. rewrite fold_left_app. reflexivity. Qed.

Lemma counts_of_snoc (w : list sample) (s : sample) :
  counts_of (w ++ [s]) = setdefault_append (lbl s) (s_confidence s) (counts_of w).
Proof. unfold counts_of. rewrite fold_left_app. reflexivity. Qed.

Lemma confs_of_snoc (w : list sample) (s : sample) (k : string) :
  confs_of (w ++ [s]) k =
  (confs_of w k ++ (if String.eqb (lbl s) k then [s_confidence s] else []))%list.
Proof.
  unfold confs_of. rewrite List.filter_app, map_app. simpl.
  destruct (String.eqb (lbl s) k); reflexivity.
Qed.

Lemma uniq_In (w : list sample) (k : string) :
  In k (uniq w) <-> exists s, In s w /\ lbl s = k.
Proof.
  induction w as [|s w IH] using rev_ind.
  - simpl. split; [tauto | intros [s [[] _]]].
  - rewrite uniq_snoc. split.
    + intros H. destruct (existsb (String.eqb (lbl s)) (uniq w)) eqn:E.
      * apply IH in H as [s' [Hs' Hk]]. exists s'. split; [apply in_or_app; left; exact Hs' | exact Hk].
      * apply in_app_or in H as [H | [H | []]].
        -- apply IH in H as [s' [Hs' Hk]]. exists s'. split; [apply in_or_app; left; exact Hs' | exact Hk].
        -- exists s. split; [apply in_or_app; right; left; reflexivity | exact H].
    + intros [s' [Hs' Hk]]. apply in_app_or in Hs' as [Hs' | [Hs' | []]].
      * assert (Hin : In k (uniq w)) by (apply IH; exists s'; auto).
        destruct (existsb (String.eqb (lbl s)) (uniq w)); [exact Hin | apply in_or_app; left; exact Hin].
      * subst s'. destruct (existsb (String.eqb (lbl s)) (uniq w)) eqn:E.
        -- apply existsb_eqb_In in E. subst k. exact E.
        -- apply in_or_app; right; left. exact Hk.
Qed.

Lemma uniq_NoDup (w : list sample) : NoDup (uniq w).
Proof.
  induction w as [|s w IH] using rev_ind.
  - constructor.
  - rewrite uniq_snoc. destruct (existsb (String.eqb (lbl s)) (uniq w)) eqn:E; [exact IH|].
    apply NoDup_app. split; [exact IH|]. split; [|apply NoDup_singleton].
    intros x Hx Hy. apply list_elem_of_singleton in Hy. subst x.
    apply list_elem_of_In in Hx.
    assert (existsb (String.eqb (lbl s)) (uniq w) = true) by (apply existsb_eqb_In; exact Hx).
    congruence.
Qed.

Lemma sa_map_in (f : string -> list Q) (k : string) (x : Q) (U : list string) :
  NoDup U -> In k U ->
  setdefault_append k x (map (fun j => (j, f j)) U) =
  map (fun j => (j, if String.eqb k j then (f j ++ [x])%list else f j)) U.
Proof.
  induction U as [|a U IH]; intros Hnd Hin; [destruct Hin|].
  inversion Hnd as [|? ? Hna Hnd']; subst. simpl.
  try rewrite list_elem_of_In in Hna.
  destruct (String.eqb k a) eqn:E.
  - apply String.eqb_eq in E. subst a. f_equal.
    apply map_ext_in. intros j Hj.
    destruct (String.eqb k j) eqn:E'; [|reflexivity].
    apply String.eqb_eq in E'. subst. contradiction.
  - f_equal. apply IH; [exact Hnd'|].
    destruct Hin as [Hin | Hin]; [subst; rewrite String.eqb_refl in E; discriminate | exact Hin].
Qed.

Lemma sa_map_notin (f : string -> list Q) (k : string) (x : Q) (U : list string) :
  ~ In k U ->
  setdefault_append k x (map (fun j => (j, f j)) U) =
  (map (fun j => (j, f j)) U ++ [(k, [x])])%list.
Proof.
  induction U as [|a U IH]; intros Hn; [reflexivity|]. simpl.
  destruct (String.eqb k a) eqn:E.
  - apply String.eqb_eq in E. subst. exfalso. apply Hn. left. reflexivity.
  - f_equal. apply IH. intros H. apply Hn. right. exact H.
Qed.

Lemma confs_of_nil (w : list sample) (k : string) :
  ~ (exists s, In s w /\ lbl s = k) -> confs_of w k = [].
Proof.
  intros Hn. unfold confs_of.
  destruct (List.filter (fun s => String.eqb (lbl s) k) w) as [|s l] eqn:E; [reflexivity|].
  exfalso. apply Hn. assert (Hs : In s (List.filter (fun s => String.eqb (lbl s) k) w))
    by (rewrite E; left; reflexivity).
  apply List.filter_In in Hs as [Hs Heq]. apply String.eqb_eq in Heq. eauto.
Qed.

Lemma counts_of_spec (w : list sample) :
  counts_of w = map (fun k => (k, confs_of w k)) (uniq w).
Proof.
  induction w as [|s w IH] using rev_ind; [reflexivity|].
  rewrite counts_of_snoc, uniq_snoc, IH.
  destruct (existsb (String.eqb (lbl s)) (uniq w)) eqn:E.
  - apply existsb_eqb_In in E.
    rewrite (sa_map_in (confs_of w) (lbl s) (s_confidence s) (uniq w) (uniq_NoDup w) E).
    apply map_ext. intros j. rewrite confs_of_snoc.
    destruct (String.eqb (lbl s) j); [reflexivity|]. rewrite app_nil_r. reflexivity.
  - assert (Hn : ~ In (lbl s) (uniq w)) by (intros H; apply existsb_eqb_In in H; congruence).
    rewrite (sa_map_notin (confs_of w) (lbl s) (s_confidence s) (uniq w) Hn).
    rewrite map_app. simpl. f_equal.
    + apply map_ext_in. intros j Hj. rewrite confs_of_snoc.
      destruct (String.eqb (lbl s) j) eqn:E'; [|rewrite app_nil_r; reflexivity].
      apply String.eqb_eq in E'. subst. contradiction.
    + rewrite confs_of_snoc, String.eqb_refl.
      rewrite confs_of_nil; [reflexivity|].
      intros H. apply Hn. apply uniq_In. exact H.
Qed.

Lemma classic_or_label (w : list sample) (r : string) :
  (exists s, In s w /\ lbl s = r) \/ ~ (exists s, In s w /\ lbl s = r).
Proof.
  destruct (existsb (String.eqb r) (uniq w)) eqn:E.
  - left. apply uniq_In, existsb_eqb_In. exact E.
  - right. intros H. apply uniq_In, existsb_eqb_In in H. congruence.
Qed.

Lemma Qgtb_true (x y : Q) : Qgtb x y = true -> (y < x)%Q.
Proof.
  unfold Qgtb. intros H. apply negb_true_iff in H.
  apply Qnot_le_lt. intros Hle. apply Qle_bool_iff in Hle. congruence.
Qed.

Lemma Qgtb_false (x y : Q) : Qgtb x y = false -> (x <= y)%Q.
Proof.
  unfold Qgtb. intros H. apply negb_false_iff in H. apply Qle_bool_iff. exact H.
Qed.

Lemma py_max_fold (xs : list Q) (acc : Q) :
  let m := fold_left (fun m y => if Qgtb y m then y else m) xs acc in
  In m (acc :: xs) /\ (acc <= m)%Q /\ (forall y, In y xs -> (y <= m)%Q).
Proof.
  revert acc. induction xs as [|y xs IH]; intros acc; simpl.
  - split; [left; reflexivity|]. split; [apply Qle_refl | intros _ []].
  - destruct (Qgtb y acc) eqn:E.
    + destruct (IH y) as [Hin [Hle Hall]]. apply Qgtb_true in E.
      split; [destruct Hin as [H|H]; [right; left; exact H | right; right; exact H]|].
      split; [apply Qle_trans with y; [apply Qlt_le_weak; exact E | exact Hle]|].
      intros z [Hz|Hz]; [subst; exact Hle | apply Hall; exact Hz].
    + destruct (IH acc) as [Hin [Hle Hall]]. apply Qgtb_false in E.
      split; [destruct Hin as [H|H]; [left; exact H | right; right; exact H]|].
      split; [exact Hle|].
      intros z [Hz|Hz]; [subst; apply Qle_trans with acc; [exact E | exact Hle] | apply Hall; exact Hz].
Qed.

Lemma py_max_is_max (xs : list Q) (m : Q) : py_max xs = Ret m -> is_max xs m.
Proof.
  destruct xs as [|x xs]; simpl; [discriminate|]. intros H. injection H as <-.
  destruct (py_max_fold xs x) as [Hin [Hle Hall]].
  split; [exact Hin|]. intros y [Hy|Hy]; [subst; exact Hle | apply Hall; exact Hy].
Qed.

Lemma is_max_le (l : list Q) (a b : Q) : is_max l a -> is_max l b -> (a <= b)%Q.
Proof. intros [Ha _] [_ Hb]. apply Hb. exact Ha. Qed.

Lemma max_by_go_spec {A} (key : A -> pyres Q) (f : A -> Q) (l : list A) :
  forall (P l1 l2 : list A) (b best : A),
  (forall x, In x l -> key x = Ret (f x)) ->
  P = (l1 ++ b :: l2)%list ->
  (forall x, In x l1 -> (f x < f b)%Q) ->
  (forall x, In x P -> (f x <= f b)%Q) ->
  max_by_go key b (f b) l = Ret best ->
  exists l1' l2', (P ++ l)%list = (l1' ++ best :: l2')%list /\
    (forall x, In x l1' -> (f x < f best)%Q) /\
    (forall x, In x (P ++ l) -> (f x <= f best)%Q).
Proof.
  induction l as [|y l IH]; intros P l1 l2 b best Hkey HP Hlt Hle Hgo.
  - simpl in Hgo. injection Hgo as <-. exists l1, l2. rewrite !app_nil_r. auto.
  - simpl in Hgo. rewrite (Hkey y (or_introl eq_refl)) in Hgo. simpl in Hgo.
    assert (Hkey' : forall x, In x l -> key x = Ret (f x)) by (intros; apply Hkey; right; auto).
    replace (P ++ y :: l)%list with ((P ++ [y]) ++ l)%list by (rewrite <- app_assoc; reflexivity).
    destruct (Qgtb (f y) (f b)) eqn:E.
    + apply Qgtb_true in E.
      apply (IH (P ++ [y])%list P [] y best Hkey' eq_refl); [| |exact Hgo].
      * intros x Hx. apply Qle_lt_trans with (f b); [apply Hle; exact Hx | exact E].
      * intros x Hx. apply in_app_or in Hx as [Hx|[Hx|[]]].
        -- apply Qle_trans with (f b); [apply Hle; exact Hx | apply Qlt_le_weak; exact E].
        -- subst. apply Qle_refl.
    + apply Qgtb_false in E.
      apply (IH (P ++ [y])%list l1 (l2 ++ [y])%list b best Hkey'); [| exact Hlt | | exact Hgo].
      * subst P. rewrite <- app_assoc. reflexivity.
      * intros x Hx. apply in_app_or in Hx as [Hx|[Hx|[]]]; [apply Hle; exact Hx | subst; exact E].
Qed.

Lemma py_max_by_spec {A} (key : A -> pyres Q) (f : A -> Q) (items : list A) (best : A) :
  (forall x, In x items -> key x = Ret (f x)) ->
  py_max_by key items = Ret best ->
  exists l1 l2, items = (l1 ++ best :: l2)%list /\
    (forall x, In x l1 -> (f x < f best)%Q) /\
    (forall x, In x items -> (f x <= f best)%Q).
Proof.
  destruct items as [|x xs]; intros Hkey H; [discriminate|].
  simpl in H. rewrite (Hkey x (or_introl eq_refl)) in H. simpl in H.
  apply (max_by_go_spec key f xs [x] [] [] x best); auto.
  - intros y Hy. apply Hkey. right. exact Hy.
  - intros y [].
  - intros y [Hy|[]]. subst. apply Qle_refl.
Qed.

Lemma nodup_split_unique {A} (l1 l2 l1' l2' : list A) (x : A) :
  NoDup (l1 ++ x :: l2) -> (l1 ++ x :: l2)%list = (l1' ++ x :: l2')%list -> l1 = l1'.
Proof.
  revert l1'. induction l1 as [|a l1 IH]; intros [|b l1'] Hnd Heq; simpl in *.
  - reflexivity.
  - injection Heq as <- Heq. apply NoDup_cons in Hnd as [Hn _].
    exfalso. apply Hn. rewrite Heq. apply list_elem_of_In. apply in_or_app. right. left. reflexivity.
  - injection Heq as -> Heq. apply NoDup_cons in Hnd as [Hn _].
    exfalso. apply Hn. apply list_elem_of_In. apply in_or_app. right. left. reflexivity.
  - injection Heq as <- Heq. f_equal. apply IH; [apply NoDup_cons in Hnd as [_ H]; exact H | exact Heq].
Qed.

Lemma uniq_order (w : list sample) (i : nat) (si : sample) (r : string) :
  w !! i = Some si -> lbl si <> r ->
  (forall j sj, (j < i)%nat -> w !! j = Some sj -> lbl sj <> r) ->
  (exists s, In s w /\ lbl s = r) ->
  exists a1 a2, uniq w = (a1 ++ r :: a2)%list /\ In (lbl si) a1.
Proof.
  induction w as [|s w IH] using rev_ind; intros Hi Hne Hbefore Hr.
  - rewrite lookup_nil in Hi. discriminate.
  - pose proof (lookup_lt_Some _ _ _ Hi) as Hlt. rewrite length_app in Hlt. simpl in Hlt.
    rewrite uniq_snoc.
    destruct (Nat.lt_ge_cases i (length w)) as [Hiw|Hiw].
    + rewrite lookup_app_l in Hi by exact Hiw.
      destruct (classic_or_label w r) as [Hrw|Hrw].
      * destruct (IH Hi Hne) as [a1 [a2 [Hu Ha]]]; [| exact Hrw |].
        { intros j sj Hj Hsj. apply (Hbefore j sj Hj). rewrite lookup_app_l; [exact Hsj|].
          apply lookup_lt_Some in Hsj. exact Hsj. }
        destruct (existsb (String.eqb (lbl s)) (uniq w)).
        -- exists a1, a2. auto.
        -- exists a1, (a2 ++ [lbl s])%list. rewrite Hu, <- app_assoc. auto.
      * destruct Hr as [s' [Hs' Hls']]. apply in_app_or in Hs' as [Hs'|[Hs'|[]]].
        { exfalso. apply Hrw. eauto. }
        subst s'.
        assert (E : existsb (String.eqb (lbl s)) (uniq w) = false).
        { destruct (existsb (String.eqb (lbl s)) (uniq w)) eqn:E; [|reflexivity].
          apply existsb_eqb_In, uniq_In in E. rewrite Hls' in E. contradiction. }
        rewrite E. exists (uniq w), []. rewrite Hls'. split; [reflexivity|].
        apply uniq_In. exists si. split; [|reflexivity].
        apply list_elem_of_In. eapply list_elem_of_lookup_2. exact Hi.
    + assert (i = length w) by lia. subst i.
      rewrite lookup_app_r in Hi by lia. rewrite Nat.sub_diag in Hi. simpl in Hi.
      injection Hi as <-. exfalso.
      destruct Hr as [s' [Hs' Hls']]. apply in_app_or in Hs' as [Hs'|[Hs'|[]]].
      * apply list_elem_of_In in Hs'. apply list_elem_of_lookup_1 in Hs' as [j Hj].
        apply (Hbefore j s'); [apply lookup_lt_Some in Hj; exact Hj | | exact Hls'].
        rewrite lookup_app_l; [exact Hj | apply lookup_lt_Some in Hj; exact Hj].
      * subst. contradiction.
Qed.

Lemma detect_fetch_ok (fos : string -> option Q) (w : list sample)
    (oracle : string -> oracle_reply) (ui : option string) :
  w <> [] ->
  detect_emotion fos (fetch_ok w) oracle ui =
  match decide oracle ui (counts_of w) with Ret r => Ret r | Raise _ => Ret neutral end.
Proof.
  intros Hw. unfold detect_emotion, detect_try, fetch_ok.
  change (negb (200 =? 200)%Z) with false. cbv iota beta.
  change (pbind (Ret (window_payload w)) (fun payload => pbind (parse_frames fos payload)
           (fun oc => match oc with None => Ret neutral | Some counts => decide oracle ui counts end)))
    with (pbind (parse_frames fos (window_payload w))
           (fun oc => match oc with None => Ret neutral | Some counts => decide oracle ui counts end)).
  rewrite parse_frames_window by exact Hw. reflexivity.
Qed.

Lemma confs_of_nonempty (w : list sample) (k : string) :
  (exists s, In s w /\ lbl s = k) -> confs_of w k <> [].
Proof.
  intros [s [Hs Hk]] H. unfold confs_of in H. apply map_eq_nil in H.
  assert (Hin : In s (List.filter (fun s => String.eqb (lbl s) k) w)).
  { apply List.filter_In. split; [exact Hs | apply String.eqb_eq; exact Hk]. }
  rewrite H in Hin. destruct Hin.
Qed.

Lemma py_max_Ret (xs : list Q) : xs <> [] -> exists m, py_max xs = Ret m.
Proof. destruct xs; [congruence|]. intros _. eexists. reflexivity. Qed.

Lemma nn_labels_In (w : list sample) (k : string) :
  In k (nn_labels w) <-> (exists s, In s w /\ lbl s = k) /\ k <> neutral.
Proof.
  unfold nn_labels. rewrite List.filter_In, uniq_In.
  split; intros [H1 H2]; split; auto.
  - intros ->. rewrite String.eqb_refl in H2. discriminate.
  - apply negb_true_iff, String.eqb_neq. exact H2.
Qed.

Lemma non_neutral_of_counts (w : list sample) :
  List.filter (fun kv => negb (String.eqb (fst kv) neutral)) (counts_of w) =
  map (fun k => (k, confs_of w k)) (nn_labels w).
Proof. rewrite counts_of_spec, filter_map_swap. reflexivity. Qed.

Lemma max_by_go_total {A} (key : A -> pyres Q) (f : A -> Q) (l : list A) (b : A) :
  (forall x, In x l -> key x = Ret (f x)) -> exists best, max_by_go key b (f b) l = Ret best.
Proof.
  revert b. induction l as [|y l IH]; intros b Hkey; simpl; [eauto|].
  rewrite (Hkey y (or_introl eq_refl)). simpl.
  destruct (Qgtb (f y) (f b)); apply IH; intros; apply Hkey; right; auto.
Qed.

Lemma py_max_by_total {A} (key : A -> pyres Q) (f : A -> Q) (items : list A) :
  items <> [] -> (forall x, In x items -> key x = Ret (f x)) ->
  exists best, py_max_by key items = Ret best.
Proof.
  destruct items as [|x xs]; intros Hne Hkey; [congruence|]. simpl.
  rewrite (Hkey x (or_introl eq_refl)). simpl.
  apply max_by_go_total. intros; apply Hkey; right; auto.
Qed.

Lemma nn_labels_NoDup (w : list sample) : NoDup (nn_labels w).
Proof. apply NoDup_ListNoDup, List.NoDup_filter, NoDup_ListNoDup, uniq_NoDup. Qed.

Lemma nn_labels_order (w : list sample) (i : nat) (si : sample) (r : string) :
  w !! i = Some si -> lbl si <> neutral -> lbl si <> r -> In r (nn_labels w) ->
  (forall j sj, (j < i)%nat -> w !! j = Some sj -> lbl sj <> r) ->
  exists a1 a2, nn_labels w = (a1 ++ r :: a2)%list /\ In (lbl si) a1.
Proof.
  intros Hi Hn Hne Hr Hbefore.
  apply nn_labels_In in Hr as [Hr Hrn].
  destruct (uniq_order w i si r Hi Hne Hbefore Hr) as [a1 [a2 [Hu Ha]]].
  unfold nn_labels. rewrite Hu, List.filter_app. simpl.
  assert (E : negb (String.eqb r neutral) = true) by (apply negb_true_iff, String.eqb_neq; exact Hrn).
  rewrite E. eexists _, _. split; [reflexivity|].
  apply List.filter_In. split; [exact Ha | apply negb_true_iff, String.eqb_neq; exact Hn].
Qed.

(** C1. For a non-empty window that contains a non-baseline sample, the
    decision is a non-baseline label of the window; its maximum confidence
    is at least that of every other non-baseline label (so a single
    remaining label is returned as is), and strictly greater than that of
    every non-baseline label first encountered before it (ties go to the
    first-encountered label). *)
Theorem detect_emotion_non_baseline (fos : string -> option Q) (w : list sample)
    (oracle : string -> oracle_reply) (ui : option string)
    (Hsig : exists s, In s w /\ lbl s <> neutral) :
  exists r m,
    detect_emotion fos (fetch_ok w) oracle ui = Ret r /\
    r <> neutral /\ (exists s, In s w /\ lbl s = r) /\
    is_max (confs_of w r) m /\
    (forall s mk, In s w -> lbl s <> neutral ->
       is_max (confs_of w (lbl s)) mk -> (mk <= m)%Q) /\
    (forall i si mk, w !! i = Some si -> lbl si <> neutral -> lbl si <> r ->
       (forall j sj, (j < i)%nat -> w !! j = Some sj -> lbl sj <> r) ->
       is_max (confs_of w (lbl si)) mk -> (mk < m)%Q).
Proof.
  destruct Hsig as [s0 [Hs0 Hn0]].
  assert (Hw : w <> []) by (intros ->; destruct Hs0).
  assert (Hin0 : In (lbl s0) (nn_labels w)) by (apply nn_labels_In; eauto).
  rewrite detect_fetch_ok by exact Hw. unfold decide.
  assert (Hkeys : map fst (counts_of w) = uniq w).
  { rewrite counts_of_spec, map_map. apply map_id. }
  rewrite Hkeys.
  destruct (bool_decide (uniq w = [neutral])) eqn:Eb.
  { exfalso. apply bool_decide_eq_true in Eb.
    assert (H : In (lbl s0) (uniq w)) by (apply uniq_In; eauto).
    rewrite Eb in H. destruct H as [H|[]]. congruence. }
  cbv zeta. rewrite non_neutral_of_counts.
  set (g := fun k => (k, confs_of w k)).
  set (f := fun item : string * list Q =>
              match py_max (snd item) with Ret m => m | Raise _ => 0%Q end).
  assert (Hkey : forall x, In x (map g (nn_labels w)) -> py_max (snd x) = Ret (f x)).
  { intros x Hx. apply in_map_iff in Hx as [k [<- Hk]].
    apply nn_labels_In in Hk as [Hk _].
    destruct (py_max_Ret _ (confs_of_nonempty w k Hk)) as [m Hm].
    unfold f. simpl. rewrite Hm. reflexivity. }
  assert (Hmax : forall k, In k (nn_labels w) -> is_max (confs_of w k) (f (g k))).
  { intros k Hk. apply py_max_is_max. apply (Hkey (g k)). apply in_map. exact Hk. }
  assert (Hbound : forall s mk, In s w -> lbl s <> neutral ->
            is_max (confs_of w (lbl s)) mk -> (mk <= f (g (lbl s)))%Q).
  { intros s mk Hs Hn Hmk. apply (is_max_le _ _ _ Hmk). apply Hmax.
    apply nn_labels_In. eauto. }
  destruct (nn_labels w) as [|r [|r2 NN]] eqn:ENN; [destruct Hin0| |].
  - (* exactly one non-neutral label *)
    assert (Hr : In r (nn_labels w)) by (rewrite ENN; left; reflexivity).
    apply nn_labels_In in Hr as [Hrw Hrn].
    exists r, (f (g r)). simpl. split; [reflexivity|].
    split; [exact Hrn|]. split; [exact Hrw|].
    split; [apply Hmax; left; reflexivity|].
    assert (Hone : forall s, In s w -> lbl s <> neutral -> lbl s = r).
    { intros s Hs Hn. assert (H : In (lbl s) (nn_labels w)) by (apply nn_labels_In; eauto).
      rewrite ENN in H. destruct H as [H|[]]. symmetry. exact H. }
    split.
    + intros s mk Hs Hn Hmk. rewrite <- (Hone s Hs Hn). apply (Hbound s mk Hs Hn Hmk).
    + intros i si mk Hi Hn Hne. exfalso. apply Hne. apply Hone; [|exact Hn].
      apply list_elem_of_In. eapply list_elem_of_lookup_2. exact Hi.
  - (* several non-neutral labels: highest maximum confidence, first wins *)
    set (L := r :: r2 :: NN) in *.
    assert (HlenL : (length (map g L) =? 1)%nat = false) by reflexivity.
    rewrite HlenL.
    destruct (py_max_by_total (fun item => py_max (snd item)) f (map g L))
      as [best Hbest]; [discriminate | exact Hkey |].
    clearbody L. rewrite Hbest. simpl.
    destruct (py_max_by_spec _ f _ best Hkey Hbest) as [l1 [l2 [Hsplit [Hlt Hle]]]].
    assert (Hbin : In best (map g L)) by (rewrite Hsplit; apply in_or_app; right; left; reflexivity).
    apply in_map_iff in Hbin as [rb [Hgb HrbL]]. subst best.
    assert (HrbL' : In rb (nn_labels w)) by (rewrite ENN; exact HrbL).
    pose proof HrbL' as Hrb. apply nn_labels_In in Hrb as [Hrbw Hrbn].
    exists rb, (f (g rb)). simpl. split; [reflexivity|].
    split; [exact Hrbn|]. split; [exact Hrbw|]. split; [apply Hmax; exact HrbL|].
    split.
    + intros s mk Hs Hn Hmk. apply Qle_trans with (f (g (lbl s))); [apply (Hbound s mk Hs Hn Hmk)|].
      apply Hle. apply in_map. rewrite <- ENN. apply nn_labels_In. eauto.
    + intros i si mk Hi Hn Hne Hbefore Hmk.
      assert (Hsi : In si w) by (apply list_elem_of_In; eapply list_elem_of_lookup_2; exact Hi).
      apply Qle_lt_trans with (f (g (lbl si))); [apply (Hbound si mk Hsi Hn Hmk)|].
      destruct (nn_labels_order w i si rb Hi Hn Hne HrbL' Hbefore) as [a1 [a2 [Ha Ha1]]].
      rewrite ENN in Ha.
      assert (Hnd : NoDup (map g L)).
      { apply NoDup_ListNoDup. apply (NoDup_map_inv fst). rewrite map_map. simpl.
        rewrite map_id. apply NoDup_ListNoDup. rewrite <- ENN. apply nn_labels_NoDup. }
      assert (Hsplit' : map g L = (map g a1 ++ g rb :: map g a2)%list)
        by (rewrite Ha, map_app; reflexivity).
      assert (Hl1 : l1 = map g a1).
      { apply (nodup_split_unique l1 l2 (map g a1) (map g a2) (g rb)).
        - rewrite <- Hsplit. exact Hnd.
        - rewrite <- Hsplit, <- Hsplit'. reflexivity. }
      apply Hlt. rewrite Hl1. apply in_map. exact Ha1.
Qed.

Lemma llm_emotion_fallback_range (oracle : string -> oracle_reply) (ui : option string) :
  llm_emotion_fallback oracle ui = neutral \/ In (llm_emotion_fallback oracle ui) LLM_LABELS.
Proof.
  unfold llm_emotion_fallback.
  destruct (oracle (fallback_prompt ui)) as [e | [t|]]; auto.
  destruct (existsb (String.eqb (lower (strip t))) LLM_LABELS) eqn:E; auto.
  right. apply existsb_eqb_In. exact E.
Qed.

Lemma uniq_all_neutral (w : list sample) :
  w <> [] -> (forall s, In s w -> lbl s = neutral) -> uniq w = [neutral].
Proof.
  intros Hw Hall.
  assert (Hmem : forall k, In k (uniq w) -> k = neutral).
  { intros k Hk. apply uniq_In in Hk as [s [Hs <-]]. apply Hall. exact Hs. }
  assert (Hn : In neutral (uniq w)).
  { destruct w as [|s w]; [congruence|]. apply uniq_In. exists s.
    split; [left; reflexivity | apply Hall; left; reflexivity]. }
  pose proof (uniq_NoDup w) as Hnd.
  destruct (uniq w) as [|a [|b l]]; [destruct Hn| |].
  - rewrite (Hmem a (or_introl eq_refl)). reflexivity.
  - exfalso. rewrite (Hmem a (or_introl eq_refl)), (Hmem b (or_intror (or_introl eq_refl))) in Hnd.
    apply NoDup_cons in Hnd as [Hnd _]. apply Hnd. apply list_elem_of_In. left. reflexivity.
Qed.

Lemma max_by_go_In {A} (key : A -> pyres Q) (b : A) (kb : Q) (l : list A) (best : A) :
  max_by_go key b kb l = Ret best -> In best (b :: l).
Proof.
  revert b kb. induction l as [|y l IH]; intros b kb H; simpl in H.
  - injection H as <-. left. reflexivity.
  - destruct (key y) as [ky|e]; simpl in H; [|discriminate].
    destruct (Qgtb ky kb).
    + apply IH in H. destruct H as [H|H]; [subst; right; left; reflexivity | right; right; exact H].
    + apply IH in H. destruct H as [H|H]; [left; exact H | right; right; exact H].
Qed.

Lemma py_max_by_In {A} (key : A -> pyres Q) (items : list A) (best : A) :
  py_max_by key items = Ret best -> In best items.
Proof.
  destruct items as [|x xs]; simpl; [discriminate|].
  destruct (key x); simpl; [apply max_by_go_In | discriminate].
Qed.

Lemma decide_range (oracle : string -> oracle_reply) (ui : option string)
    (counts : counts_t) (r : string) :
  decide oracle ui counts = Ret r ->
  r = llm_emotion_fallback oracle ui \/ In r (map fst counts).
Proof.
  unfold decide. intros H. destruct (bool_decide (map fst counts = [neutral])).
  - injection H as <-. left. reflexivity.
  - cbv zeta in H. right. revert H.
    assert (Hsub : forall kv, In kv (List.filter (fun kv => negb (String.eqb (fst kv) neutral)) counts) ->
                   In (fst kv) (map fst counts)).
    { intros kv Hkv. apply List.filter_In in Hkv as [Hkv _]. apply in_map. exact Hkv. }
    destruct (length (List.filter (fun kv => negb (String.eqb (fst kv) neutral)) counts) =? 1)%nat.
    + destruct (List.filter (fun kv => negb (String.eqb (fst kv) neutral)) counts)
        as [|[k v] l] eqn:E; [discriminate|].
      intros H. injection H as <-. apply (Hsub (k, v)). left. reflexivity.
    + destruct (py_max_by (fun item => py_max (snd item))
                 (List.filter (fun kv => negb (String.eqb (fst kv) neutral)) counts)) eqn:E;
        simpl; [|discriminate].
      intros H. injection H as <-. apply Hsub. eapply py_max_by_In. exact E.
Qed.

Lemma setdefault_append_keys (k : string) (x : Q) (c : counts_t) (k' : string) :
  In k' (map fst (setdefault_append k x c)) -> k' = k \/ In k' (map fst c).
Proof.
  induction c as [|[a v] c IH]; simpl.
  - intros [H|[]]. left. symmetry. exact H.
  - destruct (String.eqb k a); simpl.
    + intros [H|H]; right; [left; exact H | right; exact H].
    + intros [H|H]; [right; left; exact H|]. apply IH in H as [H|H]; [left; exact H | right; right; exact H].
Qed.

Lemma group_keys (fos : string -> option Q) (fs : list json) (c c' : counts_t) (k : string) :
  group fos fs c = Ret c' -> In k (map fst c') ->
  In k (map fst c) \/
  exists fr s, In fr fs /\ subscript fr "emotion" = Ret (JStr s) /\ k = lower s.
Proof.
  revert c. induction fs as [|fr fs IH]; intros c H Hk; simpl in H.
  - injection H as <-. left. exact Hk.
  - destruct (subscript fr "emotion") as [e|] eqn:Ee; simpl in H; [|discriminate].
    destruct e; simpl in H; try discriminate.
    destruct (subscript fr "confidence") as [x|] eqn:Ex; simpl in H; [|discriminate].
    destruct (py_float fos x) as [q|]; simpl in H; [|discriminate].
    destruct (IH _ H Hk) as [H'|[fr' [s' [Hfr [Hs Hks]]]]].
    + apply setdefault_append_keys in H' as [H'|H']; [|left; exact H'].
      right. exists fr, s. split; [left; reflexivity | split; [exact Ee | exact H']].
    + right. exists fr', s'. split; [right; exact Hfr | split; [exact Hs | exact Hks]].
Qed.

(** C4 (amended). For a non-empty window whose samples are all labelled
    "neutral", detect_emotion returns the LLM fallback's answer, and that
    answer never propagates a failure: it is "neutral" when the oracle
    raises, returns no text, or returns a text whose stripped, lower-cased
    form is not one of the six labels; otherwise it is that normalised
    label. *)
Theorem detect_emotion_all_neutral_fallback (fos : string -> option Q) (w : list sample)
    (oracle : string -> oracle_reply) (ui : option string)
    (Hne : w <> []) (Hall : forall s, In s w -> lbl s = neutral) :
  detect_emotion fos (fetch_ok w) oracle ui = Ret (llm_emotion_fallback oracle ui) /\
  (forall e, oracle (fallback_prompt ui) = OracleRaises e ->
     llm_emotion_fallback oracle ui = neutral) /\
  (oracle (fallback_prompt ui) = OracleText None -> llm_emotion_fallback oracle ui = neutral) /\
  (forall t, oracle (fallback_prompt ui) = OracleText (Some t) ->
     ~ In (lower (strip t)) LLM_LABELS -> llm_emotion_fallback oracle ui = neutral) /\
  (forall t, oracle (fallback_prompt ui) = OracleText (Some t) ->
     In (lower (strip t)) LLM_LABELS -> llm_emotion_fallback oracle ui = lower (strip t)) /\
  (llm_emotion_fallback oracle ui = neutral \/ In (llm_emotion_fallback oracle ui) LLM_LABELS).
Proof.
  split.
  - rewrite detect_fetch_ok by exact Hne. unfold decide.
    assert (Hkeys : map fst (counts_of w) = [neutral]).
    { rewrite counts_of_spec, map_map. simpl. rewrite map_id. apply uniq_all_neutral; assumption. }
    rewrite Hkeys. reflexivity.
  - unfold llm_emotion_fallback.
    split; [intros e He; rewrite He; reflexivity|].
    split; [intros He; rewrite He; reflexivity|].
    split; [|split].
    + intros t Ht Hn. rewrite Ht.
      destruct (existsb (String.eqb (lower (strip t))) LLM_LABELS) eqn:E; [|reflexivity].
      apply existsb_eqb_In in E. contradiction.
    + intros t Ht Hin. rewrite Ht. apply existsb_eqb_In in Hin. rewrite Hin. reflexivity.
    + apply llm_emotion_fallback_range.
Qed.

(** C4 as stated fails: an oracle answer outside the label set, "Happy",
    is normalised to "happy" and returned, not mapped to "neutral". *)
Lemma detect_emotion_oracle_case_cex :
  ~ In "Happy" LLM_LABELS /\
  detect_emotion (fun _ => None)
    (fetch_ok [{| s_timestamp := 0; s_emotion := "neutral"; s_confidence := 99 # 100 |}])
    (fun _ => OracleText (Some "Happy")) None = Ret "happy".
Proof.
  split; [|reflexivity].
  simpl. intros H. repeat (destruct H as [H|H]; [discriminate|]). exact H.
Qed.

(** C10 (amended). detect_emotion never raises.  A connection error, a
    non-200 status, an undecodable body, a malformed payload (one that makes
    the parsing of lines 92-103 raise) and an empty or missing window all
    give "neutral".  Otherwise the result is "neutral", one of the six
    labels the LLM fallback accepts, or the lower-cased "emotion" string of
    a frame of the window. *)
Theorem detect_emotion_total (fos : string -> option Q) (fetch : http_reply)
    (oracle : string -> oracle_reply) (ui : option string) :
  (exists r, detect_emotion fos fetch oracle ui = Ret r /\
     (r = neutral \/ In r LLM_LABELS \/
      exists payload frames fs fr s,
        fetch = HttpResponse 200 (Some payload) /\
        dict_get payload "data" (JArr []) = Ret frames /\ py_iter frames = Ret fs /\
        In fr fs /\ subscript fr "emotion" = Ret (JStr s) /\ r = lower s)) /\
  (forall e, fetch = HttpRaises e -> detect_emotion fos fetch oracle ui = Ret neutral) /\
  (forall st b, st <> 200%Z -> fetch = HttpResponse st b ->
     detect_emotion fos fetch oracle ui = Ret neutral) /\
  (fetch = HttpResponse 200 None -> detect_emotion fos fetch oracle ui = Ret neutral) /\
  (forall payload e, fetch = HttpResponse 200 (Some payload) ->
     parse_frames fos payload = Raise e -> detect_emotion fos fetch oracle ui = Ret neutral) /\
  (forall payload, fetch = HttpResponse 200 (Some payload) ->
     parse_frames fos payload = Ret None -> detect_emotion fos fetch oracle ui = Ret neutral).
Proof.
  split; [|split; [|split; [|split; [|split]]]].
  - unfold detect_emotion, detect_try.
    destruct fetch as [e | st body]; [eauto|].
    destruct (negb (st =? 200)%Z) eqn:Est; [eauto|].
    apply negb_false_iff, Z.eqb_eq in Est. subst st.
    destruct body as [payload|]; simpl; [|eauto].
    destruct (parse_frames fos payload) as [[counts|]|e] eqn:Ep; simpl; [|eauto|eauto].
    destruct (decide oracle ui counts) as [r|e] eqn:Ed; [|eauto].
    exists r. split; [reflexivity|].
    apply decide_range in Ed as [Ed|Ed].
    + subst r. destruct (llm_emotion_fallback_range oracle ui); auto.
    + right. right. unfold parse_frames in Ep.
      destruct (dict_get payload "data" (JArr [])) as [frames|] eqn:Eg; simpl in Ep; [|discriminate].
      destruct (negb (truthy frames)); [discriminate|].
      destruct (py_iter frames) as [fs|] eqn:Ei; simpl in Ep; [|discriminate].
      destruct (group fos fs []) as [c|] eqn:Egr; simpl in Ep; [|discriminate].
      injection Ep as ->.
      destruct (group_keys fos fs [] counts r Egr Ed) as [[]|[fr [s [Hfr [Hs Hr]]]]].
      exists payload, frames, fs, fr, s. auto 7.
  - intros e ->. reflexivity.
  - intros st b Hst ->. unfold detect_emotion, detect_try.
    apply Z.eqb_neq in Hst. rewrite Hst. reflexivity.
  - intros ->. reflexivity.
  - intros payload e -> Hp. unfold detect_emotion, detect_try. simpl. rewrite Hp. reflexivity.
  - intros payload -> Hp. unfold detect_emotion, detect_try. simpl. rewrite Hp. reflexivity.
Qed.

(** C10 as stated fails: a well-formed window with a label outside the
    fixed set is passed through (lower-cased) rather than mapped into it. *)
Lemma detect_emotion_unknown_label_cex :
  detect_emotion (fun _ => None)
    (fetch_ok [{| s_timestamp := 0; s_emotion := "Joy"; s_confidence := 9 # 10 |}])
    (fun _ => OracleRaises RequestException) None = Ret "joy" /\
  ~ In "joy" CLASSES.
Proof.
  split; [reflexivity|].
  simpl. intros H. repeat (destruct H as [H|H]; [discriminate|]). exact H.
Qed.

Lemma detect_emotion_non_baseline_witness :
  (exists s, In s demo_window /\ lbl s <> neutral) /\
  exists r m,
    detect_emotion (fun _ => None) (fetch_ok demo_window) (fun _ => OracleText None) None = Ret r /\
    r = "sad" /\ is_max (confs_of demo_window r) m.
Proof.
  assert (Hsig : exists s, In s demo_window /\ lbl s <> neutral).
  { exists {| s_timestamp := 1; s_emotion := "happy"; s_confidence := 6 # 10 |}.
    split; [left; reflexivity | vm_compute; discriminate]. }
  split; [exact Hsig|].
  destruct (detect_emotion_non_baseline (fun _ => None) demo_window (fun _ => OracleText None)
              None Hsig) as (r & m & H1 & _ & _ & H4 & _).
  exists r, m. split; [exact H1|]. split; [|exact H4].
  vm_compute in H1. congruence.
Defined.

Lemma detect_emotion_all_neutral_fallback_witness :
  calm_window <> [] /\ (forall s, In s calm_window -> lbl s = neutral) /\
  detect_emotion (fun _ => None) (fetch_ok calm_window) (fun _ => OracleText (Some " Sad "))
    None = Ret (llm_emotion_fallback (fun _ => OracleText (Some " Sad ")) None) /\
  llm_emotion_fallback (fun _ => OracleText (Some " Sad ")) None = "sad".
Proof.
  assert (Hne : calm_window <> []) by discriminate.
  assert (Hall : forall s, In s calm_window -> lbl s = neutral).
  { intros s [<-|[<-|[]]]; reflexivity. }
  split; [exact Hne|]. split; [exact Hall|]. split; [|reflexivity].
  exact (proj1 (detect_emotion_all_neutral_fallback (fun _ => None) calm_window
                  (fun _ => OracleText (Some " Sad ")) None Hne Hall)).
Defined.

End BotFacts.

Module WebcamFacts.
Import Bot Webcam.

Lemma deque_append_full {A} (d : list A) (x : A) :
  length d = WINDOW_MAXLEN -> deque_append WINDOW_MAXLEN d x = (tl d ++ [x])%list.
Proof.
  intros H. unfold deque_append. rewrite length_app, H. simpl.
  destruct d as [|y d]; [discriminate | reflexivity].
Qed.

Lemma deque_append_skipn {A} (n : nat) (d : list A) (x : A) :
  (length d <= n)%nat ->
  deque_append n d x = skipn (length (d ++ [x]) - n) (d ++ [x]).
Proof.
  intros H. unfold deque_append. rewrite length_app. simpl.
  destruct (n <? length d + 1)%nat eqn:E.
  - apply Nat.ltb_lt in E. replace (length d + 1 - n)%nat with 1%nat by lia.
    destruct (d ++ [x])%list; reflexivity.
  - apply Nat.ltb_ge in E. replace (length d + 1 - n)%nat with 0%nat by lia. reflexivity.
Qed.

Lemma deque_append_length {A} (n : nat) (d : list A) (x : A) :
  (length d <= n)%nat -> (length (deque_append n d x) <= n)%nat.
Proof.
  intros H. rewrite deque_append_skipn by exact H. rewrite length_skipn. lia.
Qed.

Lemma deque_fold {A} (n : nat) (xs d : list A) :
  (length d <= n)%nat ->
  fold_left (deque_append n) xs d = skipn (length (d ++ xs) - n) (d ++ xs).
Proof.
  revert d. induction xs as [|x xs IH]; intros d H; simpl.
  - rewrite app_nil_r. replace (length d - n)%nat with 0%nat by lia. reflexivity.
  - rewrite IH by (apply deque_append_length; exact H).
    rewrite deque_append_skipn by exact H.
    set (k := (length (d ++ [x]) - n)%nat).
    assert (Hk : (k <= length (d ++ [x]))%nat) by (unfold k; lia).
    assert (Happ : (skipn k (d ++ [x]) ++ xs)%list = skipn k ((d ++ [x]) ++ xs)).
    { rewrite (skipn_app k (d ++ [x]) xs). replace (k - length (d ++ [x]))%nat with 0%nat by lia. reflexivity. }
    rewrite Happ, skipn_skipn, <- app_assoc. simpl. f_equal.
    rewrite length_skipn, !length_app in *. simpl in *. unfold k in *. rewrite length_app. simpl. lia.
Qed.

(** C6. The window holds at most five samples: appending to a full window
    evicts exactly its oldest sample, appending to a shorter one keeps all,
    any sequence of appends to the empty window leaves its last five samples
    in insertion order (seven appends leave the last five), and every run
    of the sampling loop keeps the length at most five. *)
Theorem emotion_window_fifo :
  (forall (d : list sample) x, length d = WINDOW_MAXLEN ->
     deque_append WINDOW_MAXLEN d x = (tl d ++ [x])%list) /\
  (forall (d : list sample) x, (length d < WINDOW_MAXLEN)%nat ->
     deque_append WINDOW_MAXLEN d x = (d ++ [x])%list) /\
  (forall xs : list sample,
     fold_left (deque_append WINDOW_MAXLEN) xs [] = skipn (length xs - WINDOW_MAXLEN) xs /\
     (length (fold_left (deque_append WINDOW_MAXLEN) xs []) <= WINDOW_MAXLEN)%nat) /\
  (forall (x1 x2 x3 x4 x5 x6 x7 : sample),
     fold_left (deque_append WINDOW_MAXLEN) [x1; x2; x3; x4; x5; x6; x7] [] = [x3; x4; x5; x6; x7]) /\
  (forall st ticks, (length (emotion_window st) <= WINDOW_MAXLEN)%nat ->
     (length (emotion_window (run_loop st ticks)) <= WINDOW_MAXLEN)%nat).
Proof.
  split; [exact deque_append_full|].
  split.
  { intros d x H. unfold deque_append. rewrite length_app. simpl.
    destruct (WINDOW_MAXLEN <? length d + 1)%nat eqn:E; [apply Nat.ltb_lt in E; lia | reflexivity]. }
  split.
  { intros xs. rewrite deque_fold by (simpl; lia). simpl. split; [reflexivity|].
    rewrite length_skipn. lia. }
  split.
  { intros. reflexivity. }
  intros st ticks. unfold run_loop. revert st.
  induction ticks as [|t ticks IH]; intros st H; simpl; [exact H|].
  apply IH. destruct t as [|e c now]; simpl; [exact H|].
  destruct (Qle_bool 1 (now - last_sample_time st)); simpl; [|exact H].
  apply deque_append_length. exact H.
Qed.

End WebcamFacts.

(* ================================================================== *)
(** ** Proofs about the process supervisor *)

Module ControllerFacts.
Import Controller.

Ltac unfold_m :=
  unfold start, stop, status_payload, start_process, stop_process, is_running,
    running_pid, try_except, procs_get, procs_sub, procs_set,
    attr_pid, path_exists, popen, poll, send_signal, terminate, kill, sleep,
    requests_get, time_time, mbind_M, mret in *.

Section Facts.

Context {World : Type} `{!OS World}.

(** C2. start_process is idempotent: when the handle recorded for [name]
    is alive, start_process returns success with that handle's pid and
    leaves the state as it was (nothing spawned, nothing logged, the
    handle kept). Every successful start_process leaves a handle recorded
    for [name] whose pid is the one it reports, so a second call while
    that process runs reports the same pid. *)
Theorem start_process_idempotent (name script : string) (s : St World) (p : Popen)
    (Hrec : procs s !! name = Some (Some p)) (Halive : os_poll (world s) p = None) :
  start_process name script s =
    (s, Ret (mk_result true (name ++ " already running") (Some (pid p)))) /\
  (forall s0 s1 r, start_process name script s0 = (s1, Ret r) -> ok r = true ->
     exists q, procs s1 !! name = Some (Some q) /\ rpid r = Some (pid q)).
Proof.
  split.
  - unfold_m. rewrite Hrec. simpl. rewrite Halive. simpl. rewrite Hrec. reflexivity.
  - intros s0 s1 r H Hok. unfold_m.
    destruct (procs s0 !! name) as [[q|]|] eqn:E; simpl in H.
    + destruct (os_poll (world s0) q) eqn:Ep; simpl in H.
      * destruct (os_path_exists (world s0) script); simpl in H; [|simplify_eq; discriminate].
        destruct (os_popen _ _ _) as [w' [q'|e]]; simpl in H; simplify_eq.
        exists q'. simpl. split; [apply lookup_insert_eq | reflexivity].
      * rewrite E in H. simpl in H. simplify_eq. exists q. auto.
    + destruct (os_path_exists (world s0) script); simpl in H; [|simplify_eq; discriminate].
      destruct (os_popen _ _ _) as [w' [q'|e]]; simpl in H; simplify_eq.
      exists q'. simpl. split; [apply lookup_insert_eq | reflexivity].
    + destruct (os_path_exists (world s0) script); simpl in H; [|simplify_eq; discriminate].
      destruct (os_popen _ _ _) as [w' [q'|e]]; simpl in H; simplify_eq.
      exists q'. simpl. split; [apply lookup_insert_eq | reflexivity].
Qed.

(** C3. stop_process never raises, and it fails only when a termination call
    fails. It reports ok = false exactly when a termination call it made
    (send_signal, terminate or kill) raised, and then [PROCS] is left as it
    was. Otherwise it reports ok = true and no handle is recorded for [name]
    afterwards. That covers four cases: nothing was recorded, the process had
    already exited, the graceful call stopped it, or the kill did. The other
    entries of [PROCS] are unchanged. *)
Theorem stop_process_best_effort (name : string) (s : St World) :
  exists s' r tr,
    stop_process name s = (s', Ret r) /\ trace s' = (trace s ++ tr)%list /\
    (ok r = false <-> Exists stop_call_raised tr) /\
    (ok r = true -> mjoin (procs s' !! name) = None /\
                    forall k, k <> name -> procs s' !! k = procs s !! k) /\
    (ok r = false -> procs s' = procs s).
Proof.
  unfold_m.
  destruct (procs s !! name) as [[p|]|] eqn:E; simpl.
  - destruct (os_poll (world s) p) eqn:Ep; simpl.
    + eexists _, _, []. rewrite app_nil_r. simpl.
      split; [reflexivity|]. split; [reflexivity|].
      split; [split; [discriminate | inversion 1]|].
      split; [|discriminate]. intros _. split.
      * cbn [procs]. rewrite lookup_insert_eq. reflexivity.
      * intros k Hk. cbn [procs]. apply lookup_insert_ne. congruence.
    + destruct os_nt; simpl.
      * destruct (os_send_signal (world s) p CTRL_BREAK_EVENT) as [w1 [[]|e1]] eqn:E1; simpl.
        -- destruct (os_poll (os_sleep w1 800) p) eqn:Ep2; simpl.
           ++ eexists _, _, [_; _]. rewrite <- app_assoc. simpl.
              split; [reflexivity|]. split; [reflexivity|].
              split; [split; [discriminate | intros H; inversion H as [? ? Hx|? ? Hx]; subst;
                      [exact (False_rect _ Hx) | inversion Hx as [? ? Hy|? ? Hy]; subst;
                       [exact (False_rect _ Hy) | inversion Hy]]]|].
              split; [|discriminate]. intros _. split.
              ** cbn [procs]. rewrite lookup_insert_eq. reflexivity.
              ** intros k Hk. cbn [procs]. apply lookup_insert_ne. congruence.
           ++ destruct (os_kill (os_sleep w1 800) p) as [w2 [[]|e2]] eqn:E2; simpl.
              ** eexists _, _, [_; _; _]. rewrite <- !app_assoc. simpl.
                 split; [reflexivity|]. split; [reflexivity|].
                 split; [split; [discriminate | intros H; repeat (inversion H as [? ? Hx|? ? H']; subst; [exact (False_rect _ Hx)|]; clear H; rename H' into H); inversion H]|].
                 split; [|discriminate]. intros _. split.
                 --- cbn [procs]. rewrite lookup_insert_eq. reflexivity.
                 --- intros k Hk. cbn [procs]. apply lookup_insert_ne. congruence.
              ** eexists _, _, [_; _; _]. rewrite <- !app_assoc. simpl.
                 split; [reflexivity|]. split; [reflexivity|].
                 split; [split; [intros _; right; right; left; exact I | reflexivity]|].
                 split; [discriminate|]. reflexivity.
        -- eexists _, _, [_]. simpl.
           split; [reflexivity|]. split; [reflexivity|].
           split; [split; [intros _; left; exact I | reflexivity]|].
           split; [discriminate|]. reflexivity.
      * destruct (os_terminate (world s) p) as [w1 [[]|e1]] eqn:E1; simpl.
        -- destruct (os_poll (os_sleep w1 800) p) eqn:Ep2; simpl.
           ++ eexists _, _, [_; _]. rewrite <- app_assoc. simpl.
              split; [reflexivity|]. split; [reflexivity|].
              split; [split; [discriminate | intros H; inversion H as [? ? Hx|? ? Hx]; subst;
                      [exact (False_rect _ Hx) | inversion Hx as [? ? Hy|? ? Hy]; subst;
                       [exact (False_rect _ Hy) | inversion Hy]]]|].
              split; [|discriminate]. intros _. split.
              ** cbn [procs]. rewrite lookup_insert_eq. reflexivity.
              ** intros k Hk. cbn [procs]. apply lookup_insert_ne. congruence.
           ++ destruct (os_kill (os_sleep w1 800) p) as [w2 [[]|e2]] eqn:E2; simpl.
              ** eexists _, _, [_; _; _]. rewrite <- !app_assoc. simpl.
                 split; [reflexivity|]. split; [reflexivity|].
                 split; [split; [discriminate | intros H; repeat (inversion H as [? ? Hx|? ? H']; subst; [exact (False_rect _ Hx)|]; clear H; rename H' into H); inversion H]|].
                 split; [|discriminate]. intros _. split.
                 --- cbn [procs]. rewrite lookup_insert_eq. reflexivity.
                 --- intros k Hk. cbn [procs]. apply lookup_insert_ne. congruence.
              ** eexists _, _, [_; _; _]. rewrite <- !app_assoc. simpl.
                 split; [reflexivity|]. split; [reflexivity|].
                 split; [split; [intros _; right; right; left; exact I | reflexivity]|].
                 split; [discriminate|]. reflexivity.
        -- eexists _, _, [_]. simpl.
           split; [reflexivity|]. split; [reflexivity|].
           split; [split; [intros _; left; exact I | reflexivity]|].
           split; [discriminate|]. reflexivity.
  - eexists _, _, []. rewrite app_nil_r. simpl.
    split; [reflexivity|]. split; [reflexivity|].
    split; [split; [discriminate | inversion 1]|].
    split; [|discriminate]. intros _. split; [rewrite E; reflexivity | auto].
  - eexists _, _, []. rewrite app_nil_r. simpl.
    split; [reflexivity|]. split; [reflexivity|].
    split; [split; [discriminate | inversion 1]|].
    split; [|discriminate]. intros _. split; [rewrite E; reflexivity | auto].
Qed.

Ltac no_log := exists []; rewrite app_nil_r; split; [reflexivity | constructor].

Lemma start_process_logs name script :
  logs_only (World:=World) (is_launch_of script) (start_process name script).
Proof.
  intros s s' r H. unfold_m.
  repeat (case_match; simplify_eq/=); try no_log.
  all: eexists; split; [reflexivity | repeat constructor].
Qed.

Lemma wait_loop_logs fuel start timeout :
  logs_only (World:=World) is_probe_call (wait_loop fuel start timeout).
Proof.
  induction fuel as [|n IH]; intros s s' r H; simpl in H; unfold_m.
  - simplify_eq. no_log.
  - destruct (os_clock (world s) - start <? timeout)%Z; [|simplify_eq; no_log].
    destruct (os_http_get (world s) EMOTION_URL 400) as [w1 [code|e]]; simpl in H.
    + destruct (code =? 200)%Z; simpl in H.
      * simplify_eq. eexists; split; [reflexivity | repeat constructor].
      * destruct (IH _ _ _ H) as [tr [Htr Hf]]. simpl in Htr.
        eexists. split; [rewrite Htr, <- !app_assoc; reflexivity|].
        repeat constructor; assumption.
    + destruct (IH _ _ _ H) as [tr [Htr Hf]]. simpl in Htr.
      eexists. split; [rewrite Htr, <- !app_assoc; reflexivity|].
      repeat constructor; assumption.
Qed.

Lemma wait_for_emotion_api_logs timeout :
  logs_only (World:=World) is_probe_call (wait_for_emotion_api timeout).
Proof.
  intros s s' r H. unfold wait_for_emotion_api, mbind_M, time_time in H.
  exact (wait_loop_logs _ _ _ _ _ _ H).
Qed.

Lemma stop_process_ret name (s : St World) :
  exists s' r tr, stop_process name s = (s', Ret r) /\ trace s' = (trace s ++ tr)%list.
Proof.
  unfold_m. repeat (case_match; simplify_eq/=).
  all: do 2 eexists; first [ exists []; rewrite app_nil_r; split; reflexivity
                           | eexists; split; [reflexivity | rewrite <- ?app_assoc; reflexivity] ].
Qed.

Lemma lookup_app_excluded (P Q : event -> Prop) (l1 l2 : list event) i ev :
  Forall P l1 -> (forall e, P e -> ~ Q e) ->
  (l1 ++ l2)%list !! i = Some ev -> Q ev -> (length l1 <= i)%nat.
Proof.
  intros HF HPQ Hl HQ. destruct (decide (length l1 <= i)%nat) as [|Hlt]; [assumption|exfalso].
  rewrite lookup_app_l in Hl by lia. eapply HPQ; [|exact HQ]. eapply Forall_lookup_1; eauto.
Qed.

Lemma emotion_launch_not_bot ev :
  is_launch_of (World:=World) "emotion_webcam.py" ev -> ~ is_launch_of (World:=World) "main_integrated.py" ev.
Proof. destruct ev; simpl; try tauto. intros -> H. inversion H. Qed.

Lemma probe_call_not_launch script ev :
  is_probe_call ev -> ~ is_launch_of (World:=World) script ev.
Proof. destruct ev; simpl; tauto. Qed.

Lemma Forall_not_Exists (P Q : event -> Prop) l :
  Forall P l -> (forall e, P e -> ~ Q e) -> ~ Exists Q l.
Proof.
  intros HF HPQ HE. apply Exists_exists in HE as [x [Hx HQ]].
  rewrite Forall_forall in HF. exact (HPQ x (HF x Hx) HQ).
Qed.

(** C5. Ordering of the /start and /stop routes. In every run of start,
    a launch of main_integrated.py (the bot) comes after a completed start
    of the emotion service and a completed readiness probe that returned
    true, and after every call that probe made. When the probe returns
    false, start reports the bot as not started with the message
    BOT_NOT_STARTED and launches nothing more. stop runs stop_process
    "bot" to completion, then stop_process "emotion" from the state it
    left, and reports both results. *)
Theorem start_stop_ordering (s : St World) :
  (forall s' r, start s = (s', r) ->
     exists tr, trace s' = (trace s ++ tr)%list /\
       (forall i ev, tr !! i = Some ev -> is_launch_of "main_integrated.py" ev ->
          exists s1 re s2,
            start_process "emotion" "emotion_webcam.py" s = (s1, Ret re) /\
            wait_for_emotion_api 30000 s1 = (s2, Ret true) /\
            (length (trace s2) <= length (trace s) + i)%nat) /\
       (forall s1 re s2,
          start_process "emotion" "emotion_webcam.py" s = (s1, Ret re) ->
          wait_for_emotion_api 30000 s1 = (s2, Ret false) ->
          s' = s2 /\
          r = Ret (mk_start_resp re false (mk_result false BOT_NOT_STARTED None)) /\
          ~ Exists (is_launch_of "main_integrated.py") tr)) /\
  (exists s1 rb s2 re tr1 tr2,
     stop_process "bot" s = (s1, Ret rb) /\ stop_process "emotion" s1 = (s2, Ret re) /\
     stop s = (s2, Ret (mk_stop_resp rb re)) /\
     trace s1 = (trace s ++ tr1)%list /\ trace s2 = (trace s1 ++ tr2)%list).
Proof.
  split.
  - intros s' r H. unfold start, mbind_M, mret in H.
    destruct (start_process "emotion" "emotion_webcam.py" s) as [s1 r1] eqn:E1.
    destruct (start_process_logs _ _ _ _ _ E1) as [tr1 [T1 F1]].
    destruct r1 as [re|e].
    2:{ simplify_eq. exists tr1. split; [exact T1|]. split.
        - intros i ev Hi Hl. exfalso. apply (Forall_lookup_1 _ _ _ _ F1) in Hi.
          exact (emotion_launch_not_bot _ Hi Hl).
        - intros ? ? ? Hx. discriminate. }
    destruct (wait_for_emotion_api 30000 s1) as [s2 r2] eqn:E2.
    destruct (wait_for_emotion_api_logs _ _ _ _ E2) as [tr2 [T2 F2]].
    assert (Hno : ~ Exists (is_launch_of "main_integrated.py") (tr1 ++ tr2)%list).
    { apply (Forall_not_Exists (fun e => is_launch_of "emotion_webcam.py" e \/ is_probe_call e)).
      - apply Forall_app. split; eapply Forall_impl; eauto.
      - intros e [He|He]; [apply emotion_launch_not_bot | apply probe_call_not_launch]; exact He. }
    destruct r2 as [okv|e].
    2:{ simplify_eq. exists (tr1 ++ tr2)%list. split; [rewrite T2, T1, app_assoc; reflexivity|]. split.
        - intros i ev Hi Hl. exfalso. apply Hno. apply Exists_exists. exists ev.
          split; [eapply list_elem_of_lookup_2 in Hi; exact Hi | exact Hl].
        - intros ? ? ? Hx Hy. injection Hx as <- <-. rewrite E2 in Hy. discriminate. }
    destruct okv.
    + destruct (start_process "bot" "main_integrated.py" s2) as [s3 r3] eqn:E3.
      destruct (start_process_logs _ _ _ _ _ E3) as [tr3 [T3 F3]].
      assert (s' = s3) as -> by (destruct r3; congruence).
      exists (tr1 ++ tr2 ++ tr3)%list.
      split; [rewrite T3, T2, T1, <- !app_assoc; reflexivity|]. split.
      * intros i ev Hi Hl. exists s1, re, s2. split; [first [reflexivity|assumption]|]. split; [first [reflexivity|assumption]|].
        rewrite app_assoc in Hi.
        assert (Hle : (length (tr1 ++ tr2) <= i)%nat).
        { apply (lookup_app_excluded (fun e => is_launch_of "emotion_webcam.py" e \/ is_probe_call e)
                   (is_launch_of "main_integrated.py") _ tr3 i ev); [| |exact Hi|exact Hl].

          - apply Forall_app. split; eapply Forall_impl; eauto.
          - intros e [He|He]; [apply emotion_launch_not_bot | apply probe_call_not_launch]; exact He. }
        rewrite T2, T1, !length_app. rewrite length_app in Hle. lia.
      * intros ? ? ? Hx Hy. injection Hx as <- <-. rewrite E2 in Hy. discriminate.
    + simplify_eq. exists (tr1 ++ tr2)%list. split; [rewrite T2, T1, app_assoc; reflexivity|]. split.
      * intros i ev Hi Hl. exfalso. apply Hno. apply Exists_exists. exists ev.
        split; [eapply list_elem_of_lookup_2 in Hi; exact Hi | exact Hl].
      * intros ? ? ? Hx Hy. injection Hx as <- <-. rewrite E2 in Hy.
        injection Hy as <-. auto.
  - destruct (stop_process_ret "bot" s) as (s1 & rb & tr1 & E1 & T1).
    destruct (stop_process_ret "emotion" s1) as (s2 & re & tr2 & E2 & T2).
    exists s1, rb, s2, re, tr1, tr2. do 2 (split; [assumption|]).
    split; [|split; assumption].
    unfold stop, mbind_M, mret. rewrite E1, E2. reflexivity.
Qed.
Lemma wait_loop_S fuel start timeout :
  wait_loop (World:=World) (S fuel) start timeout =
    (t <- time_time ;;
     if (t - start <? timeout)%Z then
       ready <- try_except
                  (code <- requests_get EMOTION_URL 400 ;; mret (code =? 200)%Z)
                  (fun _ => mret false) ;;
       if ready then mret true
       else _ <- sleep 200 ;; wait_loop fuel start timeout
     else mret false).
Proof. reflexivity. Qed.

Lemma wait_loop_probe
    (Hsleep : forall w ms, (0 <= ms)%Z -> (os_clock w + ms <= os_clock (os_sleep w ms))%Z)
    (Hget : forall w url t, (os_clock w <= os_clock (fst (os_http_get w url t)))%Z)
    (start timeout : Z) (n : nat) :
  forall s : St World, (timeout - (os_clock (world s) - start) <= 200 * Z.of_nat n)%Z ->
  exists s' b tr, wait_loop (S n) start timeout s = (s', Ret b) /\
    trace s' = (trace s ++ tr)%list /\ procs s' = procs s /\
    probe_log start timeout tr b /\
    (b = false -> (timeout <= os_clock (world s') - start)%Z).
Proof.
  induction n as [|n IH]; intros s Hb; rewrite wait_loop_S; unfold_m; cbn -[wait_loop].
  - destruct (Z.ltb_spec (os_clock (world s) - start) timeout); [lia|].
    exists s, false, []. rewrite app_nil_r. repeat split; auto. constructor.
  - destruct (Z.ltb_spec (os_clock (world s) - start) timeout) as [Hlt|Hge].
    2:{ exists s, false, []. rewrite app_nil_r. repeat split; auto. constructor. }
    pose proof (Hget (world s) EMOTION_URL 400%Z) as Hg.
    destruct (os_http_get (world s) EMOTION_URL 400) as [w1 r1] eqn:Eg. simpl in Hg.
    assert (Hretry : forall o, o <> Ret 200%Z ->
      exists s' b tr,
        wait_loop (S n) start timeout
          (mk_St (os_sleep w1 200) (procs s)
             ((trace s ++ [EvGet (os_clock (world s)) EMOTION_URL 400 o]) ++ [EvSleep 200])%list)
          = (s', Ret b) /\
        trace s' = (trace s ++ tr)%list /\ procs s' = procs s /\
        probe_log start timeout tr b /\
        (b = false -> (timeout <= os_clock (world s') - start)%Z)).
    { intros o Ho.
      pose proof (Hsleep w1 200%Z ltac:(lia)) as Hs.
      destruct (IH (mk_St (os_sleep w1 200) (procs s)
             ((trace s ++ [EvGet (os_clock (world s)) EMOTION_URL 400 o]) ++ [EvSleep 200])%list))
        as (s' & b & tr & E & T & P & L & F).
      { simpl. rewrite Nat2Z.inj_succ in Hb. lia. }
      exists s', b, (EvGet (os_clock (world s)) EMOTION_URL 400 o :: EvSleep 200 :: tr).
      split; [exact E|]. split; [rewrite T; simpl; rewrite <- !app_assoc; reflexivity|].
      split; [exact P|]. split; [constructor; assumption | exact F]. }
    destruct r1 as [code|e].
    + destruct (Z.eqb_spec code 200) as [->|Hne].
      * eexists _, true, [_]. split; [reflexivity|]. split; [reflexivity|].
        split; [reflexivity|]. split; [constructor; lia | discriminate].
      * apply Hretry. congruence.
    + apply Hretry. discriminate.
Qed.

(** C7 (amended). Assume every sleep lasts at least its duration and a
    request never moves the clock back. Then wait_for_emotion_api never
    raises and returns a boolean. It only issues requests, sleeps and
    waits, and leaves [PROCS] unchanged. Its calls follow [probe_log]:
    every request is issued while the elapsed time is under the timeout;
    a 200 answer returns true at once, even if it arrives after the
    timeout; any other status or an exception leads to a 200 ms sleep and
    a retry. When it returns false, the elapsed time has reached the
    timeout. *)
Theorem wait_for_emotion_api_probe
    (Hsleep : forall w ms, (0 <= ms)%Z -> (os_clock w + ms <= os_clock (os_sleep w ms))%Z)
    (Hget : forall w url t, (os_clock w <= os_clock (fst (os_http_get w url t)))%Z)
    (timeout : Z) (s : St World) :
  exists s' b tr, wait_for_emotion_api timeout s = (s', Ret b) /\
    trace s' = (trace s ++ tr)%list /\ procs s' = procs s /\
    probe_log (os_clock (world s)) timeout tr b /\
    (b = false -> (timeout <= os_clock (world s') - os_clock (world s))%Z).
Proof.
  unfold wait_for_emotion_api, wait_fuel, mbind_M, time_time.
  apply wait_loop_probe; [exact Hsleep | exact Hget |].
  rewrite Z.sub_diag, Z.sub_0_r, Nat2Z.inj_succ.
  pose proof (Z.mod_pos_bound timeout 200 ltac:(lia)).
  pose proof (Z.div_mod timeout 200 ltac:(lia)). lia.
Qed.

Lemma wait_loop_procs fuel start timeout (s s' : St World) r :
  wait_loop fuel start timeout s = (s', r) -> procs s' = procs s.
Proof.
  revert s. induction fuel as [|n IH]; intros s H; [simpl in H; congruence|].
  rewrite wait_loop_S in H. unfold_m. cbn -[wait_loop] in H.
  destruct (os_clock (world s) - start <? timeout)%Z; [|injection H as <- _; reflexivity].
  destruct (os_http_get (world s) EMOTION_URL 400) as [w1 [code|e]]; cbn -[wait_loop] in H.
  - destruct (code =? 200)%Z; cbn -[wait_loop] in H; [injection H as <- _; reflexivity|].
    apply IH in H. exact H.
  - apply IH in H. exact H.
Qed.

Lemma wait_for_emotion_api_procs timeout (s s' : St World) r :
  wait_for_emotion_api timeout s = (s', r) -> procs s' = procs s.
Proof. unfold wait_for_emotion_api, mbind_M, time_time. apply wait_loop_procs. Qed.

(** C8 (code bug). When nothing live is recorded for [name] and the script
    exists but [subprocess.Popen] raises, start_process lets the exception
    escape instead of returning a result with ok = false. [PROCS] is left
    unchanged. *)
Theorem start_process_spawn_error_raises (name script : string) (s : St World)
    (w' : World) (e : py_exn)
    (Hidle : live_pid s name = None)
    (Hex : os_path_exists (world s) script = true)
    (Hspawn : os_popen (world s) [os_pyexe; script]
                (if os_nt then CREATE_NEW_PROCESS_GROUP else 0%Z) = (w', Raise e)) :
  start_process name script s =
    (mk_St w' (procs s)
       (trace s ++ [EvPopen [os_pyexe; script]
                      (if os_nt then CREATE_NEW_PROCESS_GROUP else 0%Z) (Raise e)])%list,
     Raise e).
Proof.
  unfold live_pid in Hidle. unfold_m.
  destruct (procs s !! name) as [[p|]|]; simpl in *.
  - destruct (os_poll (world s) p); [|discriminate]. simpl.
    rewrite Hex. simpl. rewrite Hspawn. reflexivity.
  - rewrite Hex. simpl. rewrite Hspawn. reflexivity.
  - rewrite Hex. simpl. rewrite Hspawn. reflexivity.
Qed.

(** C9 (amended). status_payload re-checks liveness on every call. When
    no process changes state during the query, it reports a service as
    running, with its pid, exactly when its recorded process is alive, and
    otherwise as not running with no pid. (The world of this model changes
    only through the supervisor's own calls, so the polls of lines 87-90
    all see the processes as they were when the query started; a process
    exiting between two of those polls is outside this statement.) It
    never writes [PROCS]: a handle whose process has exited stays
    recorded. Its only other calls are those of the readiness probe. *)
Theorem status_payload_read_only (s : St World) :
  let '(s', r) := status_payload s in
  procs s' = procs s /\
  (exists tr, trace s' = (trace s ++ tr)%list /\ Forall is_probe_call tr) /\
  (forall st, r = Ret st ->
     emotion_pid st = live_pid s "emotion" /\ bot_pid st = live_pid s "bot" /\
     emotion_running st = match live_pid s "emotion" with Some _ => true | None => false end /\
     bot_running st = match live_pid s "bot" with Some _ => true | None => false end).
Proof.
  unfold status_payload, live_pid.
  unfold running_pid, is_running, procs_get, procs_sub, attr_pid, poll, mbind_M, mret.
  cbv beta.
  destruct (procs s !! "emotion") as [[pe|]|] eqn:Ee;
  destruct (procs s !! "bot") as [[pb|]|] eqn:Eb;
  try destruct (os_poll (world s) pe) eqn:Pe; try destruct (os_poll (world s) pb) eqn:Pb;
  repeat (simpl; first [rewrite Ee | rewrite Eb | rewrite Pe | rewrite Pb]); simpl;
  destruct (wait_for_emotion_api 100 s) as [s' [b|e]] eqn:Ew; simpl;
  pose proof (wait_for_emotion_api_logs _ _ _ _ Ew) as HL;
  pose proof (wait_for_emotion_api_procs _ _ _ _ Ew) as HP;
  (split; [exact HP|]); (split; [exact HL|]); intros st Hst; simplify_eq; auto.
Qed.

End Facts.

End ControllerFacts.

(* ================================================================== *)
(** ** The supervisor on the simulated machine *)

Module ControllerRuns.
Import Controller ControllerFacts Sim.

Lemma start_process_idempotent_witness :
  procs running_emotion !! "emotion" = Some (Some (mk_Popen 7)) /\
  os_poll (world running_emotion) (mk_Popen 7) = None /\
  start_process "emotion" "emotion_webcam.py" running_emotion =
    (running_emotion, Ret (mk_result true "emotion already running" (Some 7%Z))).
Proof.
  split; [reflexivity|]. split; [reflexivity|].
  destruct (start_process_idempotent "emotion" "emotion_webcam.py" running_emotion
              (mk_Popen 7)) as [H _]; [reflexivity | reflexivity | exact H].
Defined.

Lemma wait_for_emotion_api_probe_witness :
  (forall (w : sim) ms, (0 <= ms)%Z -> (os_clock w + ms <= os_clock (os_sleep w ms))%Z) /\
  (forall (w : sim) url t, (os_clock w <= os_clock (fst (os_http_get w url t)))%Z) /\
  exists s' b tr, wait_for_emotion_api 1000 late_api = (s', Ret b) /\
    trace s' = (trace late_api ++ tr)%list /\ procs s' = procs late_api /\
    probe_log (os_clock (world late_api)) 1000 tr b /\
    (b = false -> (1000 <= os_clock (world s') - os_clock (world late_api))%Z).
Proof.
  assert (Hs : forall (w : sim) ms, (0 <= ms)%Z -> (os_clock w + ms <= os_clock (os_sleep w ms))%Z).
  { intros w ms Hms. simpl. lia. }
  assert (Hg : forall (w : sim) url t, (os_clock w <= os_clock (fst (os_http_get w url t)))%Z).
  { intros w url t. simpl. lia. }
  split; [exact Hs|]. split; [exact Hg|].
  exact (wait_for_emotion_api_probe Hs Hg 1000 late_api).
Defined.

(** C7, counterexample. A 200 answer that arrives 300 ms after a probe
    with a 100 ms timeout started still makes it return true. A 204
    (success) answer seen at once is not taken as ready, and the probe
    returns false. *)
Lemma wait_for_emotion_api_late_200_cex :
  snd (wait_for_emotion_api 100 slow_api) = Ret true /\
  os_clock (world (fst (wait_for_emotion_api 100 slow_api))) = 300%Z /\
  trace (fst (wait_for_emotion_api 1000 no_content_api)) !! 0%nat =
    Some (EvGet 0 EMOTION_URL 400 (Ret 204%Z)) /\
  snd (wait_for_emotion_api 1000 no_content_api) = Ret false.
Proof. vm_compute. repeat split. Qed.

Lemma start_process_spawn_error_raises_witness :
  live_pid (boot broken_spawn) "bot" = None /\
  os_path_exists broken_spawn "main_integrated.py" = true /\
  start_process "bot" "main_integrated.py" (boot broken_spawn) =
    (mk_St broken_spawn PROCS0
       [EvPopen ["python"; "main_integrated.py"] 0 (Raise (OSError "Permission denied"))],
     Raise (OSError "Permission denied")).
Proof.
  split; [reflexivity|]. split; [reflexivity|].
  exact (start_process_spawn_error_raises "bot" "main_integrated.py" (boot broken_spawn)
           broken_spawn (OSError "Permission denied") eq_refl eq_refl eq_refl).
Defined.

(** C9, counterexample. The emotion handle (pid 7) has exited. The status
    query reports the service as not running with no pid, but the handle
    stays recorded in [PROCS]. *)
Lemma status_payload_keeps_dead_handle_cex :
  os_poll (world dead_emotion) (mk_Popen 7) = Some 0%Z /\
  snd (status_payload dead_emotion) = Ret (mk_status false false None None true) /\
  procs (fst (status_payload dead_emotion)) !! "emotion" = Some (Some (mk_Popen 7)).
Proof. vm_compute. repeat split. Qed.

End ControllerRuns.

(* ================================================================== *)
(** ** Proofs about face detection and classification *)

Module VisionFacts.
Import Bot Vision BotFacts.

Lemma area_key (faces : list rect) :
  forall r, In r faces -> area r = Ret ((fun r : rect => let '(_, _, w, h) := r in inject_Z (w * h)) r).
Proof. intros [[[x y] w] h] _. reflexivity. Qed.

Lemma detect_face_best (shape : Z * Z) (faces : list rect) :
  faces <> [] ->
  exists fx fy fw fh l1 l2,
    faces = (l1 ++ (fx, fy, fw, fh) :: l2)%list /\
    (forall x y w h, In (x, y, w, h) l1 -> (w * h < fw * fh)%Z) /\
    (forall x y w h, In (x, y, w, h) faces -> (w * h <= fw * fh)%Z) /\
    detect_face shape faces =
      Ret (Some (Z.max 0 (fx - Z.quot fw 5), Z.max 0 (fy - Z.quot fw 5),
                 Z.min (snd shape - Z.max 0 (fx - Z.quot fw 5)) (fw + 2 * Z.quot fw 5),
                 Z.min (fst shape - Z.max 0 (fy - Z.quot fw 5)) (fh + 2 * Z.quot fw 5))).
Proof.
  intros Hne.
  destruct (py_max_by_total area _ faces Hne (area_key faces)) as [best Hb].
  destruct (py_max_by_spec area _ faces best (area_key faces) Hb) as (l1 & l2 & Hs & Hlt & Hle).
  destruct best as [[[fx fy] fw] fh].
  exists fx, fy, fw, fh, l1, l2. split; [exact Hs|]. split.
  { intros x y w h Hin. rewrite Zlt_Qlt. exact (Hlt _ Hin). }
  split.
  { intros x y w h Hin. rewrite Zle_Qle. exact (Hle _ Hin). }
  unfold detect_face.
  replace (length faces =? 0)%nat with false by (destruct faces; [congruence | reflexivity]).
  rewrite Hb. reflexivity.
Qed.

(** detect_face returns None exactly when the cascade found no face.
    Otherwise it crops around the first face (fx, fy, fw, fh) of largest
    area, with padding = int(0.2 * fw) = fw / 5 rounded down (fw >= 0):
    x = max(0, fx - padding), y = max(0, fy - padding),
    w = min(cols - x, fw + 2 * padding), h = min(rows - y, fh + 2 * padding),
    the height padded by the width's padding as in the code. When the
    detected faces lie inside the frame, this crop lies inside the frame
    and contains the whole chosen face. *)
Theorem detect_face_crop (rows cols : Z) (faces : list rect)
    (Hin : forall x y w h, In (x, y, w, h) faces ->
             (0 <= x /\ 0 <= y /\ 0 <= w /\ 0 <= h /\ x + w <= cols /\ y + h <= rows)%Z) :
  (faces = [] -> detect_face (rows, cols) faces = Ret None) /\
  (faces <> [] ->
   exists fx fy fw fh l1 l2 x y w h,
     faces = (l1 ++ (fx, fy, fw, fh) :: l2)%list /\
     (forall x' y' w' h', In (x', y', w', h') l1 -> (w' * h' < fw * fh)%Z) /\
     (forall x' y' w' h', In (x', y', w', h') faces -> (w' * h' <= fw * fh)%Z) /\
     detect_face (rows, cols) faces = Ret (Some (x, y, w, h)) /\
     (x = Z.max 0 (fx - Z.quot fw 5) /\ y = Z.max 0 (fy - Z.quot fw 5) /\
      w = Z.min (cols - x) (fw + 2 * Z.quot fw 5) /\
      h = Z.min (rows - y) (fh + 2 * Z.quot fw 5))%Z /\
     (0 <= x /\ 0 <= y /\ x + w <= cols /\ y + h <= rows)%Z /\
     (x <= fx /\ fx + fw <= x + w /\ y <= fy /\ fy + fh <= y + h)%Z).
Proof.
  split; [intros ->; reflexivity|].
  intros Hne.
  destruct (detect_face_best (rows, cols) faces Hne)
    as (fx & fy & fw & fh & l1 & l2 & Hs & Hlt & Hle & Hd).
  assert (Hbin : In (fx, fy, fw, fh) faces)
    by (rewrite Hs; apply in_or_app; right; left; reflexivity).
  destruct (Hin _ _ _ _ Hbin) as (H1 & H2 & H3 & H4 & H5 & H6).
  assert (Hp : (0 <= Z.quot fw 5)%Z) by (apply Z.quot_pos; lia).
  do 6 eexists. do 4 eexists.
  split; [exact Hs|]. split; [exact Hlt|]. split; [exact Hle|].
  split; [exact Hd|]. simpl. split; [repeat split; reflexivity|]. lia.
Qed.

Lemma argmax_go_spec (full : list Q) (l : list Q) :
  forall i bi b,
  full !! bi = Some b -> (bi < i)%nat ->
  (forall k y, l !! k = Some y -> full !! (i + k)%nat = Some y) ->
  length full = (i + length l)%nat ->
  (forall j p, (j < bi)%nat -> full !! j = Some p -> (p < b)%Q) ->
  (forall j p, (j < i)%nat -> full !! j = Some p -> (p <= b)%Q) ->
  full !! (argmax_go l i bi b) = Some (fold_left (fun m y => if Qgtb y m then y else m) l b) /\
  (forall j p, full !! j = Some p -> (p <= fold_left (fun m y => if Qgtb y m then y else m) l b)%Q) /\
  (forall j p, (j < argmax_go l i bi b)%nat -> full !! j = Some p ->
     (p < fold_left (fun m y => if Qgtb y m then y else m) l b)%Q).
Proof.
  induction l as [|y l IH]; intros i bi b Hb Hbi Hsh Hlen Hlt Hle; simpl.
  - split; [exact Hb|]. split; [|exact Hlt].
    intros j p Hj. apply Hle with j; [|exact Hj].
    apply lookup_lt_Some in Hj. simpl in Hlen. lia.
  - assert (Hy : full !! i = Some y) by (rewrite <- (Nat.add_0_r i); apply Hsh; reflexivity).
    assert (Hsh' : forall k z, l !! k = Some z -> full !! (S i + k)%nat = Some z).
    { intros k z Hk. replace (S i + k)%nat with (i + S k)%nat by lia. apply Hsh. exact Hk. }
    assert (Hlen' : length full = (S i + length l)%nat) by (simpl in Hlen; lia).
    destruct (Qgtb y b) eqn:E.
    + apply Qgtb_true in E.
      apply IH; [exact Hy | lia | exact Hsh' | exact Hlen' | |].
      * intros j p Hj Hp. destruct (Nat.lt_ge_cases j bi).
        -- apply Qlt_trans with b; [apply Hlt with j; assumption | exact E].
        -- apply Qle_lt_trans with b; [apply Hle with j; [lia | exact Hp] | exact E].
      * intros j p Hj Hp. destruct (Nat.eq_dec j i) as [->|Hne].
        -- rewrite Hy in Hp. injection Hp as <-. apply Qle_refl.
        -- apply Qle_trans with b; [apply Hle with j; [lia | exact Hp] | apply Qlt_le_weak; exact E].
    + apply Qgtb_false in E.
      apply IH; [exact Hb | lia | exact Hsh' | exact Hlen' | exact Hlt |].
      intros j p Hj Hp. destruct (Nat.eq_dec j i) as [->|Hne].
      * rewrite Hy in Hp. injection Hp as <-. exact E.
      * apply Hle with j; [lia | exact Hp].
Qed.

Lemma np_argmax_spec (probs : list Q) (i : nat) (m : Q) :
  np_argmax probs = Some i -> py_max probs = Ret m ->
  probs !! i = Some m /\ (forall j p, probs !! j = Some p -> (p <= m)%Q) /\
  (forall j p, (j < i)%nat -> probs !! j = Some p -> (p < m)%Q).
Proof.
  destruct probs as [|x l]; simpl; [discriminate|].
  intros Hi Hm. injection Hi as <-. injection Hm as <-.
  apply (argmax_go_spec (x :: l) l 1 0 x); [reflexivity | lia | | reflexivity | |].
  - intros k y Hk. exact Hk.
  - intros j p Hj. lia.
  - intros j p Hj Hp. replace j with 0%nat in Hp by lia. injection Hp as <-. apply Qle_refl.
Qed.

(** predict_emotion_from_frame answers "neutral" with confidence 0.0
    when no face is found. Otherwise, for a network with seven outputs
    (the seven-way final layer), it never raises: it answers the label
    of CLASSES at the index of the first greatest probability, with that
    probability as the confidence. *)
Theorem predict_emotion_from_frame_label (shape : Z * Z) (faces : list rect)
    (probs_of : rect -> list Q) (H7 : forall face, length (probs_of face) = 7%nat) :
  (faces = [] -> predict_emotion_from_frame shape faces probs_of = Predicted neutral 0) /\
  (faces <> [] ->
   exists face i label conf,
     detect_face shape faces = Ret (Some face) /\
     predict_emotion_from_frame shape faces probs_of = Predicted label conf /\
     CLASSES !! i = Some label /\ probs_of face !! i = Some conf /\
     (forall j p, probs_of face !! j = Some p -> (p <= conf)%Q) /\
     (forall j p, (j < i)%nat -> probs_of face !! j = Some p -> (p < conf)%Q)).
Proof.
  split; [intros ->; reflexivity|].
  intros Hne.
  destruct (detect_face_best shape faces Hne) as (fx & fy & fw & fh & l1 & l2 & _ & _ & _ & Hd).
  set (face := (_, _, _, _) : rect) in Hd.
  pose proof (H7 face) as Hl.
  destruct (probs_of face) as [|x l] eqn:Ep; [discriminate|].
  set (i := argmax_go l 1 0 x).
  set (m := fold_left (fun m y => if Qgtb y m then y else m) l x).
  destruct (np_argmax_spec (x :: l) i m eq_refl eq_refl) as (Hi & Hmax & Hfirst).
  assert (Hil : (i < 7)%nat) by (apply lookup_lt_Some in Hi; rewrite <- Hl; exact Hi).
  assert (Hc : exists label, nth_error CLASSES i = Some label /\ CLASSES !! i = Some label).
  { do 7 (destruct i as [|i]; [eexists; split; reflexivity|]). lia. }
  destruct Hc as [label [Hn Hl']].
  exists face, i, label, m.
  split; [exact Hd|].
  split; [unfold predict_emotion_from_frame; rewrite Hd, Ep; simpl; fold i m; rewrite Hn; reflexivity|].
  rewrite Ep. split; [exact Hl'|]. split; [exact Hi|]. split; [exact Hmax | exact Hfirst].
Qed.

End VisionFacts.

(* ================================================================== *)
(** ** Proofs about the sampling loop *)

Module WebcamLoopFacts.
Import Bot Webcam Vision.

Lemma spaced_snoc (w : list sample) (x : sample) :
  spaced w -> (forall w1 a, w = (w1 ++ [a])%list -> (1 <= s_timestamp x - s_timestamp a)%Q) ->
  spaced (w ++ [x])%list.
Proof.
  induction w as [|a w IH]; intros Hs Hl; simpl; [exact I|].
  destruct w as [|b w]; simpl.
  - split; [apply (Hl []); reflexivity | exact I].
  - destruct Hs as [Hab Hs]. split; [exact Hab|].
    apply IH; [exact Hs|]. intros w1 c Hw. apply (Hl (a :: w1)). rewrite Hw. reflexivity.
Qed.

Lemma spaced_tl (w : list sample) : spaced w -> spaced (tl w).
Proof. destruct w as [|a [|b w]]; simpl; tauto. Qed.

Lemma deque_append_In {A} (n : nat) (d : list A) (x a : A) :
  In a (deque_append n d x) -> In a (d ++ [x])%list.
Proof.
  unfold deque_append. destruct (n <? length (d ++ [x]))%nat; [|tauto].
  destruct (d ++ [x])%list; simpl; tauto.
Qed.

Lemma deque_append_last {A} (n : nat) (d : list A) (x : A) (w1 : list A) (a : A) :
  deque_append n d x = (w1 ++ [a])%list -> a = x.
Proof.
  unfold deque_append. destruct (n <? length (d ++ [x]))%nat; intros H.
  - destruct d as [|b d]; simpl in H.
    + destruct w1 as [|? [|]]; simpl in H; congruence.
    + apply app_inj_tail in H as [_ H]. congruence.
  - apply app_inj_tail in H as [_ H]. congruence.
Qed.

Lemma deque_append_spaced (d : list sample) (x : sample) :
  spaced d -> (forall w1 a, d = (w1 ++ [a])%list -> (1 <= s_timestamp x - s_timestamp a)%Q) ->
  spaced (deque_append WINDOW_MAXLEN d x).
Proof.
  intros Hs Hl. pose proof (spaced_snoc d x Hs Hl) as H.
  unfold deque_append. destruct (WINDOW_MAXLEN <? length (d ++ [x]))%nat; [apply spaced_tl|]; exact H.
Qed.

Lemma run_loop_spacing (t0 : Q) (st : cam_state) (ticks : list tick) :
  spaced (emotion_window st) /\
  (forall a, In a (emotion_window st) -> (t0 + 1 <= s_timestamp a)%Q) /\
  (forall w1 a, emotion_window st = (w1 ++ [a])%list -> s_timestamp a = last_sample_time st) /\
  (t0 <= last_sample_time st)%Q ->
  let st' := run_loop st ticks in
  spaced (emotion_window st') /\
  (forall a, In a (emotion_window st') -> (t0 + 1 <= s_timestamp a)%Q) /\
  (forall w1 a, emotion_window st' = (w1 ++ [a])%list -> s_timestamp a = last_sample_time st') /\
  (t0 <= last_sample_time st')%Q.
Proof.
  unfold run_loop. revert st. induction ticks as [|t ticks IH]; intros st Hinv; simpl; [exact Hinv|].
  apply IH. destruct Hinv as (Hs & Hin & Hlast & Ht0).
  destruct t as [|e c now]; simpl; [tauto|].
  destruct (Qle_bool 1 (now - last_sample_time st)) eqn:E; simpl; [|tauto].
  apply Qle_bool_iff in E.
  split; [|split; [|split]].
  - apply deque_append_spaced; [exact Hs|]. intros w1 a Hw. simpl. rewrite (Hlast w1 a Hw). exact E.
  - intros a Ha. apply deque_append_In, in_app_or in Ha as [Ha|[<-|[]]]; [apply Hin; exact Ha|].
    simpl. lra.
  - intros w1 a Hw. apply deque_append_last in Hw. subst a. reflexivity.
  - lra.
Qed.

(** The sampling loop, started as webcam_loop starts it (an empty window,
    [last_sample_time] the start time [t0]), keeps its window's samples at
    least one second apart and at least one second after [t0]. The newest
    sample carries [last_sample_time], which never falls below [t0]. *)
Theorem webcam_window_spacing (t0 : Q) (l0 : sample) (ticks : list tick) :
  let st := run_loop {| emotion_window := []; last_sample_time := t0; latest := l0 |} ticks in
  spaced (emotion_window st) /\
  (forall a, In a (emotion_window st) -> (t0 + 1 <= s_timestamp a)%Q) /\
  (forall w1 a, emotion_window st = (w1 ++ [a])%list -> s_timestamp a = last_sample_time st) /\
  (t0 <= last_sample_time st)%Q.
Proof.
  apply run_loop_spacing. simpl. split; [exact I|]. split; [intros a []|]. split.
  - intros w1 a Hw. destruct w1; discriminate.
  - apply Qle_refl.
Qed.

(** [/emotion_json] serves the last classified frame: after any run, the
    [latest] dict holds the emotion, confidence and time of the last
    frame read, whether or not it was sampled into the window. Failed
    reads change nothing. *)
Theorem webcam_latest_is_last_frame (st : cam_state) (ticks : list tick)
    (e : string) (c now : Q) (n : nat) :
  latest (run_loop st ((ticks ++ Frame e c now :: repeat ReadFailed n)%list)) =
    {| s_timestamp := now; s_emotion := e; s_confidence := c |} /\
  run_loop st (repeat ReadFailed n) = st.
Proof.
  assert (Hf : forall st', fold_left loop_step (repeat ReadFailed n) st' = st').
  { intros st'. induction n as [|n IH]; [reflexivity|]. exact IH. }
  unfold run_loop. split; [|apply Hf].
  rewrite fold_left_app. simpl. rewrite Hf.
  unfold loop_step. destruct (Qle_bool _ _); reflexivity.
Qed.

End WebcamLoopFacts.

(* ================================================================== *)
(** ** The /emotion payload, from the webcam service to the bot *)

Module PayloadFacts.
Import Bot BotFacts.

(** Decoding the body that get_emotion_window serves for a window [w],
    detect_emotion's grouping loop gets no data for an empty window.
    Otherwise it recovers the window exactly: one key per distinct
    lower-cased label, in order of first occurrence, each mapped to that
    label's confidences in window order. *)
Theorem emotion_payload_grouping (fos : string -> option Q) (w : list sample) :
  parse_frames fos (window_payload w) =
    Ret (match w with
         | [] => None
         | _ => Some (map (fun k => (k, confs_of w k)) (uniq w))
         end) /\
  NoDup (uniq w) /\
  (forall k, In k (uniq w) <-> exists s, In s w /\ lbl s = k).
Proof.
  split; [|split; [apply uniq_NoDup | apply uniq_In]].
  destruct w as [|s w]; [reflexivity|].
  rewrite parse_frames_window by discriminate. rewrite counts_of_spec. reflexivity.
Qed.

End PayloadFacts.

(* ================================================================== *)
(** ** More proofs about the process supervisor *)

Module ControllerMore.
Import Controller ControllerFacts.

Section More.

Context {World : Type} `{!OS World}.

(** start_process with no live process recorded for [name] and no
    script file on disk returns ok = false with "Missing file: <script>"
    and no pid. It spawns nothing and changes nothing. *)
Theorem start_process_missing_file (name script : string) (s : St World)
    (Hidle : live_pid s name = None)
    (Hmiss : os_path_exists (world s) script = false) :
  start_process name script s = (s, Ret (mk_result false ("Missing file: " ++ script) None)).
Proof.
  unfold live_pid in Hidle. unfold_m.
  destruct (procs s !! name) as [[p|]|]; simpl in *.
  - destruct (os_poll (world s) p); [|discriminate]. simpl. rewrite Hmiss. reflexivity.
  - rewrite Hmiss. reflexivity.
  - rewrite Hmiss. reflexivity.
Qed.

(** When no live process is recorded for [name], the script exists and
    [subprocess.Popen] succeeds, start_process launches [python script]
    with creationflags CREATE_NEW_PROCESS_GROUP on Windows (0 elsewhere).
    It records the new handle under [name], leaves the other entries
    alone, and returns "Started <name>" with the new pid. *)
Theorem start_process_spawn_records (name script : string) (s : St World)
    (w' : World) (p : Popen)
    (Hidle : live_pid s name = None)
    (Hex : os_path_exists (world s) script = true)
    (Hspawn : os_popen (world s) [os_pyexe; script]
                (if os_nt then CREATE_NEW_PROCESS_GROUP else 0%Z) = (w', Ret p)) :
  start_process name script s =
    (mk_St w' (<[name := Some p]> (procs s))
       (trace s ++ [EvPopen [os_pyexe; script]
                      (if os_nt then CREATE_NEW_PROCESS_GROUP else 0%Z) (Ret p)])%list,
     Ret (mk_result true ("Started " ++ name) (Some (pid p)))).
Proof.
  unfold live_pid in Hidle. unfold_m.
  destruct (procs s !! name) as [[q|]|]; simpl in *.
  - destruct (os_poll (world s) q); [|discriminate]. simpl.
    rewrite Hex. simpl. rewrite Hspawn. reflexivity.
  - rewrite Hex. simpl. rewrite Hspawn. reflexivity.
  - rewrite Hex. simpl. rewrite Hspawn. reflexivity.
Qed.

(** stop_process on a live process asks it to stop first (send_signal
    CTRL_BREAK_EVENT on Windows, terminate elsewhere). If that call
    raises, it returns "Stop failed: ..." at once: no sleep, no poll, no
    kill, and the entry is kept. Otherwise it sleeps 800 ms and kills the
    process only if it is still alive after that sleep. Once the calls
    have succeeded it clears the entry and returns "Stopped <name>"; if
    the kill raises, it returns "Stop failed: ..." and keeps the entry. *)
Theorem stop_process_graceful_then_kill (name : string) (s : St World) (p : Popen)
    (Hrec : procs s !! name = Some (Some p)) (Halive : os_poll (world s) p = None) :
  let '(w1, rg) := if os_nt then os_send_signal (world s) p CTRL_BREAK_EVENT
                   else os_terminate (world s) p in
  let ev := if os_nt then EvSendSignal (pid p) CTRL_BREAK_EVENT rg
            else EvTerminate (pid p) rg in
  match rg with
  | Raise e =>
      stop_process name s =
        (mk_St w1 (procs s) (trace s ++ [ev])%list,
         Ret (mk_result false ("Stop failed: " ++ exn_str e) None))
  | Ret _ =>
      let w2 := os_sleep w1 800 in
      match os_poll w2 p with
      | Some _ =>
          stop_process name s =
            (mk_St w2 (<[name := None]> (procs s)) (trace s ++ [ev; EvSleep 800])%list,
             Ret (mk_result true ("Stopped " ++ name) None))
      | None =>
          let '(w3, rk) := os_kill w2 p in
          stop_process name s =
            (mk_St w3 (match rk with Ret _ => <[name := None]> (procs s) | Raise _ => procs s end)
               (trace s ++ [ev; EvSleep 800; EvKill (pid p) rk])%list,
             Ret (match rk with
                  | Ret _ => mk_result true ("Stopped " ++ name) None
                  | Raise e => mk_result false ("Stop failed: " ++ exn_str e) None
                  end))
      end
  end.
Proof.
  unfold_m. rewrite Hrec. simpl. rewrite Halive. simpl.
  destruct os_nt; simpl;
    [destruct (os_send_signal (world s) p CTRL_BREAK_EVENT) as [w1 [[]|e]]
    |destruct (os_terminate (world s) p) as [w1 [[]|e]]]; simpl;
    rewrite <- ?app_assoc; try reflexivity;
    destruct (os_poll (os_sleep w1 800) p); simpl; rewrite <- ?app_assoc; try reflexivity;
    destruct (os_kill (os_sleep w1 800) p) as [w3 [[]|e']]; simpl; rewrite <- ?app_assoc; reflexivity.
Qed.

Lemma stop_process_ok_clears (name : string) (s s' : St World) (r : result) :
  stop_process name s = (s', Ret r) -> ok r = true -> mjoin (procs s' !! name) = None.
Proof.
  intros H Hok. unfold_m.
  repeat (case_match; simplify_eq/=); try discriminate;
  first [rewrite lookup_insert_eq; reflexivity | assumption | reflexivity].
Qed.

(** After a stop_process that reports ok = true, [name] is not running,
    and stopping it again answers "<name> not running" without any call
    or change. *)
Theorem stop_process_then_idle (name : string) (s s' : St World) (r : result)
    (Hstop : stop_process name s = (s', Ret r)) (Hok : ok r = true) :
  is_running name s' = (s', Ret false) /\
  stop_process name s' = (s', Ret (mk_result true (name ++ " not running") None)).
Proof.
  pose proof (stop_process_ok_clears name s s' r Hstop Hok) as Hc.
  unfold_m. rewrite Hc. split; reflexivity.
Qed.

(** wait_for_emotion_api with a timeout of zero or less returns false at
    once: it makes no request, does not sleep and changes nothing. *)
Theorem wait_for_emotion_api_nonpositive (timeout : Z) (s : St World)
    (Ht : (timeout <= 0)%Z) :
  wait_for_emotion_api timeout s = (s, Ret false).
Proof.
  unfold wait_for_emotion_api, wait_fuel. unfold mbind_M at 1, time_time.
  rewrite wait_loop_S. unfold_m. rewrite Z.sub_diag.
  destruct (Z.ltb_spec 0 timeout); [lia | reflexivity].
Qed.

End More.

End ControllerMore.

(* ================================================================== *)
(** ** The bot's text helpers *)

Module CompanionTextFacts.
Import Bot BotFacts Companion.

Lemma lower_app (a b : string) : lower (a ++ b) = (lower a ++ lower b)%string.
Proof. induction a as [|c a IH]; simpl; [reflexivity | now rewrite IH]. Qed.

Lemma lower_ascii_idem (c : ascii) : lower_ascii (lower_ascii c) = lower_ascii c.
Proof. destruct c as [[][][][][][][][]]; reflexivity. Qed.

Lemma lower_idem (s : string) : lower (lower s) = lower s.
Proof. induction s as [|c s IH]; simpl; [reflexivity | now rewrite lower_ascii_idem, IH]. Qed.

Lemma is_space_upper (c : ascii) : is_space (upper_ascii c) = is_space c.
Proof. destruct c as [[][][][][][][][]]; reflexivity. Qed.

Lemma lower_upper_fixed (c : ascii) : lower_ascii c = c -> lower_ascii (upper_ascii c) = c.
Proof.
  destruct c as [[][][][][][][][]]; vm_compute; intros H; first [reflexivity | discriminate H].
Qed.

Lemma lower_fixed (s : string) :
  Forall (fun c => lower_ascii c = c) (list_ascii_of_string s) -> lower s = s.
Proof.
  induction s as [|c s IH]; simpl; intros H; [reflexivity|].
  inversion H; subst. rewrite IH by assumption. congruence.
Qed.

Lemma lower_chars (s : string) :
  Forall (fun c => lower_ascii c = c) (list_ascii_of_string (lower s)).
Proof.
  induction s as [|c s IH]; simpl; constructor; [apply lower_ascii_idem | exact IH].
Qed.

(** Every word of [str.split()] is non-empty, has no white space and is
    made of characters of the input. *)
Lemma split_go_words (P : ascii -> Prop) (l cur : list ascii) :
  Forall P l -> Forall (fun c => P c /\ is_space c = false) cur ->
  Forall (fun w => w <> EmptyString /\
                   Forall (fun c => P c /\ is_space c = false) (list_ascii_of_string w))
    (split_go l cur).
Proof.
  assert (Hw : forall cur', cur' <> [] -> Forall (fun c => P c /\ is_space c = false) cur' ->
     string_of_list_ascii (rev cur') <> EmptyString /\
     Forall (fun c => P c /\ is_space c = false)
       (list_ascii_of_string (string_of_list_ascii (rev cur')))).
  { intros cur' Hne Hc. rewrite list_ascii_of_string_of_list_ascii. split.
    - destruct cur' as [|c cur']; [congruence|]. simpl.
      destruct (rev cur'); simpl; discriminate.
    - apply Forall_rev, Hc. }
  revert cur. induction l as [|c l IH]; intros cur Hl Hc; simpl.
  - destruct cur as [|c cur]; [constructor|].
    constructor; [apply Hw; [discriminate | exact Hc] | constructor].
  - inversion Hl; subst.
    destruct (is_space c) eqn:Es.
    + destruct cur as [|c' cur]; [apply IH; auto|].
      constructor; [apply Hw; [discriminate | exact Hc]|]. apply IH; auto.
    + apply IH; auto.
Qed.

Lemma prefix_app (a b : string) : String.prefix a (a ++ b) = true.
Proof.
  induction a as [|c a IH]; simpl; [destruct b; reflexivity|].
  destruct (ascii_dec c c); [exact IH | congruence].
Qed.

Lemma py_contains_app (w a b : string) : py_contains w (a ++ w ++ b) = true.
Proof.
  induction a as [|c a IH]; simpl.
  - simpl. pose proof (prefix_app w b) as Hp.
    assert (Hu : forall h, py_contains w h =
                   (String.prefix w h || match h with
                                        | EmptyString => false
                                        | String _ h' => py_contains w h'
                                        end)%bool) by (intros []; reflexivity).
    change (py_contains w (w ++ b) = true). rewrite Hu, Hp. reflexivity.
  - rewrite IH. apply orb_true_r.
Qed.

Lemma in_filler (w : string) :
  existsb (String.eqb w) IGNORE = true <-> In w IGNORE.
Proof. apply existsb_eqb_In. Qed.

(** ** extract_name *)

(** extract_name always returns one non-empty word without white space.
    When the text is ASCII and some word of the lower-cased text is not a
    filler word ("my", "name", "is", "i'm", "im", "call", "me"), the name,
    lower-cased, is such a word (on ASCII text str.lower, str.split and
    str.capitalize act as lower, py_split and capitalize). Otherwise the
    name is "Friend". *)
Theorem extract_name_one_word (t : string) :
  extract_name t <> EmptyString /\
  Forall (fun c => is_space c = false) (list_ascii_of_string (extract_name t)) /\
  (Forall (fun c => (nat_of_ascii c < 128)%nat) (list_ascii_of_string t) ->
   (exists w, In w (py_split (lower t)) /\ ~ In w IGNORE) ->
     In (lower (extract_name t)) (py_split (lower t)) /\ ~ In (lower (extract_name t)) IGNORE) /\
  ((forall w, In w (py_split (lower t)) -> In w IGNORE) -> extract_name t = "Friend").
Proof.
  pose proof (split_go_words (fun c => lower_ascii c = c) (list_ascii_of_string (lower t)) []
                (lower_chars t) ltac:(constructor)) as Hwords.
  fold (py_split (lower t)) in Hwords.
  unfold extract_name.
  remember (py_split (lower t)) as ws eqn:Ews.
  destruct (List.filter _ ws) as [|w rest] eqn:Ef.
  - split; [discriminate|]. split; [repeat constructor|]. split.
    + intros _ [w [Hin Hni]]. exfalso.
      assert (Hf : In w (List.filter (fun w => negb (existsb (String.eqb w) IGNORE)) ws)).
      { apply filter_In. split; [exact Hin|].
        destruct (existsb (String.eqb w) IGNORE) eqn:E; [|reflexivity].
        apply in_filler in E. contradiction. }
      rewrite Ef in Hf. destruct Hf.
    + intros _. reflexivity.
  - assert (Hin : In w (List.filter (fun w => negb (existsb (String.eqb w) IGNORE)) ws))
      by (rewrite Ef; left; reflexivity).
    apply filter_In in Hin. destruct Hin as [Hin Hkeep].
    rewrite List.Forall_forall in Hwords. destruct (Hwords w Hin) as [Hne Hchars].
    destruct w as [|c r]; [congruence|].
    simpl in Hchars. inversion Hchars as [|? ? [Hc Hcs] Hr]; subst.
    assert (Hr' : lower r = r).
    { apply lower_fixed. eapply List.Forall_impl; [|exact Hr]. intros x [Hx _]. exact Hx. }
    assert (Hlow : lower (capitalize (String c r)) = String c r).
    { simpl. rewrite lower_upper_fixed by exact Hc. rewrite lower_idem, Hr'. reflexivity. }
    split; [simpl; discriminate|]. split.
    + simpl. constructor; [rewrite is_space_upper; exact Hcs|].
      rewrite Hr'. eapply List.Forall_impl; [|exact Hr]. intros x [_ Hx]. exact Hx.
    + split.
      * intros _ _. rewrite Hlow. split; [exact Hin|].
        intros Hig. apply in_filler in Hig. rewrite Hig in Hkeep. discriminate.
      * intros Hall. exfalso. apply Hall in Hin. apply in_filler in Hin.
        rewrite Hin in Hkeep. discriminate.
Qed.

(** extract_name ignores case, and it skips a leading filler word in any
    case followed by a space: "My name is Anna" gives the same name as
    "Anna". *)
Theorem extract_name_skips_filler :
  (forall t, extract_name (lower t) = extract_name t) /\
  (forall w t, In (lower w) IGNORE -> extract_name (w ++ " " ++ t) = extract_name t).
Proof.
  split.
  - intros t. unfold extract_name. rewrite lower_idem. reflexivity.
  - intros w t Hw. unfold extract_name.
    rewrite !lower_app.
    simpl in Hw.
    repeat destruct Hw as [Hw|Hw]; try contradiction; rewrite <- Hw; reflexivity.
Qed.

(** ** is_yes, is_no and the reading of a reply *)

Lemma is_yes_lower (t : string) : is_yes (lower t) = is_yes t.
Proof. unfold is_yes. rewrite lower_idem. reflexivity. Qed.

Lemma is_no_lower (t : string) : is_no (lower t) = is_no t.
Proof. unfold is_no. rewrite lower_idem. reflexivity. Qed.

Lemma contains_word (W : list string) (w a b : string) :
  In w W -> lower w = w ->
  existsb (fun v => py_contains v (lower (a ++ w ++ b))) W = true.
Proof.
  intros Hin Hlw. apply existsb_exists. exists w. split; [exact Hin|].
  rewrite !lower_app, Hlw. apply py_contains_app.
Qed.

Lemma nonempty_app (a w b : string) : w <> EmptyString -> String.eqb (a ++ w ++ b) "" = false.
Proof.
  intros Hw. destruct a as [|c a]; simpl; [|reflexivity].
  destruct w as [|c w]; [congruence | reflexivity].
Qed.

(** A reply that contains a YES word anywhere, in any case, is read as
    yes, even when it also contains a NO word: ask_yes_no tests yes
    first. A reply that contains a NO word is read as no when it contains
    no YES word. Both tests ignore case. *)
Theorem reply_reading :
  (forall a w b, In w YES_WORDS -> answer_of (Some (a ++ w ++ b)) = Some true) /\
  (forall a w b, In w NO_WORDS -> is_yes (a ++ w ++ b) = false ->
     answer_of (Some (a ++ w ++ b)) = Some false) /\
  (forall t, is_yes (lower t) = is_yes t /\ is_no (lower t) = is_no t).
Proof.
  split; [|split].
  - intros a w b Hw. unfold answer_of, message_of.
    assert (Hlw : lower w = w /\ w <> EmptyString)
      by (simpl in Hw; repeat destruct Hw as [Hw|Hw]; try contradiction; subst; (split; [reflexivity|discriminate])).
    rewrite nonempty_app by apply Hlw.
    unfold is_yes. rewrite (contains_word YES_WORDS w a b Hw (proj1 Hlw)). reflexivity.
  - intros a w b Hw Hy. unfold answer_of, message_of.
    assert (Hlw : lower w = w /\ w <> EmptyString)
      by (simpl in Hw; repeat destruct Hw as [Hw|Hw]; try contradiction; subst; (split; [reflexivity|discriminate])).
    rewrite nonempty_app by apply Hlw. rewrite Hy.
    unfold is_no. rewrite (contains_word NO_WORDS w a b Hw (proj1 Hlw)). reflexivity.
  - intros t. split; [apply is_yes_lower | apply is_no_lower].
Qed.

End CompanionTextFacts.

(* ================================================================== *)
(** ** The bot's behaviours *)

Module CompanionFacts.
Import Bot BotFacts Companion.

Section Behaviour.

Context {W : Type} `{!Furhat W}.

Lemma rbind_ret {A B} (m : R W A) (k : A -> R W B) (s s1 : bot_state W) (a : A) :
  m s = (s1, Ret a) -> rbind m k s = k a s1.
Proof. intros E. unfold rbind. rewrite E. reflexivity. Qed.

Lemma rbind_raise {A B} (m : R W A) (k : A -> R W B) (s s1 : bot_state W) (e : py_exn) :
  m s = (s1, Raise e) -> rbind m k s = (s1, Raise e).
Proof. intros E. unfold rbind. rewrite E. reflexivity. Qed.

(** *** Keeping the attributes *)

Lemma ka_bind {A B} (m : R W A) (k : A -> R W B) :
  keeps_attrs m -> (forall a, keeps_attrs (k a)) -> keeps_attrs (rbind m k).
Proof.
  intros Hm Hk s s' r. unfold rbind. destruct (m s) as [s1 [a|e]] eqn:E; intros H.
  - destruct (Hm _ _ _ E) as (Hn1 & He1 & tr1 & Hc1).
    destruct (Hk a _ _ _ H) as (Hn2 & He2 & tr2 & Hc2).
    split; [congruence|]. split; [congruence|].
    exists (tr1 ++ tr2)%list. rewrite Hc2, Hc1, app_assoc. reflexivity.
  - inversion H; subst. exact (Hm _ _ _ E).
Qed.

Lemma ka_ret {A} (a : A) : keeps_attrs (W:=W) (rret a).
Proof.
  intros s s' r H. inversion H; subst. split; [reflexivity|]. split; [reflexivity|].
  exists []. rewrite app_nil_r. reflexivity.
Qed.

Ltac ka_prim := intros s s' r H; inversion H; subst; simpl;
  split; [reflexivity|]; split; [reflexivity|]; eexists; reflexivity.

Lemma ka_say' (t : string) : keeps_attrs (say t).
Proof.
  intros s s' r. unfold say. destruct (fh_say (bw s) t) as [w x]. intros H; inversion H; subst.
  simpl. split; [reflexivity|]. split; [reflexivity|]. eexists; reflexivity.
Qed.

Lemma ka_listen : keeps_attrs listen.
Proof.
  intros s s' r. unfold listen. destruct (fh_listen (bw s)) as [w x]. intros H; inversion H; subst.
  simpl. split; [reflexivity|]. split; [reflexivity|]. eexists; reflexivity.
Qed.

Lemma ka_gesture (g : string) : keeps_attrs (gesture g).
Proof.
  intros s s' r. unfold gesture. destruct (fh_gesture (bw s) g) as [w x]. intros H; inversion H; subst.
  simpl. split; [reflexivity|]. split; [reflexivity|]. eexists; reflexivity.
Qed.

Lemma ka_sleep (ms : Z) : keeps_attrs (sleep ms).
Proof. ka_prim. Qed.

Lemma ka_try (m : R W unit) : keeps_attrs m -> keeps_attrs (try_pass m).
Proof.
  intros Hm s s' r. unfold try_pass. destruct (m s) as [s1 [a|e]] eqn:E; intros H;
  inversion H; subst; exact (Hm _ _ _ E).
Qed.

Lemma ka_paraphrase (f u : string) : keeps_attrs (paraphrase f u).
Proof.
  intros s s' r. unfold paraphrase.
  destruct (fh_chat (bw s) (paraphrase_prompt f u)) as [e|[t|]]; intros H; inversion H; subst;
  (split; [reflexivity|]; split; [reflexivity|]; exists []; rewrite app_nil_r; reflexivity).
Qed.

Lemma ka_for {A} (l : list A) (body : A -> R W unit) :
  (forall x, keeps_attrs (body x)) -> keeps_attrs (r_for l body).
Proof.
  intros Hb. induction l as [|x l IH]; simpl; [apply ka_ret|].
  apply ka_bind; [apply Hb | intros _; exact IH].
Qed.

Create HintDb ka.
#[local] Hint Resolve ka_ret ka_say' ka_listen ka_gesture ka_sleep ka_paraphrase : ka.

Ltac ka_tac :=
  repeat match goal with
  | |- keeps_attrs (rbind _ _) => apply ka_bind; [|intros ?]
  | |- keeps_attrs (try_pass _) => apply ka_try
  | |- keeps_attrs (r_for _ _) => apply ka_for; intros ?
  | |- keeps_attrs _ => first [solve [eauto with ka] | case_match]
  end.

Lemma ka_safe_gesture (g : string) : keeps_attrs (safe_gesture g).
Proof. unfold safe_gesture. ka_tac. Qed.

Lemma ka_express (e : string) : keeps_attrs (express_emotion e).
Proof. unfold express_emotion. ka_tac; apply ka_safe_gesture. Qed.

#[local] Hint Resolve ka_safe_gesture ka_express : ka.

Lemma ka_ask (q rp : string) : keeps_attrs (ask_yes_no q rp).
Proof. unfold ask_yes_no. cbv zeta. ka_tac. Qed.

#[local] Hint Resolve ka_ask : ka.

Lemma ka_flows (u : string) :
  keeps_attrs (sad_flow u) /\ keeps_attrs (angry_flow u) /\ keeps_attrs (fear_flow u) /\
  keeps_attrs (happy_flow u) /\ keeps_attrs (surprise_flow u) /\ keeps_attrs (disgust_flow u).
Proof.
  unfold sad_flow, angry_flow, fear_flow, happy_flow, surprise_flow, disgust_flow,
    ask_paraphrased, continue_chat_prompt, do_music_reco, do_one_breath,
    do_grounding_3_things, do_journal_prompt.
  repeat match goal with |- _ /\ _ => split end; ka_tac.
Qed.

Lemma kn_of_ka {A} (m : R W A) : keeps_attrs m -> keeps_name m.
Proof. intros Hm s s' r H. destruct (Hm _ _ _ H) as (Hn & _ & Hc). split; assumption. Qed.

Lemma kn_bind {A B} (m : R W A) (k : A -> R W B) :
  keeps_name m -> (forall a, keeps_name (k a)) -> keeps_name (rbind m k).
Proof.
  intros Hm Hk s s' r. unfold rbind. destruct (m s) as [s1 [a|e]] eqn:E; intros H.
  - destruct (Hm _ _ _ E) as (Hn1 & tr1 & Hc1).
    destruct (Hk a _ _ _ H) as (Hn2 & tr2 & Hc2).
    split; [congruence|]. exists (tr1 ++ tr2)%list. rewrite Hc2, Hc1, app_assoc. reflexivity.
  - inversion H; subst. exact (Hm _ _ _ E).
Qed.

(** *** Answering True *)

Lemma rt_bind {A} (m : R W A) (k : A -> R W bool) :
  (forall a, returns_true (k a)) -> returns_true (rbind m k).
Proof.
  intros Hk s s' b. unfold rbind. destruct (m s) as [s1 [a|e]]; intros H.
  - exact (Hk a _ _ _ H).
  - discriminate H.
Qed.

Lemma rt_ret : returns_true (W:=W) (rret true).
Proof. intros s s' b H. inversion H; reflexivity. Qed.

Ltac rt_tac :=
  repeat match goal with
  | |- returns_true (rbind _ _) => apply rt_bind; intros ?
  | |- returns_true (rret true) => apply rt_ret
  | |- returns_true _ => case_match
  end.

Lemma rt_flows (u : string) :
  returns_true (sad_flow u) /\ returns_true (angry_flow u) /\ returns_true (fear_flow u) /\
  returns_true (happy_flow u) /\ returns_true (surprise_flow u) /\ returns_true (disgust_flow u).
Proof.
  unfold sad_flow, angry_flow, fear_flow, happy_flow, surprise_flow, disgust_flow.
  repeat match goal with |- _ /\ _ => split end; rt_tac.
Qed.


(** *** ask_yes_no *)

Lemma ask_yes_no_cases (q rp : string) (s s' : bot_state W) (a : option bool) :
  ask_yes_no q rp s = (s', Ret a) ->
  user_name s' = user_name s /\ last_emotion s' = last_emotion s /\
  ((exists r1, calls s' = (calls s ++ [CSay q (Ret tt); CListen (Ret r1)])%list /\
               answer_of r1 = a /\ a <> None) \/
   (exists r1 r2, calls s' = (calls s ++ [CSay q (Ret tt); CListen (Ret r1);
                                          CSay rp (Ret tt); CListen (Ret r2)])%list /\
                  answer_of r1 = None /\ answer_of r2 = a)).
Proof.
  unfold ask_yes_no, rbind, say, listen, rret, answer_of. cbv zeta. simpl.
  intros H. repeat (case_match; simplify_eq/=; try discriminate).
  all: split; [reflexivity|]; split; [reflexivity|].
  all: rewrite <- ?app_assoc; simpl.
  all: repeat match goal with u : unit |- _ => destruct u end.
  all: first [ left; eexists; split; [reflexivity|];
               repeat match goal with E : ?x = _ |- context [?x] => rewrite E end;
               split; [reflexivity | discriminate]
             | right; do 2 eexists; split; [reflexivity|];
               repeat match goal with E : ?x = _ |- context [?x] => rewrite E end;
               split; reflexivity ].
Qed.

(** *** express_emotion *)

Lemma gestures_nonempty (e : string) : Forall (fun g => g <> EmptyString) (gestures_for e).
Proof.
  unfold gestures_for, emotion_gestures. simpl.
  repeat case_match; simplify_eq; repeat (constructor || discriminate).
Qed.

Lemma gesture_step (g : string) (s : bot_state W) :
  g <> EmptyString ->
  exists s1 og, (_ <- safe_gesture g ;; sleep 200) s = (s1, Ret tt) /\
    user_name s1 = user_name s /\ last_emotion s1 = last_emotion s /\
    calls s1 = (calls s ++ [CGesture g og; CSleep 200])%list.
Proof.
  intros Hg. unfold rbind, safe_gesture, try_pass, gesture, sleep.
  destruct (String.eqb_spec g ""); [contradiction|].
  destruct (fh_gesture (bw s) g) as [w1 og].
  destruct og as [u|ex]; simpl; [eexists; exists (Ret u) | eexists; exists (Raise ex)];
    (split; [reflexivity|]); simpl; rewrite <- ?app_assoc; repeat split; reflexivity.
Qed.

Lemma r_for_gestures (l : list string) (s : bot_state W) :
  Forall (fun g => g <> EmptyString) l ->
  exists s' tr, r_for l (fun g => _ <- safe_gesture g ;; sleep 200) s = (s', Ret tt) /\
    user_name s' = user_name s /\ last_emotion s' = last_emotion s /\
    calls s' = (calls s ++ tr)%list /\
    map act_of tr = flat_map (fun g => [AGesture g; ASleep 200]) l.
Proof.
  revert s. induction l as [|g l IH]; intros s Hl.
  - exists s, []. rewrite app_nil_r. repeat split; reflexivity.
  - inversion Hl as [|? ? Hg Hl']; subst.
    destruct (gesture_step g s Hg) as (s1 & og & E1 & Hn1 & He1 & Hc1).
    destruct (IH s1 Hl') as (s' & tr & E2 & Hn2 & He2 & Hc2 & Hm2).
    exists s', ([CGesture g og; CSleep 200] ++ tr)%list.
    cbn [r_for]. rewrite (rbind_ret _ _ _ _ _ E1).
    split; [exact E2|]. split; [congruence|]. split; [congruence|]. split.
    + rewrite Hc2, Hc1, <- app_assoc. reflexivity.
    + rewrite map_app, Hm2. reflexivity.
Qed.

(** express_emotion never raises, even when a gesture call does. For
    each gesture listed for the emotion, in order, it makes one gesture
    call and sleeps 200 ms; an emotion with no entry makes no call. It
    leaves the user name and last_emotion as they are. *)
Theorem express_emotion_gestures (e : string) (s : bot_state W) :
  exists s' tr, express_emotion e s = (s', Ret tt) /\
    user_name s' = user_name s /\ last_emotion s' = last_emotion s /\
    calls s' = (calls s ++ tr)%list /\
    map act_of tr = flat_map (fun g => [AGesture g; ASleep 200]) (gestures_for e).
Proof. apply r_for_gestures, gestures_nonempty. Qed.

(** *** respond *)

Lemma kn_respond (u : string) : keeps_name (respond u).
Proof.
  destruct (ka_flows u) as (k1 & k2 & k3 & k4 & k5 & k6).
  unfold respond.
  apply kn_bind; [intros s s' r H; inversion H; subst; split; [reflexivity|]; exists []; rewrite app_nil_r; reflexivity|].
  intros e. apply kn_bind.
  { intros s s' r H; inversion H; subst; split; [reflexivity|]; exists []; rewrite app_nil_r; reflexivity. }
  intros _. apply kn_bind; [apply kn_of_ka, ka_express|]. intros _.
  repeat case_match; apply kn_of_ka; try assumption.
  apply ka_bind; [apply ka_say' | intros _; apply ka_ret].
Qed.

Lemma rt_respond (u : string) : returns_true (respond u).
Proof.
  destruct (rt_flows u) as (r1 & r2 & r3 & r4 & r5 & r6).
  unfold respond. rt_tac; assumption.
Qed.

(** respond always answers True: every emotion flow and the default
    branch end in [return True]. It stores the detected emotion in
    last_emotion and keeps the user name. Its calls start with the
    emotion's gestures, each followed by a 200 ms sleep; for an emotion
    other than sad, angry, fear, happy, surprise and disgust the only
    other call is the line "I'm here with you. Tell me what's on your
    mind.". *)
Theorem respond_answers_true (ui : string) (s s' : bot_state W) (b : bool)
    (H : respond ui s = (s', Ret b)) :
  b = true /\ user_name s' = user_name s /\
  exists e tr1 tr2,
    detect_emotion fh_float (fh_fetch (bw s)) (fh_chat (bw s)) (Some ui) = Ret e /\
    last_emotion s' = e /\
    calls s' = (calls s ++ tr1 ++ tr2)%list /\
    map act_of tr1 = flat_map (fun g => [AGesture g; ASleep 200]) (gestures_for e) /\
    (~ In e ["sad"; "angry"; "fear"; "happy"; "surprise"; "disgust"] ->
       map act_of tr2 = [ASay HERE_FOR_YOU]).
Proof.
  unfold respond in H.
  destruct (detect_emotion fh_float (fh_fetch (bw s)) (fh_chat (bw s)) (Some ui)) as [e|ex] eqn:Ed;
    [assert (Hd : detect ui s = (s, Ret e)) by (unfold detect; rewrite Ed; reflexivity);
     rewrite (rbind_ret _ _ _ _ _ Hd) in H
    |assert (Hd : detect ui s = (s, Raise ex)) by (unfold detect; rewrite Ed; reflexivity);
     rewrite (rbind_raise _ _ _ _ _ Hd) in H; discriminate H].
  rewrite (rbind_ret _ _ _ _ _ (eq_refl : set_last_emotion e s =
             (mk_bs (bw s) (user_name s) e (calls s), Ret tt))) in H.
  destruct (r_for_gestures (gestures_for e) (mk_bs (bw s) (user_name s) e (calls s))
              (gestures_nonempty e)) as (s2 & tr1 & Hx & Hn2 & He2 & Hc2 & Hm).
  assert (Hx' : express_emotion e (mk_bs (bw s) (user_name s) e (calls s)) = (s2, Ret tt)) by exact Hx.
  rewrite (rbind_ret _ _ _ _ _ Hx') in H. simpl in Hn2, He2, Hc2.
  destruct (ka_flows ui) as (k1 & k2 & k3 & k4 & k5 & k6).
  destruct (rt_flows ui) as (r1 & r2 & r3 & r4 & r5 & r6).
  assert (Hflow : forall F : R W bool, keeps_attrs F -> returns_true F -> F s2 = (s', Ret b) ->
            In e ["sad"; "angry"; "fear"; "happy"; "surprise"; "disgust"] ->
    b = true /\ user_name s' = user_name s /\
    exists e' tr1 tr2,
      Ret e = Ret e' /\ last_emotion s' = e' /\
      calls s' = (calls s ++ tr1 ++ tr2)%list /\
      map act_of tr1 = flat_map (fun g => [AGesture g; ASleep 200]) (gestures_for e') /\
      (~ In e' ["sad"; "angry"; "fear"; "happy"; "surprise"; "disgust"] ->
         map act_of tr2 = [ASay HERE_FOR_YOU])).
  { intros F Hk Hr HF Hin. destruct (Hk _ _ _ HF) as (Hn & He & tr2 & Hc).
    split; [exact (Hr _ _ _ HF)|]. split; [congruence|].
    exists e, tr1, tr2. split; [reflexivity|]. split; [congruence|]. split.
    - rewrite Hc, Hc2, app_assoc. reflexivity.
    - split; [exact Hm|]. intros Hn'. contradiction. }
  destruct (String.eqb_spec e "sad") as [->|N1];
    [apply (Hflow _ k1 r1 H); simpl; tauto|].
  destruct (String.eqb_spec e "angry") as [->|N2];
    [apply (Hflow _ k2 r2 H); simpl; tauto|].
  destruct (String.eqb_spec e "fear") as [->|N3];
    [apply (Hflow _ k3 r3 H); simpl; tauto|].
  destruct (String.eqb_spec e "happy") as [->|N4];
    [apply (Hflow _ k4 r4 H); simpl; tauto|].
  destruct (String.eqb_spec e "surprise") as [->|N5];
    [apply (Hflow _ k5 r5 H); simpl; tauto|].
  destruct (String.eqb_spec e "disgust") as [->|N6];
    [apply (Hflow _ k6 r6 H); simpl; tauto|].
  unfold rbind, say, rret in H.
  destruct (fh_say (bw s2) HERE_FOR_YOU) as [w3 [u|ex]]; inversion H; subst s' b.
  split; [reflexivity|]. split; [simpl; congruence|].
  exists e, tr1, [CSay HERE_FOR_YOU (Ret u)]. simpl.
  split; [reflexivity|]. split; [congruence|]. split.
  - rewrite Hc2, <- app_assoc. reflexivity.
  - split; [exact Hm | reflexivity].
Qed.

(** ask_yes_no asks the question and listens once. It returns at once
    when that reply reads as yes or no; otherwise it says the reprompt and
    listens a second time, and returns that reply's reading, None when it
    is neither. It never changes the user name or last_emotion. *)
Theorem ask_yes_no_two_tries (q rp : string) (s s' : bot_state W) (a : option bool)
    (H : ask_yes_no q rp s = (s', Ret a)) :
  user_name s' = user_name s /\ last_emotion s' = last_emotion s /\
  ((exists r1, calls s' = (calls s ++ [CSay q (Ret tt); CListen (Ret r1)])%list /\
               answer_of r1 = a /\ a <> None) \/
   (exists r1 r2, calls s' = (calls s ++ [CSay q (Ret tt); CListen (Ret r1);
                                          CSay rp (Ret tt); CListen (Ret r2)])%list /\
                  answer_of r1 = None /\ answer_of r2 = a)).
Proof. exact (ask_yes_no_cases q rp s s' a H). Qed.

(** *** greet_user *)

(** When furhat.say succeeds and furhat.listen does not raise, greet_user
    returns normally whatever the "Smile" gesture does: a gesture that
    raises is ignored. It makes five calls: the gesture, the two greeting
    lines, one listen and "Nice to meet you, <name>.". The name is
    extract_name of the reply when the reply has a non-empty message, and
    the old name otherwise. *)
Theorem greet_user_sets_name
    (Hsay : forall w t, snd (fh_say w t) = Ret tt)
    (Hlisten : forall w, match snd (fh_listen w) with Ret _ => True | Raise _ => False end)
    (s : bot_state W) :
  exists s' r,
    greet_user s = (s', Ret tt) /\
    calls s' = (calls s ++ [CGesture "Smile" (snd (fh_gesture (bw s) "Smile"));
                            CSay "Hello! I'm your companion Furhat." (Ret tt);
                            CSay "May I know your name?" (Ret tt);
                            CListen (Ret r);
                            CSay ("Nice to meet you, " ++ user_name s' ++ ".") (Ret tt)])%list /\
    user_name s' = match message_of r with Some m => extract_name m | None => user_name s end /\
    last_emotion s' = last_emotion s.
Proof.
  unfold greet_user, rbind, safe_gesture, try_pass, gesture, say, listen, set_user_name,
    get_user_name, rret. simpl.
  destruct (fh_gesture (bw s) "Smile") as [w1 og]. simpl.
  destruct og as [[]|ex]; simpl.
  all: pose proof (Hsay w1 "Hello! I'm your companion Furhat.") as E1.
  all: destruct (fh_say w1 "Hello! I'm your companion Furhat.") as [w2 r2];
         simpl in E1; subst r2; simpl.
  all: pose proof (Hsay w2 "May I know your name?") as E2.
  all: destruct (fh_say w2 "May I know your name?") as [w3 r3]; simpl in E2; subst r3; simpl.
  all: pose proof (Hlisten w3) as E3.
  all: destruct (fh_listen w3) as [w4 [r|ex']]; simpl in E3; try contradiction; simpl.
  all: destruct (message_of r) as [m|] eqn:Em; simpl.
  all: match goal with
       | |- context [fh_say ?w ?t] =>
           pose proof (Hsay w t) as E4; destruct (fh_say w t) as [w5 r5]; simpl in E4; subst r5
       end.
  all: eexists; exists r; split; [reflexivity|].
  all: rewrite Em; simpl; rewrite <- ?app_assoc; repeat split; reflexivity.
Qed.

(** *** The chat loop and run *)

(** When every furhat.say succeeds and furhat.listen never yields a
    non-empty message, the [while True] loop of run never ends: it goes
    round as long as it runs, since only an answer read as no stops it. *)
Theorem chat_loop_silent_user
    (Hsay : forall w t, snd (fh_say w t) = Ret tt)
    (Hlisten : forall w, match snd (fh_listen w) with
                         | Ret r => message_of r = None
                         | Raise _ => False
                         end)
    (n : nat) (s : bot_state W) :
  snd (chat_loop n s) = Raise OutOfFuel.
Proof.
  assert (Hs : forall t s, exists s1, say t s = (s1, Ret tt)).
  { intros t s0. unfold say. specialize (Hsay (bw s0) t).
    destruct (fh_say (bw s0) t) as [w1 r1]. simpl in Hsay. subst. eexists; reflexivity. }
  assert (Hl : forall s, exists s1 r, listen s = (s1, Ret r) /\ message_of r = None).
  { intros s0. unfold listen. specialize (Hlisten (bw s0)).
    destruct (fh_listen (bw s0)) as [w1 [r1|e]]; simpl in Hlisten; [|contradiction].
    do 2 eexists. split; [reflexivity | exact Hlisten]. }
  assert (Ha : forall s, exists s1, ask_yes_no CONTINUE_QUESTION REPROMPT s = (s1, Ret None)).
  { intros s0. unfold ask_yes_no. cbv zeta.
    destruct (Hs CONTINUE_QUESTION s0) as [s1 E1]. rewrite (rbind_ret _ _ _ _ _ E1).
    destruct (Hl s1) as (s2 & r1 & E2 & Em1). rewrite (rbind_ret _ _ _ _ _ E2). rewrite Em1.
    destruct (Hs REPROMPT s2) as [s3 E3]. rewrite (rbind_ret _ _ _ _ _ E3).
    destruct (Hl s3) as (s4 & r2 & E4 & Em2). rewrite (rbind_ret _ _ _ _ _ E4). rewrite Em2.
    eexists; reflexivity. }
  revert s. induction n as [|n IH]; intros s; [reflexivity|].
  cbn [chat_loop].
  destruct (Hs "How are you feeling today?" s) as [s1 E1]. rewrite (rbind_ret _ _ _ _ _ E1).
  destruct (Hl s1) as (s2 & r & E2 & Em). rewrite (rbind_ret _ _ _ _ _ E2). rewrite Em.
  rewrite (rbind_ret _ _ _ _ _ (eq_refl : rret false s2 = (s2, Ret false))). cbv beta iota.
  destruct (Ha s2) as [s3 E3]. rewrite (rbind_ret _ _ _ _ _ E3). apply IH.
Qed.

Lemma chat_loop_end_cases (n : nat) (s s' : bot_state W) :
  chat_loop n s = (s', Ret tt) ->
  user_name s' = user_name s /\
  exists tr r, calls s' = (calls s ++ tr ++ [CListen (Ret r)])%list /\ answer_of r = Some false.
Proof.
  revert s. induction n as [|n IH]; intros s H; [discriminate H|].
  cbn [chat_loop] in H.
  assert (Hk : forall s3, user_name s3 = user_name s -> (exists tr, calls s3 = (calls s ++ tr)%list) ->
    rbind (ask_yes_no CONTINUE_QUESTION REPROMPT)
      (fun cont => match cont with Some false => rret tt | _ => chat_loop n end) s3 = (s', Ret tt) ->
    user_name s' = user_name s /\
    exists tr r, calls s' = (calls s ++ tr ++ [CListen (Ret r)])%list /\ answer_of r = Some false).
  { intros s3 Hn3 [tr3 Hc3] H3.
    destruct (ask_yes_no CONTINUE_QUESTION REPROMPT s3) as [s4 [a|ex]] eqn:E4;
      [rewrite (rbind_ret _ _ _ _ _ E4) in H3 | rewrite (rbind_raise _ _ _ _ _ E4) in H3; discriminate H3].
    destruct (ka_ask CONTINUE_QUESTION REPROMPT _ _ _ E4) as (Hn4 & _ & tr4 & Hc4).
    destruct a as [[|]|].
    - destruct (IH _ H3) as (Hn & tr & r & Hc & Ha). split; [congruence|].
      exists (tr3 ++ tr4 ++ tr)%list, r. split; [|exact Ha].
      rewrite Hc, Hc4, Hc3, <- !app_assoc. reflexivity.
    - inversion H3; subst s'. split; [congruence|].
      destruct (ask_yes_no_cases _ _ _ _ _ E4) as (_ & _ & [(r1 & Hc & Ha & _)|(r1 & r2 & Hc & _ & Ha)]).
      + exists (tr3 ++ [CSay CONTINUE_QUESTION (Ret tt)])%list, r1. split; [|exact Ha].
        rewrite Hc, Hc3, <- !app_assoc. reflexivity.
      + exists (tr3 ++ [CSay CONTINUE_QUESTION (Ret tt); CListen (Ret r1); CSay REPROMPT (Ret tt)])%list, r2.
        split; [|exact Ha]. rewrite Hc, Hc3, <- !app_assoc. reflexivity.
    - destruct (IH _ H3) as (Hn & tr & r & Hc & Ha). split; [congruence|].
      exists (tr3 ++ tr4 ++ tr)%list, r. split; [|exact Ha].
      rewrite Hc, Hc4, Hc3, <- !app_assoc. reflexivity. }
  destruct (say "How are you feeling today?" s) as [s1 [u|ex]] eqn:E1;
    [rewrite (rbind_ret _ _ _ _ _ E1) in H | rewrite (rbind_raise _ _ _ _ _ E1) in H; discriminate H].
  destruct (ka_say' _ _ _ _ E1) as (Hn1 & _ & tr1 & Hc1).
  destruct (listen s1) as [s2 [r|ex]] eqn:E2;
    [rewrite (rbind_ret _ _ _ _ _ E2) in H | rewrite (rbind_raise _ _ _ _ _ E2) in H; discriminate H].
  destruct (ka_listen _ _ _ E2) as (Hn2 & _ & tr2 & Hc2).
  destruct (message_of r) as [m|].
  - destruct (respond m s2) as [s3 [b|ex]] eqn:E3.
    + pose proof (rt_respond m _ _ _ E3) as ->.
      destruct (kn_respond m _ _ _ E3) as (Hn3 & tr3 & Hc3).
      rewrite (rbind_ret _ _ _ _ _ (rbind_ret _ _ _ _ _ E3 : rbind (respond m)
                  (fun should_continue => rret (negb should_continue)) s2 = rret false s3)) in H.
      cbv beta iota in H.
      apply (Hk s3); [congruence | | exact H].
      exists (tr1 ++ tr2 ++ tr3)%list. rewrite Hc3, Hc2, Hc1, <- !app_assoc. reflexivity.
    + rewrite (rbind_raise _ _ _ _ _ (rbind_raise _ _ _ _ _ E3 : rbind (respond m)
                  (fun should_continue => rret (negb should_continue)) s2 = (s3, Raise ex))) in H.
      discriminate H.
  - rewrite (rbind_ret _ _ _ _ _ (eq_refl : rret false s2 = (s2, Ret false))) in H.
    cbv beta iota in H.
    apply (Hk s2); [congruence | | exact H].
    exists (tr1 ++ tr2)%list. rewrite Hc2, Hc1, <- !app_assoc. reflexivity.
Qed.

Lemma chat_loop_stop_point (n : nat) (s s' : bot_state W) :
  chat_loop n s = (s', Ret tt) ->
  user_name s' = user_name s /\
  exists s3, (exists tr, calls s3 = (calls s ++ tr)%list) /\
    ask_yes_no CONTINUE_QUESTION REPROMPT s3 = (s', Ret (Some false)).
Proof.
  revert s. induction n as [|n IH]; intros s H; [discriminate H|].
  cbn [chat_loop] in H.
  assert (Hk : forall s3, user_name s3 = user_name s -> (exists tr, calls s3 = (calls s ++ tr)%list) ->
    rbind (ask_yes_no CONTINUE_QUESTION REPROMPT)
      (fun cont => match cont with Some false => rret tt | _ => chat_loop n end) s3 = (s', Ret tt) ->
    user_name s' = user_name s /\
    exists s5, (exists tr, calls s5 = (calls s ++ tr)%list) /\
      ask_yes_no CONTINUE_QUESTION REPROMPT s5 = (s', Ret (Some false))).
  { intros s3 Hn3 [tr3 Hc3] H3.
    destruct (ask_yes_no CONTINUE_QUESTION REPROMPT s3) as [s4 [a|ex]] eqn:E4;
      [rewrite (rbind_ret _ _ _ _ _ E4) in H3 | rewrite (rbind_raise _ _ _ _ _ E4) in H3; discriminate H3].
    destruct (ka_ask CONTINUE_QUESTION REPROMPT _ _ _ E4) as (Hn4 & _ & tr4 & Hc4).
    destruct a as [[|]|].
    - destruct (IH _ H3) as (Hn & s5 & [tr5 Hc5] & E5). split; [congruence|].
      exists s5. split; [|exact E5].
      exists (tr3 ++ tr4 ++ tr5)%list. rewrite Hc5, Hc4, Hc3, <- !app_assoc. reflexivity.
    - inversion H3; subst s'. split; [congruence|].
      exists s3. split; [exists tr3; exact Hc3 | exact E4].
    - destruct (IH _ H3) as (Hn & s5 & [tr5 Hc5] & E5). split; [congruence|].
      exists s5. split; [|exact E5].
      exists (tr3 ++ tr4 ++ tr5)%list. rewrite Hc5, Hc4, Hc3, <- !app_assoc. reflexivity. }
  destruct (say "How are you feeling today?" s) as [s1 [u|ex]] eqn:E1;
    [rewrite (rbind_ret _ _ _ _ _ E1) in H | rewrite (rbind_raise _ _ _ _ _ E1) in H; discriminate H].
  destruct (ka_say' _ _ _ _ E1) as (Hn1 & _ & tr1 & Hc1).
  destruct (listen s1) as [s2 [r|ex]] eqn:E2;
    [rewrite (rbind_ret _ _ _ _ _ E2) in H | rewrite (rbind_raise _ _ _ _ _ E2) in H; discriminate H].
  destruct (ka_listen _ _ _ E2) as (Hn2 & _ & tr2 & Hc2).
  destruct (message_of r) as [m|].
  - destruct (respond m s2) as [s3 [b|ex]] eqn:E3.
    + pose proof (rt_respond m _ _ _ E3) as ->.
      destruct (kn_respond m _ _ _ E3) as (Hn3 & tr3 & Hc3).
      rewrite (rbind_ret _ _ _ _ _ (rbind_ret _ _ _ _ _ E3 : rbind (respond m)
                  (fun should_continue => rret (negb should_continue)) s2 = rret false s3)) in H.
      cbv beta iota in H.
      apply (Hk s3); [congruence | | exact H].
      exists (tr1 ++ tr2 ++ tr3)%list. rewrite Hc3, Hc2, Hc1, <- !app_assoc. reflexivity.
    + rewrite (rbind_raise _ _ _ _ _ (rbind_raise _ _ _ _ _ E3 : rbind (respond m)
                  (fun should_continue => rret (negb should_continue)) s2 = (s3, Raise ex))) in H.
      discriminate H.
  - rewrite (rbind_ret _ _ _ _ _ (eq_refl : rret false s2 = (s2, Ret false))) in H.
    cbv beta iota in H.
    apply (Hk s2); [congruence | | exact H].
    exists (tr1 ++ tr2)%list. rewrite Hc2, Hc1, <- !app_assoc. reflexivity.
Qed.

(** The [while True] loop of run ends only when its own ask_yes_no on
    "Would you like to continue the chat?" returns False: respond always
    answers True, so the [should_continue is False] break never fires.
    The loop's last calls are that question and one listen whose reply
    reads as no, or the question, a listen read as neither yes nor no,
    the reprompt "Sorry, is that a yes or a no?" and a listen read as no. The
    user name is unchanged. *)
Theorem chat_loop_stops_on_no (n : nat) (s s' : bot_state W)
    (H : chat_loop n s = (s', Ret tt)) :
  user_name s' = user_name s /\
  exists s3,
    (exists tr, calls s3 = (calls s ++ tr)%list) /\
    ask_yes_no CONTINUE_QUESTION REPROMPT s3 = (s', Ret (Some false)) /\
    ((exists r, calls s' = (calls s3 ++ [CSay CONTINUE_QUESTION (Ret tt); CListen (Ret r)])%list /\
                answer_of r = Some false) \/
     (exists r1 r2, calls s' = (calls s3 ++ [CSay CONTINUE_QUESTION (Ret tt); CListen (Ret r1);
                                            CSay REPROMPT (Ret tt); CListen (Ret r2)])%list /\
                    answer_of r1 = None /\ answer_of r2 = Some false)).
Proof.
  destruct (chat_loop_stop_point n s s' H) as (Hn & s3 & Hc3 & E3).
  split; [exact Hn|]. exists s3. split; [exact Hc3|]. split; [exact E3|].
  destruct (ask_yes_no_cases _ _ _ _ _ E3) as (_ & _ & [(r & Hc & Ha & _)|(r1 & r2 & Hc & Ha1 & Ha2)]).
  - left. exists r. split; assumption.
  - right. exists r1, r2. repeat split; assumption.
Qed.

(** When run finishes, its last two calls are the listen whose reply was
    read as no and the farewell "It was nice talking to you, <name>. Take
    care.", where <name> is the name greet_user settled on. *)
Theorem run_farewell (n : nat) (s s' : bot_state W) (H : run n s = (s', Ret tt)) :
  user_name s' = user_name (fst (greet_user s)) /\
  exists tr r,
    calls s' = (calls (fst (greet_user s)) ++ tr ++
                [CListen (Ret r);
                 CSay ("It was nice talking to you, " ++ user_name (fst (greet_user s)) ++ ". Take care.")
                   (Ret tt)])%list /\
    answer_of r = Some false.
Proof.
  unfold run in H.
  destruct (greet_user s) as [g [u|ex]] eqn:Eg;
    [rewrite (rbind_ret _ _ _ _ _ Eg) in H | rewrite (rbind_raise _ _ _ _ _ Eg) in H; discriminate H].
  simpl fst.
  destruct (chat_loop n g) as [s2 [u2|ex]] eqn:E2;
    [rewrite (rbind_ret _ _ _ _ _ E2) in H | rewrite (rbind_raise _ _ _ _ _ E2) in H; discriminate H].
  destruct u2. destruct (chat_loop_end_cases n g s2 E2) as (Hn & tr & r & Hc & Ha).
  rewrite (rbind_ret _ _ _ _ _ (eq_refl : get_user_name s2 = (s2, Ret (user_name s2)))) in H.
  unfold say in H. destruct (fh_say (bw s2) _) as [w3 r3]. inversion H; subst s' r3.
  simpl. split; [exact Hn|]. exists tr, r. split; [|exact Ha].
  rewrite Hc, Hn, <- !app_assoc. reflexivity.
Qed.

End Behaviour.

End CompanionFacts.

(* ================================================================== *)
(** ** The extra facts at concrete inputs *)

Module VisionRuns.
Import Bot Vision.

Lemma detect_face_crop_witness :
  let faces := [(100, 100, 100, 100); (0, 0, 200, 150)]%Z in
  (forall x y w h, In (x, y, w, h) faces ->
     (0 <= x /\ 0 <= y /\ 0 <= w /\ 0 <= h /\ x + w <= 640 /\ y + h <= 480)%Z) /\
  (faces = [] -> detect_face (480, 640)%Z faces = Ret None) /\
  (faces <> [] ->
   exists fx fy fw fh l1 l2 x y w h,
     faces = (l1 ++ (fx, fy, fw, fh) :: l2)%list /\
     (forall x' y' w' h', In (x', y', w', h') l1 -> (w' * h' < fw * fh)%Z) /\
     (forall x' y' w' h', In (x', y', w', h') faces -> (w' * h' <= fw * fh)%Z) /\
     detect_face (480, 640)%Z faces = Ret (Some (x, y, w, h)) /\
     (x = Z.max 0 (fx - Z.quot fw 5) /\ y = Z.max 0 (fy - Z.quot fw 5) /\
      w = Z.min (640 - x) (fw + 2 * Z.quot fw 5) /\
      h = Z.min (480 - y) (fh + 2 * Z.quot fw 5))%Z /\
     (0 <= x /\ 0 <= y /\ x + w <= 640 /\ y + h <= 480)%Z /\
     (x <= fx /\ fx + fw <= x + w /\ y <= fy /\ fy + fh <= y + h)%Z).
Proof.
  intros faces.
  assert (Hin : forall x y w h, In (x, y, w, h) faces ->
     (0 <= x /\ 0 <= y /\ 0 <= w /\ 0 <= h /\ x + w <= 640 /\ y + h <= 480)%Z).
  { intros x y w h H. simpl in H.
    destruct H as [H|[H|[]]]; inversion H; subst; lia. }
  split; [exact Hin|].
  pose proof (VisionFacts.detect_face_crop 480 640 faces Hin) as Hcrop. exact Hcrop.
Defined.

Lemma predict_emotion_from_frame_label_witness :
  let probs_of := fun _ : rect => [1/10; 3/10; 1/10; 1/10; 2/10; 1/10; 1/10]%Q in
  let faces := [(0, 0, 200, 150)]%Z in
  (forall face, length (probs_of face) = 7%nat) /\
  (faces = [] -> predict_emotion_from_frame (480, 640)%Z faces probs_of = Predicted neutral 0) /\
  (faces <> [] ->
   exists face i label conf,
     detect_face (480, 640)%Z faces = Ret (Some face) /\
     predict_emotion_from_frame (480, 640)%Z faces probs_of = Predicted label conf /\
     CLASSES !! i = Some label /\ probs_of face !! i = Some conf /\
     (forall j p, probs_of face !! j = Some p -> (p <= conf)%Q) /\
     (forall j p, (j < i)%nat -> probs_of face !! j = Some p -> (p < conf)%Q)).
Proof.
  intros probs_of faces.
  assert (H7 : forall face, length (probs_of face) = 7%nat) by (intros; reflexivity).
  split; [exact H7|].
  exact (VisionFacts.predict_emotion_from_frame_label (480, 640)%Z faces probs_of H7).
Defined.

End VisionRuns.

Module ControllerMoreRuns.
Import Controller ControllerFacts Sim.

Lemma start_process_missing_file_witness :
  live_pid (boot (machine (fun _ => Some 200%Z) 10)) "bot" = None /\
  os_path_exists (machine (fun _ => Some 200%Z) 10) "missing.py" = false /\
  start_process "bot" "missing.py" (boot (machine (fun _ => Some 200%Z) 10)) =
    (boot (machine (fun _ => Some 200%Z) 10),
     Ret (mk_result false ("Missing file: " ++ "missing.py") None)).
Proof.
  split; [reflexivity|]. split; [reflexivity|].
  exact (ControllerMore.start_process_missing_file "bot" "missing.py"
           (boot (machine (fun _ => Some 200%Z) 10)) eq_refl eq_refl).
Defined.

Lemma start_process_spawn_records_witness :
  live_pid (boot (machine (fun _ => Some 200%Z) 10)) "emotion" = None /\
  os_path_exists (machine (fun _ => Some 200%Z) 10) "emotion_webcam.py" = true /\
  os_popen (machine (fun _ => Some 200%Z) 10) [os_pyexe; "emotion_webcam.py"]
    (if os_nt then CREATE_NEW_PROCESS_GROUP else 0%Z) =
    (set_alive (machine (fun _ => Some 200%Z) 10) [100%Z] 101, Ret (mk_Popen 100)) /\
  start_process "emotion" "emotion_webcam.py" (boot (machine (fun _ => Some 200%Z) 10)) =
    (mk_St (set_alive (machine (fun _ => Some 200%Z) 10) [100%Z] 101)
       (<["emotion" := Some (mk_Popen 100)]> PROCS0)
       ([] ++ [EvPopen [os_pyexe; "emotion_webcam.py"]
                 (if os_nt then CREATE_NEW_PROCESS_GROUP else 0%Z) (Ret (mk_Popen 100))])%list,
     Ret (mk_result true ("Started " ++ "emotion") (Some (pid (mk_Popen 100))))).
Proof.
  split; [reflexivity|]. split; [reflexivity|]. split; [reflexivity|].
  exact (ControllerMore.start_process_spawn_records "emotion" "emotion_webcam.py"
           (boot (machine (fun _ => Some 200%Z) 10))
           (set_alive (machine (fun _ => Some 200%Z) 10) [100%Z] 101) (mk_Popen 100)
           eq_refl eq_refl eq_refl).
Defined.

Lemma stop_process_graceful_then_kill_witness :
  procs running_emotion !! "emotion" = Some (Some (mk_Popen 7)) /\
  os_poll (world running_emotion) (mk_Popen 7) = None /\
  let s := running_emotion in
  let p := mk_Popen 7 in
  let '(w1, rg) := if os_nt then os_send_signal (world s) p CTRL_BREAK_EVENT
                   else os_terminate (world s) p in
  let ev := if os_nt then EvSendSignal (pid p) CTRL_BREAK_EVENT rg
            else EvTerminate (pid p) rg in
  match rg with
  | Raise e =>
      stop_process "emotion" s =
        (mk_St w1 (procs s) (trace s ++ [ev])%list,
         Ret (mk_result false ("Stop failed: " ++ exn_str e) None))
  | Ret _ =>
      let w2 := os_sleep w1 800 in
      match os_poll w2 p with
      | Some _ =>
          stop_process "emotion" s =
            (mk_St w2 (<["emotion" := None]> (procs s)) (trace s ++ [ev; EvSleep 800])%list,
             Ret (mk_result true ("Stopped " ++ "emotion") None))
      | None =>
          let '(w3, rk) := os_kill w2 p in
          stop_process "emotion" s =
            (mk_St w3 (match rk with Ret _ => <["emotion" := None]> (procs s) | Raise _ => procs s end)
               (trace s ++ [ev; EvSleep 800; EvKill (pid p) rk])%list,
             Ret (match rk with
                  | Ret _ => mk_result true ("Stopped " ++ "emotion") None
                  | Raise e => mk_result false ("Stop failed: " ++ exn_str e) None
                  end))
      end
  end.
Proof.
  split; [reflexivity|]. split; [reflexivity|].
  exact (ControllerMore.stop_process_graceful_then_kill "emotion" running_emotion (mk_Popen 7)
           eq_refl eq_refl).
Defined.

Lemma stop_process_then_idle_witness :
  stop_process "emotion" running_emotion =
    (fst (stop_process "emotion" running_emotion),
     Ret (mk_result true ("Stopped " ++ "emotion") None)) /\
  ok (mk_result true ("Stopped " ++ "emotion") None) = true /\
  is_running "emotion" (fst (stop_process "emotion" running_emotion)) =
    (fst (stop_process "emotion" running_emotion), Ret false) /\
  stop_process "emotion" (fst (stop_process "emotion" running_emotion)) =
    (fst (stop_process "emotion" running_emotion),
     Ret (mk_result true ("emotion" ++ " not running") None)).
Proof.
  assert (Hstop : stop_process "emotion" running_emotion =
    (fst (stop_process "emotion" running_emotion),
     Ret (mk_result true ("Stopped " ++ "emotion") None))) by reflexivity.
  split; [exact Hstop|]. split; [reflexivity|].
  exact (ControllerMore.stop_process_then_idle "emotion" running_emotion _ _ Hstop eq_refl).
Defined.

Lemma wait_for_emotion_api_nonpositive_witness :
  (0 <= 0)%Z /\ wait_for_emotion_api 0 slow_api = (slow_api, Ret false).
Proof.
  split; [lia|]. exact (ControllerMore.wait_for_emotion_api_nonpositive 0 slow_api ltac:(lia)).
Defined.

End ControllerMoreRuns.

Module CompanionRuns.
Import Bot Companion RobotSim.

Lemma ask_yes_no_two_tries_witness :
  let s := init_state (robot_hearing [Some "hmm"; Some "nope"]) in
  let s' := fst (ask_yes_no CONTINUE_QUESTION REPROMPT s) in
  ask_yes_no CONTINUE_QUESTION REPROMPT s = (s', Ret (Some false)) /\
  user_name s' = user_name s /\ last_emotion s' = last_emotion s /\
  ((exists r1, calls s' = (calls s ++ [CSay CONTINUE_QUESTION (Ret tt); CListen (Ret r1)])%list /\
               answer_of r1 = Some false /\ Some false <> None) \/
   (exists r1 r2, calls s' = (calls s ++ [CSay CONTINUE_QUESTION (Ret tt); CListen (Ret r1);
                                          CSay REPROMPT (Ret tt); CListen (Ret r2)])%list /\
                  answer_of r1 = None /\ answer_of r2 = Some false)).
Proof.
  intros s s'.
  assert (H : ask_yes_no CONTINUE_QUESTION REPROMPT s = (s', Ret (Some false))) by reflexivity.
  split; [exact H|].
  exact (CompanionFacts.ask_yes_no_two_tries CONTINUE_QUESTION REPROMPT s s' (Some false) H).
Defined.

Lemma respond_answers_true_witness :
  let s := init_state (robot_hearing []) in
  let s' := fst (respond "hi" s) in
  respond "hi" s = (s', Ret true) /\
  true = true /\ user_name s' = user_name s /\
  exists e tr1 tr2,
    detect_emotion fh_float (fh_fetch (bw s)) (fh_chat (bw s)) (Some "hi") = Ret e /\
    last_emotion s' = e /\
    calls s' = (calls s ++ tr1 ++ tr2)%list /\
    map act_of tr1 = flat_map (fun g => [AGesture g; ASleep 200]) (gestures_for e) /\
    (~ In e ["sad"; "angry"; "fear"; "happy"; "surprise"; "disgust"] ->
       map act_of tr2 = [ASay HERE_FOR_YOU]).
Proof.
  intros s s'.
  assert (H : respond "hi" s = (s', Ret true)) by reflexivity.
  split; [exact H|].
  exact (CompanionFacts.respond_answers_true "hi" s s' true H).
Defined.

Lemma greet_user_sets_name_witness :
  let s := init_state (mk_robot [Some "call me bob"] [] (Some "gesture unavailable") 0
                         (fun _ => OracleRaises RequestException) (HttpRaises RequestException)) in
  (forall (w : robot) t, snd (fh_say w t) = Ret tt) /\
  (forall w : robot, match snd (fh_listen w) with Ret _ => True | Raise _ => False end) /\
  exists s' r,
    greet_user s = (s', Ret tt) /\
    calls s' = (calls s ++ [CGesture "Smile" (snd (fh_gesture (bw s) "Smile"));
                            CSay "Hello! I'm your companion Furhat." (Ret tt);
                            CSay "May I know your name?" (Ret tt);
                            CListen (Ret r);
                            CSay ("Nice to meet you, " ++ user_name s' ++ ".") (Ret tt)])%list /\
    user_name s' = match message_of r with Some m => extract_name m | None => user_name s end /\
    last_emotion s' = last_emotion s.
Proof.
  intros s.
  assert (Hsay : forall (w : robot) t, snd (fh_say w t) = Ret tt) by (intros w t; reflexivity).
  assert (Hlisten : forall (w : robot),
             match snd (fh_listen w) with Ret _ => True | Raise _ => False end)
    by (intros w; simpl; destruct (rb_heard w); exact I).
  split; [exact Hsay|]. split; [exact Hlisten|].
  exact (CompanionFacts.greet_user_sets_name Hsay Hlisten s).
Defined.

Lemma chat_loop_silent_user_witness :
  (forall w t, snd (fh_say w t) = Ret tt) /\
  (forall w, match snd (fh_listen w) with
             | Ret r => message_of r = None
             | Raise _ => False
             end) /\
  snd (chat_loop 3 (init_state (mk_room [] 0))) = Raise OutOfFuel.
Proof.
  assert (Hsay : forall (w : room) t, snd (fh_say w t) = Ret tt) by (intros; reflexivity).
  assert (Hlisten : forall w : room, match snd (fh_listen w) with
                                     | Ret r => message_of r = None
                                     | Raise _ => False
                                     end) by (intros; reflexivity).
  split; [exact Hsay|]. split; [exact Hlisten|].
  exact (CompanionFacts.chat_loop_silent_user Hsay Hlisten 3 (init_state (mk_room [] 0))).
Defined.

Lemma chat_loop_stops_on_no_witness :
  let s := init_state (robot_hearing [None; Some "no"]) in
  let s' := fst (chat_loop 2 s) in
  chat_loop 2 s = (s', Ret tt) /\
  user_name s' = user_name s /\
  exists s3,
    (exists tr, calls s3 = (calls s ++ tr)%list) /\
    ask_yes_no CONTINUE_QUESTION REPROMPT s3 = (s', Ret (Some false)) /\
    ((exists r, calls s' = (calls s3 ++ [CSay CONTINUE_QUESTION (Ret tt); CListen (Ret r)])%list /\
                answer_of r = Some false) \/
     (exists r1 r2, calls s' = (calls s3 ++ [CSay CONTINUE_QUESTION (Ret tt); CListen (Ret r1);
                                            CSay REPROMPT (Ret tt); CListen (Ret r2)])%list /\
                    answer_of r1 = None /\ answer_of r2 = Some false)).
Proof.
  intros s s'.
  assert (H : chat_loop 2 s = (s', Ret tt)) by (vm_compute; reflexivity).
  split; [exact H|].
  exact (CompanionFacts.chat_loop_stops_on_no 2 s s' H).
Defined.

Lemma run_farewell_witness :
  let s := init_state (robot_hearing [Some "call me bob"; None; Some "no"]) in
  let s' := fst (run 3 s) in
  run 3 s = (s', Ret tt) /\
  user_name s' = user_name (fst (greet_user s)) /\
  exists tr r,
    calls s' = (calls (fst (greet_user s)) ++ tr ++
                [CListen (Ret r);
                 CSay ("It was nice talking to you, " ++ user_name (fst (greet_user s)) ++ ". Take care.")
                   (Ret tt)])%list /\
    answer_of r = Some false.
Proof.
  intros s s'.
  assert (H : run 3 s = (s', Ret tt)) by (vm_compute; reflexivity).
  split; [exact H|].
  exact (CompanionFacts.run_farewell 3 s s' H).
Defined.

End CompanionRuns.
